(** * Exhaust Leaderboard: rate limiter, resilient client, aggregation, report

    A shallow embedding of [exhaust_leaderboard.py] and the properties of its
    specification.

    Conventions of the embedding.
    - Time ([time.time()], [time.sleep]) is an exact number of milliseconds in
      [Z]: one second is [1000], the limiter's floor of 0.01 s is [10].  The
      clock never goes back, a sleep lasts at least as long as asked, and a
      request takes the time the world gives it.
    - A float that is slept on is a finite number of milliseconds, an
      infinity or nan; a float that is a quotient of two ints is the exact
      rational value of the nearest double.
    - Decoded JSON payloads are values of [json], numbers being integers; a
      Python [dict] is the list of its entries, read with [dict.get]; a
      string is the list of its characters, one [ascii] each.
    - Python exceptions are the constructors of [exn]; a computation of the
      program is a function of the [World] (clock, limiter, remote service)
      returning a [Result], the new world and the events it caused: slots
      taken, requests sent, sleeps, lines written.
    - The debug lines of [dprint] are left out, and a line of output keeps
      its formatted fields apart instead of one string.
    - A URL is the endpoint with the values formatted into it. *)

From Stdlib Require Import ZArith List String Ascii Bool Lia.
From Stdlib Require Import QArith Qround Qabs Qpower Lqa Permutation Sorted.
Import ListNotations.
Open Scope Z_scope.

(** ** The sliding-window rate limiter *)

Module Limiter.

(** The module-level constants of the "RATE LIMITING" block. *)
Record Config := {
  ONE_SEC_LIMIT : Z;
  ONE_SEC_WINDOW : Z;
  TWO_MIN_LIMIT : Z;
  TWO_MIN_WINDOW : Z
}.

Definition module_config : Config :=
  {| ONE_SEC_LIMIT := 20; ONE_SEC_WINDOW := 1000;
     TWO_MIN_LIMIT := 100; TWO_MIN_WINDOW := 120000 |}.

(** The floor [0.01] of [max(sleep1, sleep2, 0.01)]. *)
Definition SLEEP_FLOOR : Z := 10.

(** [class RateLimiter]: two deques of timestamps, oldest first. *)
Record RateLimiter := { w1 : list Z; w2 : list Z }.

(** [RateLimiter.__init__]. *)
Definition init : RateLimiter := {| w1 := []; w2 := [] |}.

(** The clock: the current reading of [time.time()], and by how much each
    coming [time.sleep] oversleeps (a sleep never wakes early). *)
Record Clock := { now : Z; lag : list N }.

Definition sleep_clock (d : Z) (c : Clock) : Clock :=
  match lag c with
  | [] => {| now := now c + d; lag := [] |}
  | o :: os => {| now := now c + d + Z.of_N o; lag := os |}
  end.

(** Time that passes in the caller between two calls. *)
Definition elapse (d : N) (c : Clock) : Clock :=
  {| now := now c + Z.of_N d; lag := lag c |}.

(** One [while w and now - w[0] > WINDOW: w.popleft()] loop. *)
Fixpoint prune_window (window t : Z) (w : list Z) : list Z :=
  match w with
  | [] => []
  | h :: w' => if window <? t - h then prune_window window t w' else w
  end.

(** [RateLimiter._prune]. *)
Definition _prune (cfg : Config) (t : Z) (rl : RateLimiter) : RateLimiter :=
  {| w1 := prune_window (ONE_SEC_WINDOW cfg) t (w1 rl);
     w2 := prune_window (TWO_MIN_WINDOW cfg) t (w2 rl) |}.

Definition len (w : list Z) : Z := Z.of_nat (List.length w).

(** [(w[0] + WINDOW - now) if w else 0.0]. *)
Definition head_wait (window t : Z) (w : list Z) : Z :=
  match w with
  | [] => 0
  | h :: _ => h + window - t
  end.

(** [sleep_for = max(sleep1, sleep2, 0.01)]. *)
Definition sleep_for (cfg : Config) (t : Z) (rl : RateLimiter) : Z :=
  Z.max (Z.max (head_wait (ONE_SEC_WINDOW cfg) t (w1 rl))
               (head_wait (TWO_MIN_WINDOW cfg) t (w2 rl)))
        SLEEP_FLOOR.

Definition has_slot (cfg : Config) (rl : RateLimiter) : bool :=
  (len (w1 rl) <? ONE_SEC_LIMIT cfg) && (len (w2 rl) <? TWO_MIN_LIMIT cfg).

(** [RateLimiter.wait_for_slot]: the [while True] loop, [fuel] iterations at
    most.  A call that returns gives the limiter, the clock (whose reading is
    the admitted timestamp) and the durations it slept, in order. *)
Fixpoint wait_for_slot (cfg : Config) (fuel : nat) (rl : RateLimiter)
    (c : Clock) : option (RateLimiter * Clock * list Z) :=
  match fuel with
  | O => None
  | S fuel' =>
      let t := now c in
      let rl := _prune cfg t rl in
      if has_slot cfg rl then
        Some ({| w1 := w1 rl ++ [t]; w2 := w2 rl ++ [t] |}, c, [])
      else
        let d := sleep_for cfg t rl in
        match wait_for_slot cfg fuel' rl (sleep_clock d c) with
        | Some (rl', c', s) => Some (rl', c', d :: s)
        | None => None
        end
  end.

(** A sequence of acquisitions on one limiter: before each call the caller
    lets [d] milliseconds pass.  The result lists, call by call, the admitted
    timestamp and the sleeps of that call. *)
Fixpoint acquisitions (cfg : Config) (fuel : nat) (delays : list N)
    (rl : RateLimiter) (c : Clock) : option (list (Z * list Z)) :=
  match delays with
  | [] => Some []
  | d :: ds =>
      match wait_for_slot cfg fuel rl (elapse d c) with
      | None => None
      | Some (rl', c', s) =>
          match acquisitions cfg fuel ds rl' c' with
          | None => None
          | Some r => Some ((now c', s) :: r)
          end
      end
  end.

(** Number of admitted timestamps in the closed interval [[a, a + window]]. *)
Definition count_within (a window : Z) (adm : list Z) : Z :=
  len (filter (fun t => (a <=? t) && (t <=? a + window)) adm).

(** No rolling interval of length [window] holds more than [limit]
    admissions. *)
Definition rolling (window limit : Z) (adm : list Z) : Prop :=
  forall a, count_within a window adm <= limit.

(** [w] is the tail of the admission log [adm], and everything before it had
    left the window by time [t]. *)
Definition covers (window t : Z) (w adm : list Z) : Prop :=
  exists pre, adm = pre ++ w /\ Forall (fun x => window < t - x) pre.

(** What the limiter's deques record about the admission log [adm] at clock
    reading [t], with the bound the log satisfies. *)
Definition tracks (cfg : Config) (t : Z) (rl : RateLimiter) (adm : list Z)
    : Prop :=
  covers (ONE_SEC_WINDOW cfg) t (w1 rl) adm /\
  covers (TWO_MIN_WINDOW cfg) t (w2 rl) adm /\
  rolling (ONE_SEC_WINDOW cfg) (ONE_SEC_LIMIT cfg) adm /\
  rolling (TWO_MIN_WINDOW cfg) (TWO_MIN_LIMIT cfg) adm.

Definition within_limits (cfg : Config) (rl : RateLimiter) : Prop :=
  len (w1 rl) <= ONE_SEC_LIMIT cfg /\ len (w2 rl) <= TWO_MIN_LIMIT cfg.

(** The limiter of the specification's scenario: 2 per second, 5 per ten
    seconds. *)
Definition scenario_config : Config :=
  {| ONE_SEC_LIMIT := 2; ONE_SEC_WINDOW := 1000;
     TWO_MIN_LIMIT := 5; TWO_MIN_WINDOW := 10000 |}.

(** What the specification asks of the sleep: the longest wait among the
    windows that are at their limit, not below the floor. *)
Definition full_wait (limit window t : Z) (w : list Z) : Z :=
  if len w <? limit then 0 else head_wait window t w.

Definition spec_sleep_for (cfg : Config) (t : Z) (rl : RateLimiter) : Z :=
  Z.max (Z.max (full_wait (ONE_SEC_LIMIT cfg) (ONE_SEC_WINDOW cfg) t (w1 rl))
               (full_wait (TWO_MIN_LIMIT cfg) (TWO_MIN_WINDOW cfg) t (w2 rl)))
        SLEEP_FLOOR.

(** A sequence of acquisitions as [acquisitions], with the limiter and the
    clock the last call leaves. *)
Fixpoint served (cfg : Config) (fuel : nat) (delays : list N)
    (rl : RateLimiter) (c : Clock)
    : option (list (Z * list Z) * RateLimiter * Clock) :=
  match delays with
  | [] => Some ([], rl, c)
  | d :: ds =>
      match wait_for_slot cfg fuel rl (elapse d c) with
      | None => None
      | Some (rl', c', s) =>
          match served cfg fuel ds rl' c' with
          | None => None
          | Some (r, rl'', c'') => Some ((now c', s) :: r, rl'', c'')
          end
      end
  end.

(** The instants at which the calls are made when none of them waits. *)
Fixpoint arrivals (t : Z) (delays : list N) : list Z :=
  match delays with
  | [] => []
  | d :: ds => (t + Z.of_N d) :: arrivals (t + Z.of_N d) ds
  end.

(** The timestamps of [adm] no older than [window] at time [t]. *)
Definition recent (window t : Z) (adm : list Z) : list Z :=
  filter (fun x => t - x <=? window) adm.

(** A log of admissions in the order they were made, none after [t]. *)
Definition chronological (t : Z) (adm : list Z) : Prop :=
  StronglySorted Z.le adm /\ Forall (fun x => x <= t) adm.

(** Total time of a list of sleeps. *)
Definition total_sleep (s : list Z) : Z := fold_right Z.add 0 s.

End Limiter.



(** ** Python values *)

Set Warnings "-register-all".

(** A decoded JSON payload.  A [dict] is the list of its entries, each key
    once. *)
Inductive json : Type :=
| JNull
| JBool (b : bool)
| JNum (n : Z)
| JStr (s : string)
| JList (l : list json)
| JObj (kv : list (string * json)).

(** Python truthiness ([if x], [not x], [x or y]). *)
Definition truthy (j : json) : bool :=
  match j with
  | JNull => false
  | JBool b => b
  | JNum n => negb (n =? 0)
  | JStr s => negb (String.eqb s "")
  | JList l => match l with [] => false | _ => true end
  | JObj kv => match kv with [] => false | _ => true end
  end.

(** [x or y]. *)
Definition py_or (x y : json) : json := if truthy x then x else y.

Fixpoint lookup (k : string) (kv : list (string * json)) : option json :=
  match kv with
  | [] => None
  | (k', v) :: kv' => if String.eqb k k' then Some v else lookup k kv'
  end.

(** Python [==] on payloads; [True == 1] and [False == 0] as in Python; two
    lists are equal element by element, in order; two dicts are equal when
    they have as many entries and every key of the first has an equal value
    in the second, whatever the order of the entries. *)
Fixpoint py_eq (a b : json) {struct a} : bool :=
  match a, b with
  | JNull, JNull => true
  | JBool x, JBool y => Bool.eqb x y
  | JBool x, JNum n => n =? (if x then 1 else 0)
  | JNum n, JBool x => n =? (if x then 1 else 0)
  | JNum x, JNum y => x =? y
  | JStr x, JStr y => String.eqb x y
  | JList x, JList y =>
      (fix all2 (x y : list json) {struct x} : bool :=
         match x, y with
         | [], [] => true
         | u :: x', v :: y' => py_eq u v && all2 x' y'
         | _, _ => false
         end) x y
  | JObj x, JObj y =>
      Nat.eqb (List.length x) (List.length y)
      && (fix all (x : list (string * json)) {struct x} : bool :=
            match x with
            | [] => true
            | (k, u) :: x' =>
                match lookup k y with
                | Some v => py_eq u v
                | None => false
                end && all x'
            end) x
  | _, _ => false
  end.

(** The endpoints of [RiotClient], each with the values formatted into its
    URL. *)
Inductive url : Type :=
| AccountByRiotId (regional gameName tagLine : string)
| SummonerById (platform : string) (encrypted_summoner_id : json)
| ActiveGameBySummoner (platform : string) (encrypted_or_puuid : json)
| MatchIdsByPuuid (regional : string) (puuid : json)
| MatchById (regional : string) (match_id : json).

(** The messages of the program's [RuntimeError]s, each with the values
    formatted into it. *)
Inductive runtime_error : Type :=
| GetFailed (u : url) (status_code : Z) (err : json)
| RetriesExhausted (u : url)
| NoPuuidInAccount (payload : json)
| ParticipantMissingIds.

(** The exceptions the program raises or lets through. *)
Inductive exn : Type :=
| RuntimeError (m : runtime_error)
| AttributeError
| KeyError (k : string)
| TypeError
| ValueError
| OverflowError
| ZeroDivisionError
| RequestException (kind : string)
| SystemExit (code : Z).

(** [except Exception] catches every exception but [SystemExit]. *)
Definition is_Exception (e : exn) : bool :=
  match e with SystemExit _ => false | _ => true end.

(** How a piece of the program ends: with a value, with a raised exception,
    or not at all ([Hang]: the limiter's loop ran out of fuel). *)
Inductive Result (A : Type) : Type :=
| Ok (a : A)
| Raise (e : exn)
| Hang.
Arguments Ok {A} a.
Arguments Raise {A} e.
Arguments Hang {A}.

(** A Python expression without effects: a value or a raised exception. *)
Inductive Pure (A : Type) : Type :=
| Val (a : A)
| Exc (e : exn).
Arguments Val {A} a.
Arguments Exc {A} e.

(** [d.get(k, default)]; only a dict has [get]. *)
Definition py_get (d : json) (k : string) (default : json) : Pure json :=
  match d with
  | JObj kv => Val (match lookup k kv with Some v => v | None => default end)
  | _ => Exc AttributeError
  end.

(** [d[k]] with a string key. *)
Definition py_getitem (d : json) (k : string) : Pure json :=
  match d with
  | JObj kv =>
      match lookup k kv with Some v => Val v | None => Exc (KeyError k) end
  | _ => Exc TypeError
  end.

Fixpoint chars (s : string) : list json :=
  match s with
  | EmptyString => []
  | String c s' => JStr (String c EmptyString) :: chars s'
  end.

(** [for x in v]: the elements of a list, the keys of a dict, the characters
    of a string. *)
Definition py_iter (v : json) : Pure (list json) :=
  match v with
  | JList l => Val l
  | JObj kv => Val (map (fun e => JStr (fst e)) kv)
  | JStr s => Val (chars s)
  | _ => Exc TypeError
  end.

(** [len(v)]. *)
Definition py_len (v : json) : Pure Z :=
  match py_iter v with
  | Val l => Val (Z.of_nat (List.length l))
  | Exc e => Exc e
  end.

(** ** Python floats *)

(** A float that is slept on: a finite number of milliseconds, an infinity
    or nan. *)
Inductive pyfloat : Type :=
| Finite (ms : Z)
| Infinite (negative : bool)
| NaN.

(** The longest sleep [time.sleep] takes.  It converts the duration to a
    64-bit count of nanoseconds, [2^63 - 1] at most: 9223372036854 whole
    milliseconds. *)
Definition SLEEP_MAX : Z := 9223372036854.

(** Rounding to the nearest integer, a tie going to the even one. *)
Definition round_half_even (q : Q) : Z :=
  let f := Qfloor q in
  match Qcompare (q - inject_Z f)%Q (1 # 2)%Q with
  | Lt => f
  | Gt => f + 1
  | Eq => if Z.even f then f else f + 1
  end.

(** The exponent [k] of a positive rational: [2^k <= q < 2^(k+1)]. *)
Definition binade (q : Q) : Z :=
  let k := Z.log2 (Qnum q) - Z.log2 (Zpos (Qden q)) in
  if Qle_bool (2 ^ k)%Q q then k else k - 1.

(** The double nearest to a rational [a >= 0], as the rational it is: 53
    bits in the binade of [a], the spacing being [2^-1074] at least; [None]
    when the rounded value is beyond the largest double. *)
Definition round_to_double (a : Q) : option Q :=
  let e := Z.max (binade a - 52) (-1074) in
  let r := (inject_Z (round_half_even (a / 2 ^ e)) * 2 ^ e)%Q in
  if Qle_bool (2 ^ 1024)%Q r then None else Some r.

Definition nearest_double (q : Q) : option Q :=
  if Qle_bool 0 q then round_to_double q
  else option_map Qopp (round_to_double (- q)%Q).

(** [n / d] on two ints: the correctly rounded quotient. *)
Definition py_truediv (n d : Z) : Pure Q :=
  if d =? 0 then Exc ZeroDivisionError
  else
    match nearest_double (inject_Z n / inject_Z d)%Q with
    | Some x => Val x
    | None => Exc OverflowError
    end.

(** ** Display widths and the lines of the table *)

(** A Python string as the list of its code points; [codes] gives the one of
    a string of the embedding. *)
Definition pystr : Type := list N.

Definition codes (s : string) : pystr :=
  map N_of_ascii (list_ascii_of_string s).

(** The categories of [unicodedata.east_asian_width]. *)
Inductive east_asian : Type :=
| EA_F | EA_W | EA_Na | EA_H | EA_A | EA_N.

(** [sum(...)] of integers, and [max(..., default=d)]. *)
Definition py_sum (l : list Z) : Z := fold_left Z.add l 0.

Definition py_max (l : list Z) (default : Z) : Z :=
  match l with
  | [] => default
  | x :: l' => fold_left Z.max l' x
  end.

(** [len(s)], [" " * n] and [s.rjust(width)]. *)
Definition py_strlen (s : pystr) : Z := Z.of_nat (List.length s).

Definition spaces (n : Z) : pystr := repeat 32%N (Z.to_nat n).

Definition rjust (s : pystr) (width : Z) : pystr :=
  spaces (width - py_strlen s) ++ s.

Section Widths.

(** [unicodedata.combining] and [unicodedata.east_asian_width]. *)
Variable combining : N -> Z.
Variable east_asian_width : N -> east_asian.

Definition _char_width (ch : N) : Z :=
  if negb (combining ch =? 0) then 0
  else
    match east_asian_width ch with
    | EA_F | EA_W => 2
    | _ => 1
    end.

Definition display_width (s : pystr) : Z := py_sum (map _char_width s).

Definition pad_display (s : pystr) (width : Z) : pystr :=
  let w := display_width s in
  if width <=? w then s else s ++ spaces (width - w).

(** The widths computed by [print_leaderboard] from the names it shows. *)
Definition header_player : pystr := codes "Player".

Definition name_w (names : list pystr) : Z :=
  Z.max (display_width header_player) (py_max (map display_width names) 12).

Definition exhaust_w : Z := Z.max (py_strlen (codes "Exhausts")) 8.
Definition pct_w : Z := Z.max (py_strlen (codes "% Exhaust")) 9.
Definition games_w : Z := Z.max (py_strlen (codes "Games")) 5.

Definition total_line_w (names : list pystr) : Z :=
  name_w names + 2 + exhaust_w + 2 + pct_w + 2 + games_w.

(** ["-" * total_line_w]. *)
Definition rule_line (names : list pystr) : pystr :=
  repeat 45%N (Z.to_nat (total_line_w names)).

(** A line of the table: the padded name and the three right-justified
    cells, two spaces apart.  For a row the cells are [str(ex_cnt)], the
    percentage and [str(total)]. *)
Definition table_line (names : list pystr) (name c1 c2 c3 : pystr) : pystr :=
  pad_display name (name_w names) ++ codes "  "
  ++ rjust c1 exhaust_w ++ codes "  "
  ++ rjust c2 pct_w ++ codes "  "
  ++ rjust c3 games_w.

Definition header_line (names : list pystr) : pystr :=
  table_line names header_player (codes "Exhausts") (codes "% Exhaust")
    (codes "Games").

(** [_char_width(ch)] on what the iteration over a name gives:
    [unicodedata] takes a string of one character, and raises [TypeError] on
    anything else. *)
Definition char_width_of (v : json) : Pure Z :=
  match v with
  | JStr s =>
      match codes s with
      | [ch] => Val (_char_width ch)
      | _ => Exc TypeError
      end
  | _ => Exc TypeError
  end.

(** [sum(_char_width(ch) for ch in ...)], from the left. *)
Fixpoint sum_widths (l : list json) (acc : Z) : Pure Z :=
  match l with
  | [] => Val acc
  | v :: l' =>
      match char_width_of v with
      | Val n => sum_widths l' (acc + n)
      | Exc e => Exc e
      end
  end.

(** [display_width(s)] on the value of a name, whatever it is: it iterates
    it. *)
Definition display_width_of (v : json) : Pure Z :=
  match py_iter v with
  | Val l => sum_widths l 0
  | Exc e => Exc e
  end.

(** [pad_display(s, width)] on the value of a name: the value itself when it
    is wide enough; else [s + " " * (width - w)], which a string only
    allows.  The spaces added to a string are left out. *)
Definition pad_display_of (v : json) (width : Z) : Pure json :=
  match display_width_of v with
  | Exc e => Exc e
  | Val w =>
      if width <=? w then Val v
      else
        match v with
        | JStr s => Val (JStr s)
        | _ => Exc TypeError
        end
  end.

End Widths.

(** ** The world the program runs in *)

Record request := { req_url : url; req_params : option (list (string * Z)) }.

(** What [session.get] meets: [requests.Response] as far as [_get] reads it,
    [json_body] being [None] when [resp.json()] raises. *)
Record Response := {
  status_code : Z;
  retry_after : option string;
  json_body : option json;
  text : string
}.

Inductive Outcome : Type :=
| Transport (kind : string)
| Reply (r : Response).

(** Lines of the two output streams.  Formatted fields are kept apart, and a
    table line keeps its four cells without the alignment padding. *)
Inductive line : Type :=
| Text (s : string)
| ConfigMissing
| FailedToLoad (e : exn)
| NoParticipants
| FoundParticipants (n depth : Z)
| SkippingParticipant (i : Z) (e : exn)
| CountingError (i : Z) (display_name : json) (e : exn)
| PlayerTally (i : Z) (display_name : json) (ex_cnt total : Z)
| NoData
| TableTitle
| TableRule
| TableHeader
| TableRow (name : string) (exhausts : Z) (pct : string) (games : Z).

Inductive event : Type :=
| EvSlot (admitted_at : Z) (waits : list Z)
| EvGet (r : request)
| EvSleep (d : Z)
| EvOut (l : line)
| EvErr (l : line).

(** The clock, the process-wide [RATE_LIMITER], and the remote service: the
    outcome of the [k]-th request of the run and the time that request
    takes. *)
Record World := {
  clock : Limiter.Clock;
  RATE_LIMITER : Limiter.RateLimiter;
  server : nat -> request -> Outcome;
  latency : nat -> N;
  sent : nat
}.

(** A computation: result, new world, and the events it caused, in order. *)
Definition M (A : Type) : Type := World -> Result A * World * list event.

Definition ret {A} (a : A) : M A := fun w => (Ok a, w, []).

Definition raise {A} (e : exn) : M A := fun w => (Raise e, w, []).

Definition bind {A B} (m : M A) (f : A -> M B) : M B :=
  fun w =>
    match m w with
    | (Ok a, w1, t1) =>
        match f a w1 with (r, w2, t2) => (r, w2, t1 ++ t2) end
    | (Raise e, w1, t1) => (Raise e, w1, t1)
    | (Hang, w1, t1) => (Hang, w1, t1)
    end.

Definition lift {A} (r : Pure A) : M A :=
  fun w => (match r with Val a => Ok a | Exc e => Raise e end, w, []).

(** [try: m  except Exception as e: h e]. *)
Definition try_except {A} (m : M A) (h : exn -> M A) : M A :=
  fun w =>
    match m w with
    | (Raise e, w1, t1) =>
        if is_Exception e then
          match h e w1 with (r, w2, t2) => (r, w2, t1 ++ t2) end
        else (Raise e, w1, t1)
    | r => r
    end.

Notation "x <- m ;; k" := (bind m (fun x => k))
  (at level 61, m at next level, right associativity).
Notation "m ;;; k" := (bind m (fun _ => k))
  (at level 61, right associativity).

Definition emit (e : event) : M unit := fun w => (Ok tt, w, [e]).

(** [print(...)] and [print(..., file=sys.stderr)]. *)
Definition print (l : line) : M unit := emit (EvOut l).
Definition print_err (l : line) : M unit := emit (EvErr l).

(** [sys.exit(code)]. *)
Definition sys_exit {A} (code : Z) : M A := raise (SystemExit code).

(** [time.sleep(x)].  The duration is first converted to nanoseconds, which
    is an [OverflowError] beyond [SLEEP_MAX] either way and for an infinity,
    and a [ValueError] for nan; then a negative duration is a
    [ValueError]. *)
Definition time_sleep (x : pyfloat) : M unit :=
  fun w =>
    match x with
    | NaN => (Raise ValueError, w, [])
    | Infinite _ => (Raise OverflowError, w, [])
    | Finite d =>
        if (d <? - SLEEP_MAX) || (SLEEP_MAX <? d) then
          (Raise OverflowError, w, [])
        else if d <? 0 then (Raise ValueError, w, [])
        else (Ok tt,
              {| clock := Limiter.sleep_clock d (clock w);
                 RATE_LIMITER := RATE_LIMITER w;
                 server := server w; latency := latency w;
                 sent := sent w |},
              [EvSleep d])
    end.

(** ** The Riot client *)

Definition EXHAUST_ID : Z := 3.
Definition ARAM_QUEUE_ID : Z := 450.

Record RiotClient := {
  api_key : string;
  platform : string;
  regional : string;
  timeout : Z
}.

(** [range(1, max_retries + 1)]. *)
Definition attempts_range (max_retries : Z) : list Z :=
  map Z.of_nat (seq 1 (Z.to_nat max_retries)).

(** [resp.ok]: the status is neither a 4xx nor a 5xx. *)
Definition resp_ok (resp : Response) : bool :=
  negb ((400 <=? status_code resp) && (status_code resp <? 600)).

(** The [err] of the failure message: the decoded body, or the raw text under
    [status.message]. *)
Definition error_body (resp : Response) : json :=
  match json_body resp with
  | Some j => j
  | None => JObj [("status"%string,
                   JObj [("message"%string, JStr (text resp))])]
  end.

Section Program.

(** Iterations allowed to the limiter's loop. *)
Variable fuel : nat.

(** Python's [float] on a header value, a finite value being in
    milliseconds; [None] is its [ValueError]. *)
Variable float : string -> option pyfloat.

(** Python's [str] of a value that is not a string, and the rendering
    [f"{(n / d) * 100:.0f}%"] of a ratio. *)
Variable repr : json -> string.
Variable percent : Z -> Z -> string.

(** [unicodedata.combining] and [unicodedata.east_asian_width]. *)
Variable combining : N -> Z.
Variable east_asian_width : N -> east_asian.

(** [RATE_LIMITER.wait_for_slot()]. *)
Definition RATE_LIMITER_wait_for_slot : M unit :=
  fun w =>
    match Limiter.wait_for_slot Limiter.module_config fuel
            (RATE_LIMITER w) (clock w) with
    | None => (Hang, w, [])
    | Some (rl, c, s) =>
        (Ok tt,
         {| clock := c; RATE_LIMITER := rl;
            server := server w; latency := latency w; sent := sent w |},
         [EvSlot (Limiter.now c) s])
    end.

(** [self.session.get(url, params=params, timeout=self.timeout)]: the
    request takes its time, then the response is there, or the exception. *)
Definition session_get (r : request) : M Response :=
  fun w =>
    let w' := {| clock := Limiter.elapse (latency w (sent w)) (clock w);
                 RATE_LIMITER := RATE_LIMITER w;
                 server := server w; latency := latency w;
                 sent := S (sent w) |} in
    match server w (sent w) r with
    | Transport kind => (Raise (RequestException kind), w', [EvGet r])
    | Reply resp => (Ok resp, w', [EvGet r])
    end.

(** The sleep of a 429:
    [float(ra) if ra else max(1.0, backoff_sec * attempt * 5)]. *)
Definition sleep_429 (resp : Response) (backoff_sec attempt : Z)
    : Pure pyfloat :=
  match retry_after resp with
  | Some ra =>
      if negb (String.eqb ra "") then
        match float ra with Some x => Val x | None => Exc ValueError end
      else Val (Finite (Z.max 1000 (backoff_sec * attempt * 5)))
  | None => Val (Finite (Z.max 1000 (backoff_sec * attempt * 5)))
  end.

(** The body of [for attempt in range(1, max_retries + 1)] with the
    statement after the loop. *)
Fixpoint _get_attempts (u : url) (params : option (list (string * Z)))
    (backoff_sec : Z) (attempts : list Z) : M json :=
  match attempts with
  | [] => raise (RuntimeError (RetriesExhausted u))
  | attempt :: rest =>
      RATE_LIMITER_wait_for_slot ;;;
      resp <- session_get {| req_url := u; req_params := params |} ;;
      if status_code resp =? 429 then
        sleep_for <- lift (sleep_429 resp backoff_sec attempt) ;;
        time_sleep sleep_for ;;;
        _get_attempts u params backoff_sec rest
      else if (500 <=? status_code resp) && (status_code resp <? 600) then
        time_sleep (Finite (backoff_sec * attempt)) ;;;
        _get_attempts u params backoff_sec rest
      else if resp_ok resp then
        ret (match json_body resp with Some j => j | None => JObj [] end)
      else
        raise (RuntimeError
                 (GetFailed u (status_code resp) (error_body resp)))
  end.

(** [RiotClient._get]. *)
Definition _get (self : RiotClient) (u : url)
    (params : option (list (string * Z))) (max_retries backoff_sec : Z)
    : M json :=
  _get_attempts u params backoff_sec (attempts_range max_retries).

(** The default arguments [max_retries=3, backoff_sec=1.0]. *)
Definition get (self : RiotClient) (u : url)
    (params : option (list (string * Z))) : M json :=
  _get self u params 3 1000.

Definition account_by_riot_id (self : RiotClient) (gameName tagLine : string)
    : M json :=
  get self (AccountByRiotId (regional self) gameName tagLine) None.

Definition summoner_by_id (self : RiotClient) (encrypted_summoner_id : json)
    : M json :=
  get self (SummonerById (platform self) encrypted_summoner_id) None.

Definition active_game_by_summoner_id (self : RiotClient)
    (encrypted_or_puuid : json) : M json :=
  get self (ActiveGameBySummoner (platform self) encrypted_or_puuid) None.

Definition match_ids_by_puuid (self : RiotClient) (puuid : json)
    (count : Z) (queue : option Z) (start : Z) : M json :=
  let params := [("start"%string, start); ("count"%string, count)] in
  let params :=
    match queue with
    | Some q => params ++ [("queue"%string, q)]
    | None => params
    end in
  get self (MatchIdsByPuuid (regional self) puuid) (Some params).

Definition match_by_id (self : RiotClient) (match_id : json) : M json :=
  get self (MatchById (regional self) match_id) None.

(** *** Core logic *)

Definition get_live_participants_via_puuid_only (client : RiotClient)
    (riot_name tag : string) : M json :=
  account <- account_by_riot_id client riot_name tag ;;
  puuid <- lift (py_get account "puuid" JNull) ;;
  if negb (truthy puuid) then
    raise (RuntimeError (NoPuuidInAccount account))
  else
    game <- active_game_by_summoner_id client puuid ;;
    lift (py_get game "participants" (JList [])).

Definition Unknown : json := JStr "Unknown".

Definition ensure_puuid (client : RiotClient) (participant : json)
    : M (json * json) :=
  puuid <- lift (py_get participant "puuid" JNull) ;;
  riotId <- lift (py_get participant "riotId" JNull) ;;
  summonerName <- lift (py_get participant "summonerName" JNull) ;;
  let display_name := py_or (py_or riotId summonerName) Unknown in
  if truthy puuid then ret (puuid, display_name)
  else
    summonerId <- lift (py_get participant "summonerId" JNull) ;;
    encryptedSummonerId <-
      lift (py_get participant "encryptedSummonerId" JNull) ;;
    id <- lift (py_get participant "id" JNull) ;;
    let enc_id := py_or (py_or summonerId encryptedSummonerId) id in
    if negb (truthy enc_id) then
      raise (RuntimeError ParticipantMissingIds)
    else
      summ <- summoner_by_id client enc_id ;;
      puuid <- lift (py_getitem summ "puuid") ;;
      if py_eq display_name Unknown then
        name <- lift (py_get summ "name" Unknown) ;;
        ret (puuid, name)
      else ret (puuid, display_name).

(** [next((p for p in participants if p.get("puuid") == puuid), None)]. *)
Fixpoint find_me (puuid : json) (participants : list json)
    : Pure (option json) :=
  match participants with
  | [] => Val None
  | p :: rest =>
      match py_get p "puuid" JNull with
      | Val v => if py_eq v puuid then Val (Some p) else find_me puuid rest
      | Exc e => Exc e
      end
  end.

(** The body of [for mid in match_ids] with the final [return]. *)
Fixpoint count_matches (client : RiotClient) (puuid : json)
    (match_ids : list json) (exhaust_count total : Z) : M (Z * Z) :=
  match match_ids with
  | [] => ret (exhaust_count, total)
  | mid :: rest =>
      data <- match_by_id client mid ;;
      info <- lift (py_get data "info" (JObj [])) ;;
      participants <- lift (py_get info "participants" (JList [])) ;;
      ps <- lift (py_iter participants) ;;
      me <- lift (find_me puuid ps) ;;
      match me with
      | None => count_matches client puuid rest exhaust_count total
      | Some me =>
          if negb (truthy me) then
            count_matches client puuid rest exhaust_count total
          else
            s1 <- lift (py_get me "summoner1Id" JNull) ;;
            s2 <- lift (py_get me "summoner2Id" JNull) ;;
            let exhaust_count :=
              if py_eq s1 (JNum EXHAUST_ID) || py_eq s2 (JNum EXHAUST_ID)
              then exhaust_count + 1 else exhaust_count in
            count_matches client puuid rest exhaust_count (total + 1)
      end
  end.

Definition count_exhaust_for_player (client : RiotClient) (puuid : json)
    (max_matches : Z) : M (Z * Z) :=
  match_ids <-
    match_ids_by_puuid client puuid max_matches (Some ARAM_QUEUE_ID) 0 ;;
  if negb (truthy match_ids) then ret (0, 0)
  else
    mids <- lift (py_iter match_ids) ;;
    count_matches client puuid mids 0 0.


(** [format_pct]. *)
Definition format_pct (n d : Z) : string :=
  if d <=? 0 then "—" else percent n d.

(** A row of the tally: [(display_name, exhaust_count, total_tracked)]. *)
Definition row : Type := (json * Z * Z)%type.

(** [(r[1] / r[2]) if r[2] else 0.0]: a float. *)
Definition ratio (r : row) : Pure Q :=
  let '(_, ex_cnt, total) := r in
  if total =? 0 then Val 0%Q else py_truediv ex_cnt total.

(** The keys of the rows, computed one after the other before the sort. *)
Fixpoint keys_of (rows : list row) : Pure (list (Z * Q)) :=
  match rows with
  | [] => Val []
  | r :: rows' =>
      match ratio r with
      | Exc e => Exc e
      | Val q =>
          match keys_of rows' with
          | Exc e => Exc e
          | Val ks => Val ((snd (fst r), q) :: ks)
          end
      end
  end.

(** The ratio in the key of a row, once the keys are computed. *)
Definition key_ratio (r : row) : Q :=
  match ratio r with Val q => q | Exc _ => 0%Q end.

(** The order of the sort keys [(r[1], ratio)], compared as tuples. *)
Definition key_lt (a b : row) : bool :=
  let '(_, ca, _) := a in
  let '(_, cb, _) := b in
  (ca <? cb) || ((ca =? cb) && negb (Qle_bool (key_ratio b) (key_ratio a))).

(** The sort itself: descending, and rows of equal key keep their order. *)
Fixpoint insert_desc (x : row) (l : list row) : list row :=
  match l with
  | [] => [x]
  | y :: l' => if key_lt x y then y :: insert_desc x l' else x :: l
  end.

Fixpoint sorted_desc (rows : list row) : list row :=
  match rows with
  | [] => []
  | x :: rows' => insert_desc x (sorted_desc rows')
  end.

(** [sorted(rows, key=..., reverse=True)]. *)
Definition py_sorted (rows : list row) : Pure (list row) :=
  match keys_of rows with
  | Val _ => Val (sorted_desc rows)
  | Exc e => Exc e
  end.

(** [str(v)] as an f-string formats it. *)
Definition py_str (v : json) : string :=
  match v with
  | JStr s => s
  | _ => repr v
  end.

(** The loop over [enumerate(sorted_rows)]. *)
Fixpoint mark_winner (i : Z) (sorted_rows : list row) : list row :=
  match sorted_rows with
  | [] => []
  | (name, ex_cnt, total) :: rest =>
      ((if i =? 0 then JStr ("WINNER: " ++ py_str name) else name),
       ex_cnt, total) :: mark_winner (i + 1) rest
  end.

(** [display_width(r[0]) for r in display_rows], for [name_w]. *)
Fixpoint names_measured (display_rows : list row) : Pure (list Z) :=
  match display_rows with
  | [] => Val []
  | (name, _, _) :: rest =>
      match display_width_of combining east_asian_width name with
      | Exc e => Exc e
      | Val w =>
          match names_measured rest with
          | Val l => Val (w :: l)
          | Exc e => Exc e
          end
      end
  end.

(** The loop over [display_rows] that prints the rows. *)
Fixpoint print_rows (name_w : Z) (display_rows : list row) : M unit :=
  match display_rows with
  | [] => ret tt
  | (name, ex_cnt, total) :: rest =>
      let pct := format_pct ex_cnt total in
      cell <- lift (pad_display_of combining east_asian_width name name_w) ;;
      print (TableRow (py_str cell) ex_cnt pct total) ;;;
      print_rows name_w rest
  end.

Definition print_leaderboard (rows : list row) : M unit :=
  sorted_rows <- lift (py_sorted rows) ;;
  let display_rows := mark_winner 0 sorted_rows in
  widths <- lift (names_measured display_rows) ;;
  let name_w :=
    Z.max (display_width combining east_asian_width header_player)
          (py_max widths 12) in
  print TableTitle ;;;
  print TableRule ;;;
  print TableHeader ;;;
  print TableRule ;;;
  print_rows name_w display_rows ;;;
  print TableRule.

(** The hard-coded CONFIG block. *)
Record Settings := {
  API_KEY : string;
  PLATFORM : string;
  REGIONAL : string;
  RIOT_NAME : string;
  RIOT_TAG : string;
  MAX_MATCHES_PER_PLAYER : Z;
  SLEEP_BETWEEN_PLAYERS : Z
}.

Definition module_settings : Settings :=
  {| API_KEY := "YOUR-API-KEY-HERE"; PLATFORM := "na1";
     REGIONAL := "americas"; RIOT_NAME := "YOUR-IGN-HERE";
     RIOT_TAG := "YOUR-TAG-HERE"; MAX_MATCHES_PER_PLAYER := 20;
     SLEEP_BETWEEN_PLAYERS := 50 |}.

(** The body of [for i, p in enumerate(participants, 1)] of [run], returning
    the final [rows]. *)
Fixpoint scan_players (cfg : Settings) (client : RiotClient)
    (participants : list json) (i : Z) (rows : list row) : M (list row) :=
  match participants with
  | [] => ret rows
  | p :: rest =>
      resolved <-
        try_except (x <- ensure_puuid client p ;; ret (Some x))
          (fun e => print_err (SkippingParticipant i e) ;;; ret None) ;;
      match resolved with
      | None => scan_players cfg client rest (i + 1) rows
      | Some (puuid, display_name) =>
          counted <-
            try_except
              (x <- count_exhaust_for_player client puuid
                      (MAX_MATCHES_PER_PLAYER cfg) ;;
               ret (Some x))
              (fun e =>
                 print_err (CountingError i display_name e) ;;; ret None) ;;
          match counted with
          | None => scan_players cfg client rest (i + 1) rows
          | Some (ex_cnt, total) =>
              print (PlayerTally i display_name ex_cnt total) ;;;
              time_sleep (Finite (SLEEP_BETWEEN_PLAYERS cfg)) ;;;
              scan_players cfg client rest (i + 1)
                (rows ++ [(display_name, ex_cnt, total)])
          end
      end
  end.

(** The end of [run]: the report. *)
Definition report (rows : list row) : M unit :=
  match rows with
  | [] => print NoData
  | _ => print_leaderboard rows
  end.

(** [run] from [rows = []] on: the loop over the participants and the
    report. *)
Definition scan_and_report (cfg : Settings) (client : RiotClient)
    (participants : list json) : M unit :=
  rows <- scan_players cfg client participants 1 [] ;;
  report rows.

Definition run (cfg : Settings) : M unit :=
  if String.eqb (API_KEY cfg) "" || String.prefix "PUT_" (API_KEY cfg) then
    print_err ConfigMissing ;;; sys_exit 1
  else
    let client := {| api_key := API_KEY cfg; platform := PLATFORM cfg;
                     regional := REGIONAL cfg; timeout := 8000 |} in
    participants <-
      try_except
        (get_live_participants_via_puuid_only client (RIOT_NAME cfg)
           (RIOT_TAG cfg))
        (fun e => print_err (FailedToLoad e) ;;; sys_exit 2) ;;
    if negb (truthy participants) then
      print_err NoParticipants ;;; sys_exit 3
    else
      n <- lift (py_len participants) ;;
      print (FoundParticipants n (MAX_MATCHES_PER_PLAYER cfg)) ;;;
      ps <- lift (py_iter participants) ;;
      scan_and_report cfg client ps.

End Program.


(** ** Vocabulary of the properties *)

Definition result_of {A} (x : Result A * World * list event) : Result A :=
  fst (fst x).
Definition world_of {A} (x : Result A * World * list event) : World :=
  snd (fst x).
Definition events_of {A} (x : Result A * World * list event) : list event :=
  snd x.

(** The outcome [x] with the events [evs] before its own. *)
Definition after {A} (evs : list event) (x : Result A * World * list event)
    : Result A * World * list event :=
  (result_of x, world_of x, evs ++ events_of x).

(** The limiter has never admitted beyond its limits; every world reached
    from a fresh [RATE_LIMITER] is such. *)
Definition world_ok (w : World) : Prop :=
  Limiter.within_limits Limiter.module_config (RATE_LIMITER w).

Definition is_slot (e : event) : bool :=
  match e with EvSlot _ _ => true | _ => false end.
Definition is_get (e : event) : bool :=
  match e with EvGet _ => true | _ => false end.
Definition is_output (e : event) : bool :=
  match e with EvOut _ | EvErr _ => true | _ => false end.

(** Limiter admissions and requests among the events. *)
Definition slots (evs : list event) : nat := List.length (filter is_slot evs).
Definition gets (evs : list event) : nat := List.length (filter is_get evs).

(** The durations of the client's own [time.sleep] calls. *)
Definition sleeps_of (evs : list event) : list Z :=
  flat_map (fun e => match e with EvSleep d => [d] | _ => [] end) evs.

(** The lines written to standard output and to standard error. *)
Definition outs_of (evs : list event) : list line :=
  flat_map (fun e => match e with EvOut l => [l] | _ => [] end) evs.
Definition errs_of (evs : list event) : list line :=
  flat_map (fun e => match e with EvErr l => [l] | _ => [] end) evs.

(** A computation of the client or of the core logic: from a world within
    limits it ends, leaves the world within limits, raises no [SystemExit]
    and writes nothing. *)
Definition sound {A} (m : M A) : Prop :=
  forall w, world_ok w ->
    world_ok (world_of (m w)) /\
    match result_of (m w) with
    | Ok _ => True
    | Raise e => is_Exception e = true
    | Hang => False
    end /\
    outs_of (events_of (m w)) = [] /\
    errs_of (events_of (m w)) = [].

(** The exceptions that leave [_get]. *)
Definition get_raises (e : exn) : Prop :=
  match e with
  | RuntimeError (GetFailed _ _ _) => True
  | RuntimeError (RetriesExhausted _) => True
  | RequestException _ => True
  | ValueError => True
  | OverflowError => True
  | _ => False
  end.

(** How a call of [_get] ends from a world within limits. *)
Definition get_outcome (x : Result json * World * list event) : Prop :=
  world_ok (world_of x) /\
  match result_of x with
  | Ok _ => True
  | Raise e => get_raises e
  | Hang => False
  end /\
  outs_of (events_of x) = [] /\
  errs_of (events_of x) = [] /\
  slots (events_of x) = gets (events_of x).

(** A call that started in world [w0] has sent [n] requests at most, all of
    them [r], one slot of the limiter each, and the world counts them. *)
Definition request_budget (r : request) (n : nat) (w0 : World)
    (x : Result json * World * list event) : Prop :=
  (gets (events_of x) <= n)%nat /\
  slots (events_of x) = gets (events_of x) /\
  sent (world_of x) = (sent w0 + gets (events_of x))%nat /\
  server (world_of x) = server w0 /\
  Forall (fun e => is_get e = true -> e = EvGet r) (events_of x).

(** A world at time 0 with a fresh limiter, facing the service [srv], whose
    answers come at once; and one where the [k]-th request takes
    [40 * (k + 1)] milliseconds and every sleep lasts 3 ms too long. *)
Definition fresh_world (srv : nat -> request -> Outcome) : World :=
  {| clock := {| Limiter.now := 0; Limiter.lag := [] |};
     RATE_LIMITER := Limiter.init; server := srv;
     latency := fun _ => 0%N; sent := 0 |}.

Definition slow_world (srv : nat -> request -> Outcome) : World :=
  {| clock := {| Limiter.now := 0; Limiter.lag := repeat 3%N 40 |};
     RATE_LIMITER := Limiter.init; server := srv;
     latency := fun k => (40 * (N.of_nat k + 1))%N; sent := 0 |}.

Definition reply (status : Z) (ra : option string) (body : option json)
    : Outcome :=
  Reply {| status_code := status; retry_after := ra; json_body := body;
           text := "" |}.

(** A service that answers the [k]-th request with the [k]-th outcome of a
    script, and with [last] once the script is over. *)
Definition scripted (script : list Outcome) (last : Outcome)
    : nat -> request -> Outcome :=
  fun k _ => nth k script last.

(** Python's [float] on the unsigned decimal integers, as milliseconds. *)
Definition digit (c : ascii) : option Z :=
  let n := Z.of_nat (nat_of_ascii c) in
  if (48 <=? n) && (n <=? 57) then Some (n - 48) else None.

Fixpoint read_digits (acc : Z) (s : string) : option Z :=
  match s with
  | EmptyString => Some acc
  | String c s' =>
      match digit c with
      | Some d => read_digits (acc * 10 + d) s'
      | None => None
      end
  end.

Definition float_of_integer (s : string) : option pyfloat :=
  match s with
  | EmptyString => None
  | _ => option_map (fun n => Finite (1000 * n)) (read_digits 0 s)
  end.

(** The account endpoint, the request of the examples. *)
Definition example_url : url := AccountByRiotId "americas" "name" "tag".
Definition example_request : request :=
  {| req_url := example_url; req_params := None |}.
Definition example_client : RiotClient :=
  {| api_key := "key"; platform := "na1"; regional := "americas";
     timeout := 8000 |}.

(** A service whose first answer is a read timeout and which answers 200
    from then on; one that always answers 503; one that always answers 404
    with a body that does not decode; one that answers 429 with
    [Retry-After: 2]; one that answers 429 without the header. *)
Definition timeout_then_ok : nat -> request -> Outcome :=
  scripted [Transport "ReadTimeout"] (reply 200 None (Some (JObj []))).
Definition always_503 : nat -> request -> Outcome :=
  scripted [] (reply 503 None None).
Definition always_404 : nat -> request -> Outcome :=
  scripted [] (reply 404 None None).
Definition always_429_after_2 : nat -> request -> Outcome :=
  scripted [] (reply 429 (Some "2"%string) None).
Definition always_429_bare : nat -> request -> Outcome :=
  scripted [] (reply 429 None None).

(** A pure expression raises no [SystemExit]. *)
Definition raises_Exception {A} (r : Pure A) : Prop :=
  match r with
  | Val _ => True
  | Exc e => is_Exception e = true
  end.

(** A match record with the given participant entries. *)
Definition match_record (entries : list json) : json :=
  JObj [("info"%string, JObj [("participants"%string, JList entries)])].

Definition entry (puuid : string) (s1 s2 : Z) : json :=
  JObj [("puuid"%string, JStr puuid);
        ("summoner1Id"%string, JNum s1); ("summoner2Id"%string, JNum s2)].

Definition json_is (v : json) (s : string) : bool :=
  match v with JStr s' => String.eqb s' s | _ => false end.

(** A service of the examples.  Player [p1] has three recent matches: he
    took Exhaust in [m1], not in [m2], and is not in [m3]; player [p2] has
    none; the match list of anyone else is a 404; the summoner [s9] is
    player [p2], named Nine. *)
Definition example_service : nat -> request -> Outcome :=
  fun _ r =>
    match req_url r with
    | MatchIdsByPuuid _ p =>
        if json_is p "p1" then
          reply 200 None (Some (JList [JStr "m1"; JStr "m2"; JStr "m3"]))
        else if json_is p "p2" then reply 200 None (Some (JList []))
        else reply 404 None None
    | MatchById _ m =>
        if json_is m "m1" then
          reply 200 None
            (Some (match_record [entry "p7" 4 7; entry "p1" 3 4]))
        else if json_is m "m2" then
          reply 200 None
            (Some (match_record [entry "p1" 4 7; entry "p7" 3 4]))
        else reply 200 None (Some (match_record [entry "p7" 3 4]))
    | SummonerById _ i =>
        if json_is i "s9" then
          reply 200 None
            (Some (JObj [("puuid"%string, JStr "p2");
                         ("name"%string, JStr "Nine")]))
        else reply 404 None None
    | _ => reply 404 None None
    end.

(** Five participant records: two with a puuid and a name, one whose match
    list fails, one known by a legacy identifier only, one with nothing. *)
Definition alpha : list (string * json) :=
  [("puuid"%string, JStr "p1"); ("riotId"%string, JStr "Alpha#1")].
Definition beta : list (string * json) :=
  [("puuid"%string, JStr "p2"); ("riotId"%string, JStr "");
   ("summonerName"%string, JStr "Beta")].
Definition gamma : list (string * json) :=
  [("puuid"%string, JStr "p3"); ("riotId"%string, JStr "Gamma#3")].
Definition delta : list (string * json) :=
  [("puuid"%string, JStr ""); ("riotId"%string, JStr "");
   ("summonerId"%string, JStr ""); ("id"%string, JStr "s9")].
Definition nobody : list (string * json) :=
  [("puuid"%string, JNull); ("summonerId"%string, JNum 0)].

Definition five_participants : list json :=
  [JObj alpha; JObj beta; JObj gamma; JObj delta; JObj nobody].

(** Stand-ins for [str] on other values and for the percentage. *)
Definition example_repr (v : json) : string := "?".
Definition example_percent (n d : Z) : string := "n/d%".

(** Services that answer 429 with a [Retry-After] that is a date, that is
    negative, and that is empty. *)
Definition always_429_date : nat -> request -> Outcome :=
  scripted [] (reply 429 (Some "Wed, 21 Oct 2015 07:28:00 GMT"%string) None).
Definition always_429_negative : nat -> request -> Outcome :=
  scripted [] (reply 429 (Some "-1"%string) None).
Definition always_429_empty : nat -> request -> Outcome :=
  scripted [] (reply 429 (Some ""%string) None).

(** Services that answer 429 once, with a [Retry-After] that is a date, an
    infinity, nan, or ten thousand million seconds either way, and 200 from
    then on. *)
Definition once_429 (ra : string) : nat -> request -> Outcome :=
  scripted [reply 429 (Some ra) None] (reply 200 None (Some (JObj []))).

(** Python's [float] on the decimal integers with an optional minus sign, as
    milliseconds, and on [inf], [-inf] and [nan]. *)
Definition float_of_signed (s : string) : option pyfloat :=
  if String.eqb s "inf" then Some (Infinite false)
  else if String.eqb s "-inf" then Some (Infinite true)
  else if String.eqb s "nan" then Some NaN
  else
    match s with
    | String "-" s' =>
        match s' with
        | EmptyString => None
        | _ => option_map (fun n => Finite (- (1000 * n))) (read_digits 0 s')
        end
    | _ => float_of_integer s
    end.

(** The service of the examples with a live game: the account has puuid
    [p0], and its live game has the five participants. *)
Definition live_service : nat -> request -> Outcome :=
  fun k r =>
    match req_url r with
    | AccountByRiotId _ _ _ =>
        reply 200 None (Some (JObj [("puuid"%string, JStr "p0")]))
    | ActiveGameBySummoner _ p =>
        if json_is p "p0" then
          reply 200 None
            (Some (JObj [("gameId"%string, JNum 1);
                         ("participants"%string, JList five_participants)]))
        else reply 404 None None
    | _ => example_service k r
    end.

(** Services answering every request with a 200: without a body that
    decodes; with an empty dict; with an empty list; with a summoner that
    has a name only.  And one whose account has a puuid but whose live game
    answer has no participants. *)
Definition always_undecodable : nat -> request -> Outcome :=
  scripted [] (reply 200 None None).
Definition always_empty_dict : nat -> request -> Outcome :=
  scripted [] (reply 200 None (Some (JObj []))).
Definition always_empty_list : nat -> request -> Outcome :=
  scripted [] (reply 200 None (Some (JList []))).
Definition always_nameless : nat -> request -> Outcome :=
  scripted [] (reply 200 None (Some (JObj [("name"%string, JStr "x")]))).
Definition account_without_game : nat -> request -> Outcome :=
  scripted [reply 200 None (Some (JObj [("puuid"%string, JStr "p0")]))]
    (reply 200 None None).

(** The settings of the module without an API key. *)
Definition settings_without_key : Settings :=
  {| API_KEY := ""; PLATFORM := "na1"; REGIONAL := "americas";
     RIOT_NAME := "YOUR-IGN-HERE"; RIOT_TAG := "YOUR-TAG-HERE";
     MAX_MATCHES_PER_PLAYER := 20; SLEEP_BETWEEN_PLAYERS := 50 |}.

(** The instants of the slots taken from the limiter, in order. *)
Definition slot_times (evs : list event) : list Z :=
  flat_map (fun e => match e with EvSlot t _ => [t] | _ => [] end) evs.

(** Every request comes right after a slot, and every slot is used at once
    by a request. *)
Fixpoint paired (evs : list event) : bool :=
  match evs with
  | [] => true
  | EvSlot _ _ :: rest =>
      match rest with
      | EvGet _ :: rest' => paired rest'
      | _ => false
      end
  | EvGet _ :: _ => false
  | _ :: rest => paired rest
  end.

(** The limiter of world [w] accounts for the slots [adm] taken so far. *)
Definition accounts_for (w : World) (adm : list Z) : Prop :=
  Limiter.tracks Limiter.module_config (Limiter.now (clock w))
    (RATE_LIMITER w) adm.

(** A computation that goes through the limiter for each of its requests:
    the limiter accounts for the slots it takes, on top of those taken
    before, and the clock does not go back. *)
Definition paced {A} (m : M A) : Prop :=
  forall w adm,
    accounts_for w adm ->
    accounts_for (world_of (m w)) (adm ++ slot_times (events_of (m w))) /\
    paired (events_of (m w)) = true.

(** The API key is set: what [run] checks first. *)
Definition key_set (cfg : Settings) : bool :=
  negb (String.eqb (API_KEY cfg) "" || String.prefix "PUT_" (API_KEY cfg)).

(** The client [run] builds from the settings. *)
Definition client_of (cfg : Settings) : RiotClient :=
  {| api_key := API_KEY cfg; platform := PLATFORM cfg;
     regional := REGIONAL cfg; timeout := 8000 |}.

(** Every character of [s] is one column wide. *)
Definition narrow (char_width : N -> Z) (s : pystr) : Prop :=
  Forall (fun ch => char_width ch = 1) s.

(** Stand-ins for [unicodedata]: the combining diacritical marks combine,
    the CJK unified ideographs are wide, all else is narrow. *)
Definition example_combining (ch : N) : Z :=
  if ((768 <=? ch) && (ch <=? 879))%N then 230 else 0.
Definition example_east_asian_width (ch : N) : east_asian :=
  if ((19968 <=? ch) && (ch <=? 40959))%N then EA_W else EA_Na.

(** Row [r] has the sort key of row [k]. *)
Definition same_key (k r : row) : bool :=
  negb (key_lt k r) && negb (key_lt r k).

(** The first usable value, in the order given. *)
Definition first_usable (candidates : list json) : option json :=
  find truthy candidates.

(** The dict without the key [k]. *)
Fixpoint without (k : string) (kv : list (string * json))
    : list (string * json) :=
  match kv with
  | [] => []
  | (k', v) :: kv' =>
      if String.eqb k k' then without k kv' else (k', v) :: without k kv'
  end.

(** The value under [k], [None] when absent. *)
Definition field (k : string) (kv : list (string * json)) : json :=
  match lookup k kv with Some v => v | None => JNull end.

(** The display name the record itself gives: its [riotId] if usable, else
    its [summonerName] if usable, else the fallback ["Unknown"]. *)
Definition record_name (kv : list (string * json)) : json :=
  match first_usable [field "riotId" kv; field "summonerName" kv] with
  | Some name => name
  | None => Unknown
  end.

(** The legacy identifier of the record: the first usable field among
    [summonerId], [encryptedSummonerId], [id]. *)
Definition legacy_id (kv : list (string * json)) : option json :=
  first_usable [field "summonerId" kv; field "encryptedSummonerId" kv;
                field "id" kv].

(** The name of the summoner lookup's answer, ["Unknown"] without one. *)
Definition summoner_name (summ : list (string * json)) : json :=
  match lookup "name" summ with Some v => v | None => Unknown end.

(** The participant entries of a match record. *)
Definition participants_of (data : json) : list json :=
  match data with
  | JObj kv =>
      match lookup "info" kv with
      | Some (JObj info) =>
          match lookup "participants" info with
          | Some (JList l) => l
          | _ => []
          end
      | _ => []
      end
  | _ => []
  end.

(** The entry carries this player's identifier. *)
Definition is_player (puuid : string) (p : json) : bool :=
  match p with
  | JObj kv =>
      match lookup "puuid" kv with
      | Some (JStr s) => String.eqb s puuid
      | _ => false
      end
  | _ => false
  end.

(** The player's entry in a match record, when there is one. *)
Definition entry_of (puuid : string) (data : json) : option json :=
  find (is_player puuid) (participants_of data).

(** One of the entry's two summoner spells is Exhaust. *)
Definition took_exhaust (p : json) : bool :=
  match p with
  | JObj kv =>
      py_eq (field "summoner1Id" kv) (JNum EXHAUST_ID)
      || py_eq (field "summoner2Id" kv) (JNum EXHAUST_ID)
  | _ => false
  end.

Definition examined_in (puuid : string) (datas : list json) : Z :=
  Z.of_nat (List.length
    (filter (fun d => match entry_of puuid d with
                      | Some _ => true | None => false end) datas)).

Definition used_in (puuid : string) (datas : list json) : Z :=
  Z.of_nat (List.length
    (filter (fun d => match entry_of puuid d with
                      | Some p => took_exhaust p | None => false end) datas)).

(** Row [a] may stand before row [b]: more Exhausts, or as many and a ratio
    count/games at least as high, in exact arithmetic, the ratio of a row
    without games being 0. *)
Definition ranks_before (a b : row) : Prop :=
  let '(_, ca, ta) := a in
  let '(_, cb, tb) := b in
  cb < ca \/
  (ca = cb /\
   ((if tb =? 0 then 0 else inject_Z cb / inject_Z tb)
    <= (if ta =? 0 then 0 else inject_Z ca / inject_Z ta))%Q).

(** The counts of a row are moderate: a count below [2^1023], games up to
    [2^52]. *)
Definition moderate (r : row) : Prop :=
  let '(_, ex_cnt, total) := r in
  0 <= ex_cnt < 2 ^ 1023 /\ 0 <= total <= 2 ^ 52.

(** The counts of a row are those of a tally. *)
Definition tallied (r : row) : Prop :=
  let '(_, ex_cnt, total) := r in 0 <= ex_cnt <= total.

(** A duration [time.sleep] takes. *)
Definition sleepable (d : Z) : Prop := 0 <= d <= SLEEP_MAX.

(** A row whose name is a string. *)
Definition named (r : string * Z * Z) : row :=
  let '(name, ex_cnt, total) := r in (JStr name, ex_cnt, total).

Section Vocabulary.

Variable fuel : nat.
Variable float : string -> option pyfloat.
Variable repr : json -> string.
Variable percent : Z -> Z -> string.
Variable combining : N -> Z.
Variable east_asian_width : N -> east_asian.

(** The sleep after which [_get] goes to its next attempt, when the response
    is one it retries: a 429 or a 5xx. *)
Definition retry_delay (resp : Response) (backoff_sec attempt : Z)
    : option Z :=
  if status_code resp =? 429 then
    match sleep_429 float resp backoff_sec attempt with
    | Val (Finite d) =>
        if (0 <=? d) && (d <=? SLEEP_MAX) then Some d else None
    | _ => None
    end
  else if (500 <=? status_code resp) && (status_code resp <? 600) then
    if (0 <=? backoff_sec * attempt) && (backoff_sec * attempt <=? SLEEP_MAX)
    then Some (backoff_sec * attempt) else None
  else None.


(** What follows the response of an attempt in [_get]. *)
Definition dispatch (u : url) (params : option (list (string * Z)))
    (backoff_sec : Z) (resp : Response) (attempt : Z) (rest : list Z)
    : M json :=
  if status_code resp =? 429 then
    sleep_for <- lift (sleep_429 float resp backoff_sec attempt) ;;
    time_sleep sleep_for ;;;
    _get_attempts fuel float u params backoff_sec rest
  else if (500 <=? status_code resp) && (status_code resp <? 600) then
    time_sleep (Finite (backoff_sec * attempt)) ;;;
    _get_attempts fuel float u params backoff_sec rest
  else if resp_ok resp then
    ret (match json_body resp with Some j => j | None => JObj [] end)
  else
    raise (RuntimeError (GetFailed u (status_code resp) (error_body resp))).

(** C3 as the specification states it: after a transport failure of the
    first attempt a further attempt is made. *)
Definition transport_failure_retried : Prop :=
  forall self u params w kind,
    world_ok w ->
    server w (sent w) {| req_url := u; req_params := params |}
      = Transport kind ->
    (2 <= gets (events_of (_get fuel float self u params 3 1000 w)))%nat.

(** The match records fetched for the ids, in order. *)
Fixpoint fetch_all (client : RiotClient) (match_ids : list json)
    : M (list json) :=
  match match_ids with
  | [] => ret []
  | mid :: rest =>
      data <- match_by_id fuel float client mid ;;
      datas <- fetch_all client rest ;;
      ret (data :: datas)
  end.

(** The participants from the [i]-th on are gone through from world [w] to
    world [w']: each one whose resolution or whose count raises leaves one
    line on standard error and no row, each other one leaves its row. *)
Inductive scanned (cfg : Settings) (client : RiotClient)
    : list json -> Z -> World -> list row -> list line -> World -> Prop :=
| scanned_done i w : scanned cfg client [] i w [] [] w
| scanned_unresolved p rest i w e w1 ev1 rows errs w' :
    ensure_puuid fuel float client p w = (Raise e, w1, ev1) ->
    scanned cfg client rest (i + 1) w1 rows errs w' ->
    scanned cfg client (p :: rest) i w rows
      (SkippingParticipant i e :: errs) w'
| scanned_uncounted p rest i w puuid display_name w1 ev1 e w2 ev2
    rows errs w' :
    ensure_puuid fuel float client p w = (Ok (puuid, display_name), w1, ev1) ->
    count_exhaust_for_player fuel float client puuid
      (MAX_MATCHES_PER_PLAYER cfg) w1 = (Raise e, w2, ev2) ->
    scanned cfg client rest (i + 1) w2 rows errs w' ->
    scanned cfg client (p :: rest) i w rows
      (CountingError i display_name e :: errs) w'
| scanned_tallied p rest i w puuid display_name w1 ev1 ex_cnt total w2 ev2
    rows errs w' :
    ensure_puuid fuel float client p w = (Ok (puuid, display_name), w1, ev1) ->
    count_exhaust_for_player fuel float client puuid
      (MAX_MATCHES_PER_PLAYER cfg) w1 = (Ok (ex_cnt, total), w2, ev2) ->
    scanned cfg client rest (i + 1)
      (world_of (time_sleep (Finite (SLEEP_BETWEEN_PLAYERS cfg)) w2)) rows
      errs w' ->
    scanned cfg client (p :: rest) i w
      ((display_name, ex_cnt, total) :: rows) errs w'.

(** What the table shows of a row, and of the rows in their final order. *)
Definition shown (mark : string) (r : string * Z * Z) : line :=
  let '(name, ex_cnt, total) := r in
  TableRow (mark ++ name) ex_cnt
    (if total <=? 0 then "—" else percent ex_cnt total) total.

Definition shown_rows (sorted : list (string * Z * Z)) : list line :=
  match sorted with
  | [] => []
  | first :: others => shown "WINNER: " first :: map (shown "") others
  end.

(** C5 as the specification states it: a 429 that carries a [Retry-After]
    header is slept on, and a further attempt is made. *)
Definition retry_after_slept : Prop :=
  forall self u params w resp ra,
    world_ok w ->
    server w (sent w) {| req_url := u; req_params := params |} = Reply resp ->
    status_code resp = 429 ->
    retry_after resp = Some ra -> ra <> ""%string ->
    sleeps_of (events_of (_get fuel float self u params 3 1000 w)) <> [] /\
    (2 <= gets (events_of (_get fuel float self u params 3 1000 w)))%nat.


(** C9 as the specification states it: whatever the rows, those listed are
    in the order of [ranks_before]. *)
Definition listed_in_rank_order : Prop :=
  forall (rows sorted : list (string * Z * Z)) w,
    outs_of (events_of (print_leaderboard repr percent combining
                          east_asian_width (map named rows) w))
    = [TableTitle; TableRule; TableHeader; TableRule]
      ++ shown_rows sorted ++ [TableRule] ->
    StronglySorted (fun a b => ranks_before (named a) (named b)) sorted.

End Vocabulary.

(** ** The limiter's guarantees *)

Module LimiterFacts.
Import Limiter.

Section Window.
Variables window limit : Z.

Lemma len_app (l r : list Z) : len (l ++ r) = len l + len r.
Proof. unfold len. rewrite length_app. lia. Qed.

Lemma len_nonneg (l : list Z) : 0 <= len l.
Proof. unfold len. lia. Qed.

Lemma prune_window_length (t : Z) (w : list Z) :
  len (prune_window window t w) <= len w.
Proof.
  induction w as [|h w IH]; simpl; [lia|].
  destruct (window <? t - h); [|lia].
  unfold len in *. simpl. lia.
Qed.

Lemma prune_window_again (t t' : Z) (w : list Z) :
  t <= t' ->
  prune_window window t' (prune_window window t w) = prune_window window t' w.
Proof.
  intros Ht. induction w as [|h w IH]; simpl; [reflexivity|].
  destruct (window <? t - h) eqn:E.
  - rewrite IH. apply Z.ltb_lt in E.
    assert (E' : (window <? t' - h) = true) by (apply Z.ltb_lt; lia).
    now rewrite E'.
  - reflexivity.
Qed.

Lemma prune_window_expired_head (t h : Z) (w : list Z) :
  window < t - h ->
  len (prune_window window t (h :: w)) <= len w.
Proof.
  intros H. simpl. apply Z.ltb_lt in H. rewrite H.
  apply prune_window_length.
Qed.

Lemma covers_later (t t' : Z) (w adm : list Z) :
  covers window t w adm -> t <= t' -> covers window t' w adm.
Proof.
  intros [pre [Hadm Hpre]] Ht. exists pre. split; [assumption|].
  eapply Forall_impl; [|exact Hpre]. simpl. intros; lia.
Qed.

Lemma covers_prune_now (t : Z) (w adm : list Z) :
  covers window t w adm -> covers window t (prune_window window t w) adm.
Proof.
  intros [pre [Hadm Hpre]]. revert pre Hadm Hpre.
  induction w as [|h w IH]; intros pre Hadm Hpre; simpl.
  - now exists pre.
  - destruct (window <? t - h) eqn:E.
    + apply (IH (pre ++ [h])).
      * rewrite <- app_assoc. exact Hadm.
      * apply Forall_app. split; [assumption|].
        constructor; [|constructor]. now apply Z.ltb_lt in E.
    + now exists pre.
Qed.

Lemma covers_prune (t t' : Z) (w adm : list Z) :
  covers window t w adm -> t <= t' ->
  covers window t' (prune_window window t' w) adm.
Proof.
  intros H Ht. apply covers_prune_now. now apply covers_later with t.
Qed.

Lemma covers_admit (t : Z) (w adm : list Z) :
  covers window t w adm -> covers window t (w ++ [t]) (adm ++ [t]).
Proof.
  intros [pre [Hadm Hpre]]. exists pre. split; [|assumption].
  rewrite Hadm. now rewrite app_assoc.
Qed.

Lemma count_within_app (a : Z) (l r : list Z) :
  count_within a window (l ++ r)
  = count_within a window l + count_within a window r.
Proof. unfold count_within. rewrite filter_app. apply len_app. Qed.

Lemma count_within_le_len (a : Z) (l : list Z) :
  count_within a window l <= len l.
Proof.
  unfold count_within, len. apply Nat2Z.inj_le, filter_length_le.
Qed.

Lemma count_within_expired (a t : Z) (pre : list Z) :
  Forall (fun x => window < t - x) pre -> t <= a + window ->
  count_within a window pre = 0.
Proof.
  intros Hpre Ht. unfold count_within.
  induction Hpre as [|x pre Hx _ IH]; [reflexivity|].
  simpl. destruct (a <=? x) eqn:E; [|exact IH].
  apply Z.leb_le in E. lia.
Qed.

(** Admitting at [t] when the pruned window holds fewer than [limit]
    entries keeps every rolling interval within [limit]. *)
Lemma rolling_admit (t : Z) (w adm : list Z) :
  covers window t w adm -> rolling window limit adm -> len w < limit ->
  rolling window limit (adm ++ [t]).
Proof.
  intros Hc Hr Hlen a. rewrite count_within_app.
  unfold count_within at 2. simpl.
  destruct ((a <=? t) && (t <=? a + window)) eqn:E.
  - apply andb_prop in E. destruct E as [E1 E2].
    apply Z.leb_le in E1, E2.
    destruct Hc as [pre [Hadm Hpre]]. subst adm.
    rewrite count_within_app, (count_within_expired a t pre Hpre E2).
    pose proof (count_within_le_len a w) as Hw.
    change (len [t]) with 1. lia.
  - specialize (Hr a). change (len []) with 0. lia.
Qed.

(** Once the head's expiry instant is strictly behind, a window that held
    at most [limit] entries holds fewer after pruning. *)
Lemma prune_window_frees (t t' : Z) (w : list Z) :
  0 < limit -> len w <= limit -> t + head_wait window t w < t' ->
  len (prune_window window t' w) < limit.
Proof.
  intros Hpos Hlen Ht. destruct w as [|h w].
  - simpl. change (len []) with 0. lia.
  - simpl in Ht. pose proof (prune_window_expired_head t' h w) as H.
    assert (Hw : len (h :: w) = len w + 1).
    { change (h :: w) with ([h] ++ w). rewrite len_app.
      change (len [h]) with 1. lia. }
    lia.
Qed.

End Window.


Lemma sleep_clock_later (d : Z) (c : Clock) :
now c + d <= now (sleep_clock d c).
Proof. unfold sleep_clock. destruct (lag c); simpl; lia. Qed.

Lemma sleep_for_floor (cfg : Config) (t : Z) (rl : RateLimiter) :
SLEEP_FLOOR <= sleep_for cfg t rl.
Proof. unfold sleep_for. lia. Qed.

Lemma sleep_for_heads (cfg : Config) (t : Z) (rl : RateLimiter) :
head_wait (ONE_SEC_WINDOW cfg) t (w1 rl) <= sleep_for cfg t rl /\
head_wait (TWO_MIN_WINDOW cfg) t (w2 rl) <= sleep_for cfg t rl.
Proof. unfold sleep_for. lia. Qed.

Lemma has_slot_true (cfg : Config) (rl : RateLimiter) :
has_slot cfg rl = true <->
len (w1 rl) < ONE_SEC_LIMIT cfg /\ len (w2 rl) < TWO_MIN_LIMIT cfg.
Proof.
unfold has_slot. rewrite andb_true_iff, !Z.ltb_lt. tauto.
Qed.

Lemma tracks_prune (cfg : Config) (t t' : Z) (rl : RateLimiter)
  (adm : list Z) :
tracks cfg t rl adm -> t <= t' -> tracks cfg t' (_prune cfg t' rl) adm.
Proof.
intros (H1 & H2 & R1 & R2) Ht. unfold tracks, _prune. simpl.
repeat split; try assumption; eapply covers_prune; eassumption.
Qed.

Lemma tracks_prune_idle (cfg : Config) (t t' : Z) (rl : RateLimiter)
  (adm : list Z) :
tracks cfg t rl adm -> t <= t' -> tracks cfg t' rl adm.
Proof.
intros (H1 & H2 & R1 & R2) Ht. unfold tracks.
repeat split; try assumption; eapply covers_later; eassumption.
Qed.

(** A call that returns admits one timestamp, not before the call, and the
  log with it still satisfies both quotas. *)
Lemma wait_for_slot_tracks (cfg : Config) (fuel : nat) :
forall rl c adm rl' c' s,
  tracks cfg (now c) rl adm ->
  wait_for_slot cfg fuel rl c = Some (rl', c', s) ->
  now c <= now c' /\ tracks cfg (now c') rl' (adm ++ [now c']).
Proof.
induction fuel as [|fuel IH]; intros rl c adm rl' c' s Htr Hw;
  [discriminate|].
simpl in Hw.
pose proof (tracks_prune cfg (now c) (now c) rl adm Htr (Z.le_refl _))
  as Hp.
destruct (has_slot cfg (_prune cfg (now c) rl)) eqn:Hs.
- injection Hw as <- <- <-. split; [lia|].
  apply has_slot_true in Hs. destruct Hs as [L1 L2].
  destruct Hp as (H1 & H2 & R1 & R2). unfold tracks. simpl.
  repeat split.
  + now apply covers_admit.
  + now apply covers_admit.
  + eapply rolling_admit; eassumption.
  + eapply rolling_admit; eassumption.
- set (d := sleep_for cfg (now c) (_prune cfg (now c) rl)) in *.
  destruct (wait_for_slot cfg fuel (_prune cfg (now c) rl)
              (sleep_clock d c)) as [[[rl2 c2] s2]|] eqn:Hrec;
    [|discriminate].
  injection Hw as <- <- <-.
  pose proof (sleep_clock_later d c) as Hl.
  pose proof (sleep_for_floor cfg (now c) (_prune cfg (now c) rl)) as Hf.
  fold d in Hf. unfold SLEEP_FLOOR in Hf.
  assert (Hle : now c <= now (sleep_clock d c)) by lia.
  destruct (IH _ _ adm _ _ _
              (tracks_prune_idle cfg _ _ _ _ Hp Hle) Hrec) as [Hn Ht].
  split; [lia|exact Ht].
Qed.

Lemma wait_for_slot_within (cfg : Config) (fuel : nat) :
forall rl c rl' c' s,
  wait_for_slot cfg fuel rl c = Some (rl', c', s) ->
  within_limits cfg rl'.
Proof.
induction fuel as [|fuel IH]; intros rl c rl' c' s Hw; [discriminate|].
simpl in Hw.
destruct (has_slot cfg (_prune cfg (now c) rl)) eqn:Hs.
- injection Hw as <- <- <-. apply has_slot_true in Hs.
  unfold within_limits. simpl in *. rewrite !len_app.
  change (len [now c]) with 1. lia.
- destruct (wait_for_slot cfg fuel (_prune cfg (now c) rl) _)
    as [[[rl2 c2] s2]|] eqn:Hrec; [|discriminate].
  injection Hw as <- <- <-. eapply IH; eassumption.
Qed.

Lemma within_limits_prune (cfg : Config) (t : Z) (rl : RateLimiter) :
within_limits cfg rl -> within_limits cfg (_prune cfg t rl).
Proof.
intros [H1 H2]. unfold within_limits, _prune. simpl.
pose proof (prune_window_length (ONE_SEC_WINDOW cfg) t (w1 rl)).
pose proof (prune_window_length (TWO_MIN_WINDOW cfg) t (w2 rl)).
lia.
Qed.

Lemma _prune_again (cfg : Config) (t t' : Z) (rl : RateLimiter) :
t <= t' -> _prune cfg t' (_prune cfg t rl) = _prune cfg t' rl.
Proof.
intros Ht. unfold _prune. simpl.
now rewrite !prune_window_again by assumption.
Qed.

(** The loop exits by its third look at the clock: the first sleep reaches
  the expiry instant of both heads, the second passes it. *)
Lemma wait_for_slot_three (cfg : Config) (rl : RateLimiter) (c : Clock) :
0 < ONE_SEC_LIMIT cfg -> 0 < TWO_MIN_LIMIT cfg -> within_limits cfg rl ->
exists r, wait_for_slot cfg 3 rl c = Some r.
Proof.
intros P1 P2 Hin. simpl.
set (t1 := now c). set (rl1 := _prune cfg t1 rl).
destruct (has_slot cfg rl1) eqn:S1; [eexists; reflexivity|].
set (d1 := sleep_for cfg t1 rl1). set (c2 := sleep_clock d1 c).
set (rl2 := _prune cfg (now c2) rl1).
destruct (has_slot cfg rl2) eqn:S2; [eexists; reflexivity|].
set (d2 := sleep_for cfg (now c2) rl2). set (c3 := sleep_clock d2 c2).
set (rl3 := _prune cfg (now c3) rl2).
assert (S3 : has_slot cfg rl3 = true).
{ pose proof (sleep_clock_later d1 c) as L1. fold c2 t1 in L1.
  pose proof (sleep_clock_later d2 c2) as L2. fold c3 in L2.
  pose proof (sleep_for_floor cfg (now c2) rl2) as F2. fold d2 in F2.
  pose proof (sleep_for_heads cfg t1 rl1) as [G1 G2]. fold d1 in G1, G2.
  unfold SLEEP_FLOOR in F2.
  pose proof (within_limits_prune cfg t1 rl Hin) as [B1 B2].
  fold rl1 in B1, B2.
  unfold rl3, rl2. rewrite _prune_again by lia.
  apply has_slot_true.
  change (w1 (_prune cfg (now c3) rl1))
    with (prune_window (ONE_SEC_WINDOW cfg) (now c3) (w1 rl1)).
  change (w2 (_prune cfg (now c3) rl1))
    with (prune_window (TWO_MIN_WINDOW cfg) (now c3) (w2 rl1)).
  split; apply prune_window_frees with t1; solve [assumption | lia]. }
rewrite S3. eexists; reflexivity.
Qed.

Lemma wait_for_slot_more_fuel (cfg : Config) (fuel : nat) :
forall rl c r,
  wait_for_slot cfg fuel rl c = Some r ->
  wait_for_slot cfg (S fuel) rl c = Some r.
Proof.
induction fuel as [|fuel IH]; intros rl c r Hw; [discriminate|].
simpl in Hw. change (wait_for_slot cfg (S (S fuel)) rl c) with
  (let t := now c in
   let rl0 := _prune cfg t rl in
   if has_slot cfg rl0 then
     Some ({| w1 := w1 rl0 ++ [t]; w2 := w2 rl0 ++ [t] |}, c, [])
   else
     let d := sleep_for cfg t rl0 in
     match wait_for_slot cfg (S fuel) rl0 (sleep_clock d c) with
     | Some (rl', c', s) => Some (rl', c', d :: s)
     | None => None
     end).
cbv zeta.
destruct (has_slot cfg (_prune cfg (now c) rl)); [exact Hw|].
destruct (wait_for_slot cfg fuel (_prune cfg (now c) rl) _)
  as [[[rl2 c2] s2]|] eqn:Hrec; [|discriminate].
now rewrite (IH _ _ _ Hrec).
Qed.

(** [wait_for_slot] returns: three iterations always suffice from a limiter
  whose deques are within their limits. *)
Lemma wait_for_slot_returns (cfg : Config) (fuel : nat) (rl : RateLimiter)
  (c : Clock) :
0 < ONE_SEC_LIMIT cfg -> 0 < TWO_MIN_LIMIT cfg -> within_limits cfg rl ->
(3 <= fuel)%nat ->
exists r, wait_for_slot cfg fuel rl c = Some r.
Proof.
intros P1 P2 Hin Hf.
destruct (wait_for_slot_three cfg rl c P1 P2 Hin) as [r Hr].
exists r. induction Hf as [|fuel Hf IH]; [exact Hr|].
now apply wait_for_slot_more_fuel.
Qed.

Lemma tracks_init (cfg : Config) (t : Z) :
0 <= ONE_SEC_LIMIT cfg -> 0 <= TWO_MIN_LIMIT cfg -> tracks cfg t init [].
Proof.
intros P1 P2. unfold tracks, covers, rolling. simpl.
repeat split; try (exists []; split; [reflexivity|constructor]);
  intros a; change (count_within a _ []) with 0; assumption.
Qed.

Lemma acquisitions_tracks (cfg : Config) (fuel : nat) (delays : list N) :
forall rl c adm r,
  tracks cfg (now c) rl adm ->
  acquisitions cfg fuel delays rl c = Some r ->
  List.length r = List.length delays /\
  rolling (ONE_SEC_WINDOW cfg) (ONE_SEC_LIMIT cfg) (adm ++ map fst r) /\
  rolling (TWO_MIN_WINDOW cfg) (TWO_MIN_LIMIT cfg) (adm ++ map fst r).
Proof.
induction delays as [|d ds IH]; intros rl c adm r Htr Hacq; simpl in Hacq.
- injection Hacq as <-. simpl. rewrite app_nil_r.
  destruct Htr as (_ & _ & R1 & R2). auto.
- destruct (wait_for_slot cfg fuel rl (elapse d c))
    as [[[rl1 c1] s1]|] eqn:Hw; [|discriminate].
  destruct (acquisitions cfg fuel ds rl1 c1) as [r1|] eqn:Hr;
    [|discriminate].
  injection Hacq as <-.
  assert (Hle : now c <= now (elapse d c)) by (simpl; lia).
  destruct (wait_for_slot_tracks cfg fuel _ _ adm _ _ _
              (tracks_prune_idle cfg _ _ _ _ Htr Hle) Hw) as [_ Htr1].
  destruct (IH _ _ _ _ Htr1 Hr) as (Hl & R1 & R2).
  simpl. rewrite <- app_assoc in R1, R2. simpl in R1, R2. auto.
Qed.

Lemma acquisitions_returns (cfg : Config) (fuel : nat) (delays : list N) :
0 < ONE_SEC_LIMIT cfg -> 0 < TWO_MIN_LIMIT cfg -> (3 <= fuel)%nat ->
forall rl c, within_limits cfg rl ->
  exists r, acquisitions cfg fuel delays rl c = Some r.
Proof.
intros P1 P2 Hf. induction delays as [|d ds IH]; intros rl c Hin; simpl.
- eexists; reflexivity.
- destruct (wait_for_slot_returns cfg fuel rl (elapse d c) P1 P2 Hin Hf)
    as [[[rl1 c1] s1] Hw].
  rewrite Hw.
  destruct (IH rl1 c1 (wait_for_slot_within _ _ _ _ _ _ _ Hw)) as [r Hr].
  rewrite Hr. eexists; reflexivity.
Qed.

(** C1.  Every sequence of [wait_for_slot] calls on a fresh limiter, however
  the calls are spaced and however long the sleeps overrun, returns from
  each call, and among the admitted timestamps no closed interval of
  [ONE_SEC_WINDOW] holds more than [ONE_SEC_LIMIT] of them and no closed
  interval of [TWO_MIN_WINDOW] more than [TWO_MIN_LIMIT]. *)
Theorem rolling_windows_never_exceeded (cfg : Config) (fuel : nat)
  (delays : list N) (c : Clock) :
0 < ONE_SEC_LIMIT cfg -> 0 < TWO_MIN_LIMIT cfg -> (3 <= fuel)%nat ->
exists r,
  acquisitions cfg fuel delays init c = Some r /\
  List.length r = List.length delays /\
  rolling (ONE_SEC_WINDOW cfg) (ONE_SEC_LIMIT cfg) (map fst r) /\
  rolling (TWO_MIN_WINDOW cfg) (TWO_MIN_LIMIT cfg) (map fst r).
Proof.
intros P1 P2 Hf.
assert (Hin : within_limits cfg init).
{ unfold within_limits. simpl. change (len []) with 0. lia. }
destruct (acquisitions_returns cfg fuel delays P1 P2 Hf init c Hin)
  as [r Hr].
exists r. split; [exact Hr|].
assert (Ht : tracks cfg (now c) init []) by (apply tracks_init; lia).
exact (acquisitions_tracks cfg fuel delays _ _ _ _ Ht Hr).
Qed.

Lemma rolling_windows_never_exceeded_witness :
exists r,
  acquisitions module_config 3 [0%N; 0%N; 400%N] init
    {| now := 0; lag := [5%N] |} = Some r /\
  List.length r = 3%nat /\
  rolling 1000 20 (map fst r) /\
  rolling 120000 100 (map fst r).
Proof.
apply (rolling_windows_never_exceeded module_config 3 [0%N; 0%N; 400%N]
         {| now := 0; lag := [5%N] |}); simpl; lia.
Defined.

(** C2.  With the 2-per-second, 5-per-ten-seconds limiter, three calls in
  immediate succession: the first two are admitted at once, and the third
  sleeps ten seconds, the wait of the long window that is not full, where
  the wait of the full one-second window is one second.  With the module's
  own limits a 21st immediate call sleeps 120 seconds instead of one. *)
Theorem third_acquisition_waits_for_long_window :
acquisitions scenario_config 3 [0%N; 0%N; 0%N] init {| now := 0; lag := [] |}
  = Some [(0, []); (0, []); (10000, [10000])] /\
sleep_for scenario_config 0 {| w1 := [0; 0]; w2 := [0; 0] |} = 10000 /\
spec_sleep_for scenario_config 0 {| w1 := [0; 0]; w2 := [0; 0] |} = 1000 /\
sleep_for module_config 0 {| w1 := repeat 0 20; w2 := repeat 0 20 |}
  = 120000 /\
spec_sleep_for module_config 0 {| w1 := repeat 0 20; w2 := repeat 0 20 |}
  = 1000.
Proof. repeat split; vm_compute; reflexivity. Qed.

End LimiterFacts.

(** ** More on the limiter: what its deques hold, and when a call waits *)

Module LimiterExtra.
Import Limiter.

Lemma prune_window_suffix (window t : Z) (w : list Z) :
  exists pre, w = pre ++ prune_window window t w.
Proof.
  induction w as [|h w [pre IH]]; simpl.
  - now exists [].
  - destruct (window <? t - h).
    + exists (h :: pre). simpl. now rewrite <- IH.
    + now exists [].
Qed.

Lemma sorted_app_r (l r : list Z) :
  StronglySorted Z.le (l ++ r) -> StronglySorted Z.le r.
Proof.
  induction l as [|x l IH]; simpl; [auto|].
  intros H. inversion H; subst. auto.
Qed.

Lemma prune_window_sorted (window t : Z) (w : list Z) :
  StronglySorted Z.le w -> StronglySorted Z.le (prune_window window t w).
Proof.
  intros H. destruct (prune_window_suffix window t w) as [pre Hp].
  rewrite Hp in H. now apply sorted_app_r in H.
Qed.

Lemma prune_window_recent (window t : Z) (w : list Z) :
  StronglySorted Z.le w ->
  prune_window window t w = recent window t w.
Proof.
  unfold recent. induction w as [|h w IH]; intros Hs; [reflexivity|].
  inversion Hs as [|? ? Hs' Hh]; subst. simpl.
  destruct (window <? t - h) eqn:E.
  - apply Z.ltb_lt in E.
    assert (E' : (t - h <=? window) = false) by (apply Z.leb_gt; lia).
    rewrite E'. now apply IH.
  - apply Z.ltb_ge in E.
    assert (E' : (t - h <=? window) = true) by (apply Z.leb_le; lia).
    rewrite E'. f_equal. symmetry. apply forallb_filter_id.
    apply forallb_forall. intros x Hx.
    rewrite Forall_forall in Hh. specialize (Hh x Hx).
    apply Z.leb_le. lia.
Qed.

(** X5.  On a deque in non-decreasing order, the [popleft] loop of [_prune]
    leaves exactly the timestamps that are no older than the window. *)
Theorem prune_keeps_the_recent (window t : Z) (w : list Z) :
  StronglySorted Z.le w ->
  prune_window window t w = recent window t w.
Proof. apply prune_window_recent. Qed.

Lemma prune_keeps_the_recent_witness :
  prune_window 1000 1500 [100; 400; 600; 1500]
  = recent 1000 1500 [100; 400; 600; 1500].
Proof.
  apply (prune_keeps_the_recent 1000 1500 [100; 400; 600; 1500]).
  repeat constructor; lia.
Defined.

Lemma recent_expired (window t : Z) (pre : list Z) :
  Forall (fun x => window < t - x) pre -> recent window t pre = [].
Proof.
  unfold recent. induction 1 as [|x pre Hx _ IH]; [reflexivity|]. simpl.
  assert (E : (t - x <=? window) = false) by (apply Z.leb_gt; lia).
  now rewrite E.
Qed.

Lemma recent_app (window t : Z) (l r : list Z) :
  recent window t (l ++ r) = recent window t l ++ recent window t r.
Proof. apply filter_app. Qed.

(** The pruned deque at the moment of an admission, with the admitted
    timestamp, is the recent part of the log. *)
Lemma admitted_deque_recent (window t : Z) (w adm : list Z) :
  0 <= window -> StronglySorted Z.le adm ->
  covers window t w adm ->
  prune_window window t w ++ [t] = recent window t (adm ++ [t]).
Proof.
  intros Hw Hs Hc.
  pose proof (LimiterFacts.covers_prune_now window t w adm Hc)
    as [pre [Hadm Hpre]].
  assert (Hsw : StronglySorted Z.le (prune_window window t w)).
  { rewrite Hadm in Hs. now apply sorted_app_r in Hs. }
  rewrite Hadm. rewrite !recent_app, (recent_expired _ _ _ Hpre).
  rewrite <- (prune_window_recent window t _ Hsw).
  rewrite LimiterFacts.prune_window_again by lia. simpl.
  unfold recent. simpl.
  assert (E : (t - t <=? window) = true) by (apply Z.leb_le; lia).
  now rewrite E.
Qed.

Lemma chronological_later (t t' : Z) (adm : list Z) :
  chronological t adm -> t <= t' -> chronological t' adm.
Proof.
  intros [Hs Hf] Ht. split; [exact Hs|].
  eapply Forall_impl; [|exact Hf]. simpl. intros; lia.
Qed.

Lemma chronological_admit (t : Z) (adm : list Z) :
  chronological t adm -> chronological t (adm ++ [t]).
Proof.
  intros [Hs Hf]. split.
  - clear -Hs Hf. induction adm as [|x adm IH]; simpl.
    + repeat constructor.
    + inversion Hs; subst. inversion Hf; subst.
      constructor; [now apply IH|].
      apply Forall_app. split; [assumption|]. now repeat constructor.
  - apply Forall_app. split; [exact Hf|]. repeat constructor. lia.
Qed.

Lemma sleep_clock_not_before (d : Z) (c : Clock) :
  SLEEP_FLOOR <= d -> now c <= now (sleep_clock d c).
Proof.
  intros Hd. pose proof (LimiterFacts.sleep_clock_later d c).
  unfold SLEEP_FLOOR in Hd. lia.
Qed.

(** A call that returns: the log grows by the admitted timestamp, stays in
    order, and the deques are the recent part of the log. *)
Lemma wait_for_slot_log (cfg : Config) (fuel : nat) :
  0 <= ONE_SEC_WINDOW cfg -> 0 <= TWO_MIN_WINDOW cfg ->
  forall rl c adm rl' c' s,
    chronological (now c) adm ->
    covers (ONE_SEC_WINDOW cfg) (now c) (w1 rl) adm ->
    covers (TWO_MIN_WINDOW cfg) (now c) (w2 rl) adm ->
    wait_for_slot cfg fuel rl c = Some (rl', c', s) ->
    chronological (now c') (adm ++ [now c']) /\
    covers (ONE_SEC_WINDOW cfg) (now c') (w1 rl') (adm ++ [now c']) /\
    covers (TWO_MIN_WINDOW cfg) (now c') (w2 rl') (adm ++ [now c']) /\
    w1 rl' = recent (ONE_SEC_WINDOW cfg) (now c') (adm ++ [now c']) /\
    w2 rl' = recent (TWO_MIN_WINDOW cfg) (now c') (adm ++ [now c']).
Proof.
  intros T1 T2. induction fuel as [|fuel IH];
    intros rl c adm rl' c' s Hch H1 H2 Hw; [discriminate|].
  simpl in Hw.
  destruct (has_slot cfg (_prune cfg (now c) rl)).
  - injection Hw as <- <- <-. simpl.
    split; [now apply chronological_admit|].
    split; [apply LimiterFacts.covers_admit;
            now apply LimiterFacts.covers_prune_now|].
    split; [apply LimiterFacts.covers_admit;
            now apply LimiterFacts.covers_prune_now|].
    destruct Hch as [Hs _].
    split; now apply admitted_deque_recent.
  - set (d := sleep_for cfg (now c) (_prune cfg (now c) rl)) in *.
    destruct (wait_for_slot cfg fuel (_prune cfg (now c) rl)
                (sleep_clock d c)) as [[[rl2 c2] s2]|] eqn:Hrec;
      [|discriminate].
    injection Hw as <- <- <-.
    assert (Hle : now c <= now (sleep_clock d c))
      by (apply sleep_clock_not_before, LimiterFacts.sleep_for_floor).
    apply (IH (_prune cfg (now c) rl) (sleep_clock d c) adm rl2 c2 s2).
    + now apply chronological_later with (now c).
    + apply LimiterFacts.covers_later with (now c); [|exact Hle].
      now apply LimiterFacts.covers_prune_now.
    + apply LimiterFacts.covers_later with (now c); [|exact Hle].
      now apply LimiterFacts.covers_prune_now.
    + exact Hrec.
Qed.

Lemma wait_for_slot_not_before (cfg : Config) (fuel : nat) :
  forall rl c rl' c' s,
    wait_for_slot cfg fuel rl c = Some (rl', c', s) ->
    now c + total_sleep s <= now c' /\
    Forall (fun d => SLEEP_FLOOR <= d) s /\
    (List.length s < fuel)%nat.
Proof.
  induction fuel as [|fuel IH]; intros rl c rl' c' s Hw; [discriminate|].
  simpl in Hw.
  destruct (has_slot cfg (_prune cfg (now c) rl)).
  - injection Hw as <- <- <-. simpl. repeat split; [lia|constructor|lia].
  - set (d := sleep_for cfg (now c) (_prune cfg (now c) rl)) in *.
    destruct (wait_for_slot cfg fuel (_prune cfg (now c) rl)
                (sleep_clock d c)) as [[[rl2 c2] s2]|] eqn:Hrec;
      [|discriminate].
    injection Hw as <- <- <-.
    destruct (IH _ _ _ _ _ Hrec) as (Hn & Hf & Hl).
    pose proof (LimiterFacts.sleep_clock_later d c).
    simpl. repeat split; [lia| |lia].
    constructor; [apply LimiterFacts.sleep_for_floor|exact Hf].
Qed.

Lemma wait_for_slot_fuel_le (cfg : Config) (fuel fuel' : nat)
    (rl : RateLimiter) (c : Clock) (r : RateLimiter * Clock * list Z) :
  (fuel <= fuel')%nat ->
  wait_for_slot cfg fuel rl c = Some r ->
  wait_for_slot cfg fuel' rl c = Some r.
Proof.
  intros Hle Hw. induction Hle as [|fuel' Hle IH]; [exact Hw|].
  now apply LimiterFacts.wait_for_slot_more_fuel.
Qed.

Lemma wait_for_slot_same (cfg : Config) (f1 f2 : nat) (rl : RateLimiter)
    (c : Clock) (r1 r2 : RateLimiter * Clock * list Z) :
  wait_for_slot cfg f1 rl c = Some r1 ->
  wait_for_slot cfg f2 rl c = Some r2 -> r1 = r2.
Proof.
  intros H1 H2. destruct (Nat.le_ge_cases f1 f2) as [H|H].
  - apply (wait_for_slot_fuel_le cfg f1 f2 rl c r1 H) in H1. congruence.
  - apply (wait_for_slot_fuel_le cfg f2 f1 rl c r2 H) in H2. congruence.
Qed.

(** X4.  On a limiter within its limits a call of [wait_for_slot] returns
    after two sleeps at most, each of at least the floor of 0.01 s, and the
    timestamp it admits is not before the call plus the time slept. *)
Theorem wait_for_slot_sleeps_twice_at_most (cfg : Config) (fuel : nat)
    (rl : RateLimiter) (c : Clock) :
  0 < ONE_SEC_LIMIT cfg -> 0 < TWO_MIN_LIMIT cfg -> within_limits cfg rl ->
  (3 <= fuel)%nat ->
  exists rl' c' s,
    wait_for_slot cfg fuel rl c = Some (rl', c', s) /\
    (List.length s <= 2)%nat /\
    Forall (fun d => SLEEP_FLOOR <= d) s /\
    now c + total_sleep s <= now c'.
Proof.
  intros P1 P2 Hin Hf.
  destruct (LimiterFacts.wait_for_slot_three cfg rl c P1 P2 Hin)
    as [[[rl' c'] s] H3].
  exists rl', c', s.
  split; [now apply (wait_for_slot_fuel_le cfg 3 fuel)|].
  destruct (wait_for_slot_not_before cfg 3 _ _ _ _ _ H3) as (Hn & Hfl & Hl).
  split; [lia|]. split; assumption.
Qed.

Lemma wait_for_slot_sleeps_twice_at_most_witness :
  exists rl' c' s,
    wait_for_slot scenario_config 5 {| w1 := [0; 0]; w2 := [0; 0] |}
      {| now := 300; lag := [7%N] |} = Some (rl', c', s) /\
    (List.length s <= 2)%nat /\
    Forall (fun d => SLEEP_FLOOR <= d) s /\
    300 + total_sleep s <= now c'.
Proof.
  apply (wait_for_slot_sleeps_twice_at_most scenario_config 5
           {| w1 := [0; 0]; w2 := [0; 0] |} {| now := 300; lag := [7%N] |});
    try (simpl; lia).
  unfold within_limits. simpl. unfold len. simpl. lia.
Defined.

Lemma served_acquisitions (cfg : Config) (fuel : nat) (delays : list N) :
  forall rl c r rl' c',
    served cfg fuel delays rl c = Some (r, rl', c') ->
    acquisitions cfg fuel delays rl c = Some r.
Proof.
  induction delays as [|d ds IH]; intros rl c r rl' c' H; simpl in *.
  - now injection H as <- _ _.
  - destruct (wait_for_slot cfg fuel rl (elapse d c)) as [[[rl1 c1] s1]|];
      [|discriminate].
    destruct (served cfg fuel ds rl1 c1) as [[[r1 rl2] c2]|] eqn:E;
      [|discriminate].
    injection H as <- <- <-. now rewrite (IH _ _ _ _ _ E).
Qed.

Lemma served_returns (cfg : Config) (fuel : nat) (delays : list N) :
  0 < ONE_SEC_LIMIT cfg -> 0 < TWO_MIN_LIMIT cfg -> (3 <= fuel)%nat ->
  forall rl c, within_limits cfg rl ->
    exists r rl' c', served cfg fuel delays rl c = Some (r, rl', c').
Proof.
  intros P1 P2 Hf. induction delays as [|d ds IH]; intros rl c Hin; simpl.
  - do 3 eexists; reflexivity.
  - destruct (LimiterFacts.wait_for_slot_returns cfg fuel rl (elapse d c)
                P1 P2 Hin Hf) as [[[rl1 c1] s1] Hw].
    rewrite Hw.
    destruct (IH rl1 c1 (LimiterFacts.wait_for_slot_within _ _ _ _ _ _ _ Hw))
      as (r & rl' & c' & Hr).
    rewrite Hr. do 3 eexists; reflexivity.
Qed.

(** Between two calls: the log is in order, the deques are tails of it with
    nothing recent before them, and they are its recent part as of the last
    admission. *)
Lemma served_log (cfg : Config) (fuel : nat) (delays : list N) :
  0 <= ONE_SEC_WINDOW cfg -> 0 <= TWO_MIN_WINDOW cfg ->
  forall rl c adm r rl' c',
    chronological (now c) adm ->
    covers (ONE_SEC_WINDOW cfg) (now c) (w1 rl) adm ->
    covers (TWO_MIN_WINDOW cfg) (now c) (w2 rl) adm ->
    w1 rl = recent (ONE_SEC_WINDOW cfg) (now c) adm ->
    w2 rl = recent (TWO_MIN_WINDOW cfg) (now c) adm ->
    served cfg fuel delays rl c = Some (r, rl', c') ->
    chronological (now c') (adm ++ map fst r) /\
    w1 rl' = recent (ONE_SEC_WINDOW cfg) (now c') (adm ++ map fst r) /\
    w2 rl' = recent (TWO_MIN_WINDOW cfg) (now c') (adm ++ map fst r).
Proof.
  intros T1 T2. induction delays as [|d ds IH];
    intros rl c adm r rl' c' Hch H1 H2 R1 R2 H; simpl in H.
  - injection H as <- <- <-. simpl. rewrite app_nil_r. auto.
  - destruct (wait_for_slot cfg fuel rl (elapse d c))
      as [[[rl1 c1] s1]|] eqn:Hw; [|discriminate].
    destruct (served cfg fuel ds rl1 c1) as [[[r1 rl2] c2]|] eqn:E;
      [|discriminate].
    injection H as <- <- <-.
    assert (Hle : now c <= now (elapse d c)) by (simpl; lia).
    destruct (wait_for_slot_log cfg fuel T1 T2 rl (elapse d c) adm rl1 c1 s1)
      as (Hch1 & C1 & C2 & Q1 & Q2); auto.
    + now apply chronological_later with (now c).
    + now apply LimiterFacts.covers_later with (now c).
    + now apply LimiterFacts.covers_later with (now c).
    + destruct (IH rl1 c1 (adm ++ [now c1]) r1 rl2 c2 Hch1 C1 C2 Q1 Q2 E)
        as (Hch2 & Q1' & Q2').
      simpl. rewrite <- app_assoc in Hch2, Q1', Q2'. auto.
Qed.

Lemma arrivals_le (ds : list N) :
  forall t t', t <= t' -> Forall2 Z.le (arrivals t ds) (arrivals t' ds).
Proof.
  induction ds as [|d ds IH]; intros t t' H; simpl; constructor; [lia|].
  apply IH. lia.
Qed.

Lemma Forall2_le_trans (a b c : list Z) :
  Forall2 Z.le a b -> Forall2 Z.le b c -> Forall2 Z.le a c.
Proof.
  intros H. revert c. induction H as [|x y a b Hxy _ IH]; intros c Hc.
  - inversion Hc. constructor.
  - inversion Hc as [|? z ? c' Hyz Hbc]; subst. constructor; [lia|auto].
Qed.

Lemma served_not_before_calls (cfg : Config) (fuel : nat) (delays : list N) :
  forall rl c r rl' c',
    served cfg fuel delays rl c = Some (r, rl', c') ->
    Forall2 Z.le (arrivals (now c) delays) (map fst r).
Proof.
  induction delays as [|d ds IH]; intros rl c r rl' c' H; simpl in H.
  - injection H as <- _ _. constructor.
  - destruct (wait_for_slot cfg fuel rl (elapse d c))
      as [[[rl1 c1] s1]|] eqn:Hw; [|discriminate].
    destruct (served cfg fuel ds rl1 c1) as [[[r1 rl2] c2]|] eqn:E;
      [|discriminate].
    injection H as <- _ _.
    destruct (wait_for_slot_not_before cfg fuel _ _ _ _ _ Hw) as (Hn & Hf & _).
    assert (Hs : 0 <= total_sleep s1).
    { clear -Hf. induction Hf as [|x l Hx _ IHf]; simpl; [lia|].
      unfold SLEEP_FLOOR in Hx. lia. }
    simpl in Hn. simpl. constructor; [lia|].
    apply Forall2_le_trans with (arrivals (now c1) ds);
      [|now apply (IH rl1 c1 r1 rl2 c2)].
    apply arrivals_le. lia.
Qed.

(** X1.  After any sequence of calls on a fresh limiter, whatever their
    spacing, each deque holds exactly the admitted timestamps that are no
    older than its window at the last admission, in the order they were
    admitted. *)
Theorem deques_hold_the_recent_admissions (cfg : Config) (fuel : nat)
    (delays : list N) (c : Clock) :
  0 < ONE_SEC_LIMIT cfg -> 0 < TWO_MIN_LIMIT cfg ->
  0 <= ONE_SEC_WINDOW cfg -> 0 <= TWO_MIN_WINDOW cfg -> (3 <= fuel)%nat ->
  exists r rl' c',
    served cfg fuel delays init c = Some (r, rl', c') /\
    acquisitions cfg fuel delays init c = Some r /\
    w1 rl' = recent (ONE_SEC_WINDOW cfg) (now c') (map fst r) /\
    w2 rl' = recent (TWO_MIN_WINDOW cfg) (now c') (map fst r).
Proof.
  intros P1 P2 T1 T2 Hf.
  assert (Hin : within_limits cfg init).
  { unfold within_limits. simpl. change (len []) with 0. lia. }
  destruct (served_returns cfg fuel delays P1 P2 Hf init c Hin)
    as (r & rl' & c' & Hr).
  exists r, rl', c'. split; [exact Hr|].
  split; [now apply served_acquisitions with rl' c'|].
  destruct (served_log cfg fuel delays T1 T2 init c [] r rl' c')
    as (_ & Q1 & Q2); auto.
  - split; constructor.
  - exists []. split; [reflexivity|constructor].
  - exists []. split; [reflexivity|constructor].
Qed.

Lemma deques_hold_the_recent_admissions_witness :
  exists r rl' c',
    served scenario_config 3 [0%N; 200%N; 0%N; 5000%N] init
      {| now := 0; lag := [] |} = Some (r, rl', c') /\
    acquisitions scenario_config 3 [0%N; 200%N; 0%N; 5000%N] init
      {| now := 0; lag := [] |} = Some r /\
    w1 rl' = recent 1000 (now c') (map fst r) /\
    w2 rl' = recent 10000 (now c') (map fst r).
Proof.
  apply (deques_hold_the_recent_admissions scenario_config 3
           [0%N; 200%N; 0%N; 5000%N] {| now := 0; lag := [] |});
    simpl; lia.
Defined.

(** X2.  The timestamps admitted by a sequence of calls are in
    non-decreasing order, and none is earlier than the instant its call
    would be made if no call had waited. *)
Theorem admissions_in_order_not_before_calls (cfg : Config) (fuel : nat)
    (delays : list N) (c : Clock) :
  0 < ONE_SEC_LIMIT cfg -> 0 < TWO_MIN_LIMIT cfg ->
  0 <= ONE_SEC_WINDOW cfg -> 0 <= TWO_MIN_WINDOW cfg -> (3 <= fuel)%nat ->
  exists r,
    acquisitions cfg fuel delays init c = Some r /\
    StronglySorted Z.le (map fst r) /\
    Forall2 Z.le (arrivals (now c) delays) (map fst r).
Proof.
  intros P1 P2 T1 T2 Hf.
  assert (Hin : within_limits cfg init).
  { unfold within_limits. simpl. change (len []) with 0. lia. }
  destruct (served_returns cfg fuel delays P1 P2 Hf init c Hin)
    as (r & rl' & c' & Hr).
  exists r. split; [now apply served_acquisitions with rl' c'|].
  split; [|now apply (served_not_before_calls cfg fuel delays init c r rl' c')].
  destruct (served_log cfg fuel delays T1 T2 init c [] r rl' c')
    as ([Hs _] & _ & _); auto.
  - split; constructor.
  - exists []. split; [reflexivity|constructor].
  - exists []. split; [reflexivity|constructor].
Qed.

Lemma admissions_in_order_not_before_calls_witness :
  exists r,
    acquisitions scenario_config 3 [0%N; 200%N; 0%N; 5000%N] init
      {| now := 0; lag := [] |} = Some r /\
    StronglySorted Z.le (map fst r) /\
    Forall2 Z.le [0; 200; 200; 5200] (map fst r).
Proof.
  apply (admissions_in_order_not_before_calls scenario_config 3
           [0%N; 200%N; 0%N; 5000%N] {| now := 0; lag := [] |});
    simpl; lia.
Defined.

Lemma prune_window_len_le (window t : Z) (w : list Z) (n : Z) :
  len w <= n -> len (prune_window window t w) <= n.
Proof.
  intros H. pose proof (LimiterFacts.prune_window_length window t w). lia.
Qed.

(** Calls within both quotas are admitted at once. *)
Lemma served_within_quota (cfg : Config) (fuel : nat) (delays : list N) :
  (1 <= fuel)%nat ->
  forall rl c,
    len (w1 rl) + Z.of_nat (List.length delays) <= ONE_SEC_LIMIT cfg ->
    len (w2 rl) + Z.of_nat (List.length delays) <= TWO_MIN_LIMIT cfg ->
    exists rl' c',
      served cfg fuel delays rl c
      = Some (map (fun a => (a, [])) (arrivals (now c) delays), rl', c').
Proof.
  intros Hf. destruct fuel as [|fuel]; [lia|].
  induction delays as [|d ds IH]; intros rl c L1 L2.
  - do 2 eexists. reflexivity.
  - cbn [served wait_for_slot]. cbv zeta.
    set (t := now (elapse d c)).
    assert (Hs : has_slot cfg (_prune cfg t rl) = true).
    { apply LimiterFacts.has_slot_true. unfold _prune. simpl.
      pose proof (LimiterFacts.prune_window_length (ONE_SEC_WINDOW cfg) t
                    (w1 rl)).
      pose proof (LimiterFacts.prune_window_length (TWO_MIN_WINDOW cfg) t
                    (w2 rl)).
      cbn [List.length] in L1, L2. lia. }
    rewrite Hs.
    destruct (IH {| w1 := w1 (_prune cfg t rl) ++ [t];
                    w2 := w2 (_prune cfg t rl) ++ [t] |} (elapse d c))
      as (rl' & c' & Hr).
    + unfold _prune. simpl. rewrite LimiterFacts.len_app.
      pose proof (LimiterFacts.prune_window_length (ONE_SEC_WINDOW cfg) t
                    (w1 rl)).
      change (len [t]) with 1. cbn [List.length] in L1. lia.
    + unfold _prune. simpl. rewrite LimiterFacts.len_app.
      pose proof (LimiterFacts.prune_window_length (TWO_MIN_WINDOW cfg) t
                    (w2 rl)).
      change (len [t]) with 1. cbn [List.length] in L2. lia.
    + rewrite Hr. exists rl', c'. reflexivity.
Qed.

(** X3.  On a fresh limiter, calls no more numerous than either limit are
    all admitted at once, at the instant of the call and without a sleep,
    however close together they are. *)
Theorem calls_within_quota_never_wait (cfg : Config) (fuel : nat)
    (delays : list N) (c : Clock) :
  (1 <= fuel)%nat ->
  Z.of_nat (List.length delays) <= ONE_SEC_LIMIT cfg ->
  Z.of_nat (List.length delays) <= TWO_MIN_LIMIT cfg ->
  acquisitions cfg fuel delays init c
  = Some (map (fun a => (a, [])) (arrivals (now c) delays)).
Proof.
  intros Hf L1 L2.
  destruct (served_within_quota cfg fuel delays Hf init c)
    as (rl' & c' & Hr).
  - simpl. change (len []) with 0. lia.
  - simpl. change (len []) with 0. lia.
  - now apply served_acquisitions with rl' c'.
Qed.

Lemma calls_within_quota_never_wait_witness :
  acquisitions module_config 1 (repeat 0%N 20) init {| now := 7; lag := [] |}
  = Some (map (fun a => (a, []))
            (arrivals 7 (repeat 0%N 20))).
Proof.
  apply (calls_within_quota_never_wait module_config 1 (repeat 0%N 20)
           {| now := 7; lag := [] |}); simpl; lia.
Defined.

End LimiterExtra.

(** ** The resilient client *)


Lemma after_nil {A} (x : Result A * World * list event) : after [] x = x.
Proof. destruct x as [[r w] evs]. reflexivity. Qed.

Lemma after_after {A} (e1 e2 : list event)
    (x : Result A * World * list event) :
  after e1 (after e2 x) = after (e1 ++ e2) x.
Proof.
  destruct x as [[r w] evs]. unfold after. simpl. now rewrite app_assoc.
Qed.

Lemma bind_ok {A B} (m : M A) (f : A -> M B) (w w1 : World) (a : A)
    (evs : list event) :
  m w = (Ok a, w1, evs) -> bind m f w = after evs (f a w1).
Proof.
  intros H. unfold bind. rewrite H. now destruct (f a w1) as [[r w2] t2].
Qed.

Lemma bind_raise {A B} (m : M A) (f : A -> M B) (w w1 : World) (e : exn)
    (evs : list event) :
  m w = (Raise e, w1, evs) -> bind m f w = (Raise e, w1, evs).
Proof. intros H. unfold bind. now rewrite H. Qed.

Lemma bind_hang {A B} (m : M A) (f : A -> M B) (w w1 : World)
    (evs : list event) :
  m w = (Hang, w1, evs) -> bind m f w = (Hang, w1, evs).
Proof. intros H. unfold bind. now rewrite H. Qed.

Lemma bind_lift_val {A B} (r : Pure A) (a : A) (f : A -> M B) (w : World) :
  r = Val a -> bind (lift r) f w = f a w.
Proof.
  intros ->. unfold bind, lift. now destruct (f a w) as [[r w2] t2].
Qed.

Lemma bind_lift_exc {A B} (r : Pure A) (e : exn) (f : A -> M B) (w : World) :
  r = Exc e -> bind (lift r) f w = (Raise e, w, []).
Proof. now intros ->. Qed.

(** [time.sleep] on a duration it takes, and on the others. *)
Lemma time_sleep_done (d : Z) (w : World) :
  sleepable d ->
  exists w1,
    time_sleep (Finite d) w = (Ok tt, w1, [EvSleep d]) /\
    (world_ok w -> world_ok w1) /\ server w1 = server w /\ sent w1 = sent w.
Proof.
  intros [Hd Hm]. unfold time_sleep.
  assert (E1 : (d <? - SLEEP_MAX) = false)
    by (apply Z.ltb_ge; unfold SLEEP_MAX in *; lia).
  assert (E2 : (SLEEP_MAX <? d) = false) by (apply Z.ltb_ge; lia).
  assert (E3 : (d <? 0) = false) by (apply Z.ltb_ge; lia).
  rewrite E1, E2, E3. simpl.
  eexists. split; [reflexivity|].
  split; [intros H; exact H|split; reflexivity].
Qed.

Lemma time_sleep_cases (x : pyfloat) (w : World) :
  (exists d w1,
     x = Finite d /\ sleepable d /\
     time_sleep x w = (Ok tt, w1, [EvSleep d]) /\
     (world_ok w -> world_ok w1) /\ server w1 = server w /\
     sent w1 = sent w) \/
  ((forall d, x = Finite d -> d < 0 \/ SLEEP_MAX < d) /\
   (time_sleep x w = (Raise ValueError, w, []) \/
    time_sleep x w = (Raise OverflowError, w, []))).
Proof.
  destruct x as [d|neg|].
  - destruct (Z_lt_dec d 0) as [Hn|Hn].
    + right. split; [intros d' [= <-]; now left|].
      unfold time_sleep.
      destruct ((d <? - SLEEP_MAX) || (SLEEP_MAX <? d)); [now right|].
      apply Z.ltb_lt in Hn. rewrite Hn. now left.
    + destruct (Z_lt_dec SLEEP_MAX d) as [Hm|Hm].
      * right. split; [intros d' [= <-]; now right|].
        unfold time_sleep. apply Z.ltb_lt in Hm. rewrite Hm, orb_true_r.
        now right.
      * left. assert (Hs : sleepable d) by (unfold sleepable; lia).
        destruct (time_sleep_done d w Hs) as (w1 & H).
        exists d, w1. auto.
  - right. split; [discriminate|]. now right.
  - right. split; [discriminate|]. now left.
Qed.

(** Pairs of a slot and its request, among the events. *)
Lemma slot_times_app (a b : list event) :
  slot_times (a ++ b) = slot_times a ++ slot_times b.
Proof. unfold slot_times. apply flat_map_app. Qed.

Lemma paired_app_upto (n : nat) :
  forall a b, (List.length a <= n)%nat ->
    paired a = true -> paired b = true -> paired (a ++ b) = true.
Proof.
  induction n as [|n IH]; intros a b Hl Ha Hb.
  - destruct a; [exact Hb|simpl in Hl; lia].
  - destruct a as [|e a]; [exact Hb|]. simpl in Hl.
    destruct e; simpl in *;
      try discriminate; try (apply IH; auto; lia).
    destruct a as [|e' a]; [discriminate|].
    destruct e'; try discriminate. simpl in *. apply IH; auto. lia.
Qed.

Lemma paired_app (a b : list event) :
  paired a = true -> paired b = true -> paired (a ++ b) = true.
Proof. apply (paired_app_upto (List.length a)). lia. Qed.



Section ClientFacts.

Variable fuel : nat.
Variable float : string -> option pyfloat.

(** An attempt, step by step: the slot, the request with the time it takes,
    then the dispatch on the response. *)
Lemma get_attempts_step (u : url) (params : option (list (string * Z)))
    (backoff_sec attempt : Z) (rest : list Z) (w : World) :
  _get_attempts fuel float u params backoff_sec (attempt :: rest) w
  = match Limiter.wait_for_slot Limiter.module_config fuel (RATE_LIMITER w)
            (clock w) with
    | None => (Hang, w, [])
    | Some (rl, c, s) =>
        let w2 := {| clock := Limiter.elapse (latency w (sent w)) c;
                     RATE_LIMITER := rl; server := server w;
                     latency := latency w; sent := S (sent w) |} in
        match server w (sent w) {| req_url := u; req_params := params |} with
        | Transport kind =>
            (Raise (RequestException kind), w2,
             [EvSlot (Limiter.now c) s;
              EvGet {| req_url := u; req_params := params |}])
        | Reply resp =>
            after [EvSlot (Limiter.now c) s;
                   EvGet {| req_url := u; req_params := params |}]
              (dispatch fuel float u params backoff_sec resp attempt rest w2)
        end
    end.
Proof.
  set (r := {| req_url := u; req_params := params |}).
  change (_get_attempts fuel float u params backoff_sec (attempt :: rest))
    with (RATE_LIMITER_wait_for_slot fuel ;;;
          resp <- session_get r ;;
          dispatch fuel float u params backoff_sec resp attempt rest).
  destruct (Limiter.wait_for_slot Limiter.module_config fuel (RATE_LIMITER w)
              (clock w)) as [[[rl c] s]|] eqn:Hw.
  - set (w1 := {| clock := c; RATE_LIMITER := rl; server := server w;
                  latency := latency w; sent := sent w |}).
    assert (Hslot : RATE_LIMITER_wait_for_slot fuel w
                    = (Ok tt, w1, [EvSlot (Limiter.now c) s])).
    { unfold RATE_LIMITER_wait_for_slot. now rewrite Hw. }
    rewrite (bind_ok _ _ _ _ _ _ Hslot). cbv zeta.
    destruct (server w (sent w) r) as [kind|resp] eqn:Hs.
    + assert (Hg : session_get r w1
                   = (Raise (RequestException kind),
                      {| clock := Limiter.elapse (latency w (sent w)) c;
                         RATE_LIMITER := rl; server := server w;
                         latency := latency w; sent := S (sent w) |},
                      [EvGet r])).
      { unfold session_get. simpl. now rewrite Hs. }
      now rewrite (bind_raise _ _ _ _ _ _ Hg).
    + assert (Hg : session_get r w1
                   = (Ok resp,
                      {| clock := Limiter.elapse (latency w (sent w)) c;
                         RATE_LIMITER := rl; server := server w;
                         latency := latency w; sent := S (sent w) |},
                      [EvGet r])).
      { unfold session_get. simpl. now rewrite Hs. }
      now rewrite (bind_ok _ _ _ _ _ _ Hg), after_after.
  - assert (Hslot : RATE_LIMITER_wait_for_slot fuel w = (Hang, w, [])).
    { unfold RATE_LIMITER_wait_for_slot. now rewrite Hw. }
    now rewrite (bind_hang _ _ _ _ _ Hslot).
Qed.

(** What the dispatch does on a response that is not retried, and how it
    goes on after a sleep. *)
Lemma dispatch_final (u : url) (params : option (list (string * Z)))
    (backoff_sec : Z) (resp : Response) (attempt : Z) (rest : list Z)
    (w : World) :
  status_code resp <> 429 ->
  ~ (500 <= status_code resp < 600) ->
  dispatch fuel float u params backoff_sec resp attempt rest w
  = (if resp_ok resp
     then Ok (match json_body resp with Some j => j | None => JObj [] end)
     else Raise (RuntimeError
                   (GetFailed u (status_code resp) (error_body resp))),
     w, []).
Proof.
  intros H429 H5. unfold dispatch.
  apply Z.eqb_neq in H429. rewrite H429.
  assert (E : (500 <=? status_code resp) && (status_code resp <? 600) = false).
  { apply andb_false_iff.
    destruct (500 <=? status_code resp) eqn:E1; [right|now left].
    apply Z.leb_le in E1. apply Z.ltb_ge. lia. }
  rewrite E. now destruct (resp_ok resp).
Qed.

Lemma sleep_then_paired (x : pyfloat) (k : M json) (w : World) :
  (forall w', paired (events_of (k w')) = true) ->
  paired (events_of ((time_sleep x ;;; k) w)) = true.
Proof.
  intros Hk.
  destruct (time_sleep_cases x w)
    as [(d & w1 & _ & _ & Hs & _)|[_ [Hs|Hs]]].
  - rewrite (bind_ok _ _ _ _ _ _ Hs). unfold after, events_of. simpl.
    apply Hk.
  - now rewrite (bind_raise _ _ _ _ _ _ Hs).
  - now rewrite (bind_raise _ _ _ _ _ _ Hs).
Qed.

Lemma dispatch_paired (u : url) (params : option (list (string * Z)))
    (backoff_sec : Z) (resp : Response) (attempt : Z) (rest : list Z)
    (w : World) :
  (forall w',
     paired (events_of (_get_attempts fuel float u params backoff_sec rest
                          w')) = true) ->
  paired (events_of (dispatch fuel float u params backoff_sec resp attempt
                       rest w)) = true.
Proof.
  intros IH. unfold dispatch.
  destruct (status_code resp =? 429).
  - destruct (sleep_429 float resp backoff_sec attempt) as [x|e] eqn:Es.
    + rewrite (bind_lift_val _ x _ _ eq_refl). now apply sleep_then_paired.
    + now rewrite (bind_lift_exc _ e _ _ eq_refl).
  - destruct ((500 <=? status_code resp) && (status_code resp <? 600)).
    + now apply sleep_then_paired.
    + now destruct (resp_ok resp).
Qed.

(** In a call of [_get], whatever the world, every request comes right after
    a slot of the limiter and every slot is used at once by a request. *)
Lemma get_attempts_paired (u : url) (params : option (list (string * Z)))
    (backoff_sec : Z) (attempts : list Z) :
  forall w,
    paired (events_of (_get_attempts fuel float u params backoff_sec attempts
                         w)) = true.
Proof.
  induction attempts as [|attempt rest IH]; intros w; [reflexivity|].
  rewrite get_attempts_step.
  destruct (Limiter.wait_for_slot Limiter.module_config fuel (RATE_LIMITER w)
              (clock w)) as [[[rl c] s]|]; [|reflexivity].
  cbv zeta.
  destruct (server w (sent w) {| req_url := u; req_params := params |})
    as [kind|resp]; [reflexivity|].
  unfold after, events_of. simpl.
  now apply dispatch_paired.
Qed.

Hypothesis fuel_enough : (3 <= fuel)%nat.

(** From a world within limits the limiter grants its slot: one admission,
    nothing else changes. *)
Lemma wait_for_slot_grants (w : World) :
  world_ok w ->
  exists t waits w1,
    RATE_LIMITER_wait_for_slot fuel w = (Ok tt, w1, [EvSlot t waits]) /\
    world_ok w1 /\ server w1 = server w /\ sent w1 = sent w.
Proof.
  intros Hok. unfold RATE_LIMITER_wait_for_slot.
  destruct (LimiterFacts.wait_for_slot_returns Limiter.module_config fuel
              (RATE_LIMITER w) (clock w)) as [[[rl c] s] Hr];
    [reflexivity|reflexivity|exact Hok|exact fuel_enough|].
  rewrite Hr. do 3 eexists. split; [reflexivity|].
  split; [|split; reflexivity].
  unfold world_ok. simpl.
  eapply LimiterFacts.wait_for_slot_within; eassumption.
Qed.

(** An attempt that meets a transport failure: one slot, one request, and
    the exception leaves [_get]. *)
Lemma attempt_transport (u : url) (params : option (list (string * Z)))
    (backoff_sec attempt : Z) (rest : list Z) (w : World) (kind : string) :
  world_ok w ->
  server w (sent w) {| req_url := u; req_params := params |}
    = Transport kind ->
  exists t waits w1,
    _get_attempts fuel float u params backoff_sec (attempt :: rest) w
    = (Raise (RequestException kind), w1,
       [EvSlot t waits; EvGet {| req_url := u; req_params := params |}]) /\
    world_ok w1 /\ sent w1 = S (sent w).
Proof.
  intros Hok Hs. rewrite get_attempts_step.
  destruct (LimiterFacts.wait_for_slot_returns Limiter.module_config fuel
              (RATE_LIMITER w) (clock w)) as [[[rl c] s] Hr];
    [reflexivity|reflexivity|exact Hok|exact fuel_enough|].
  rewrite Hr, Hs. cbv zeta. do 3 eexists. split; [reflexivity|].
  split; [|reflexivity].
  unfold world_ok. simpl.
  eapply LimiterFacts.wait_for_slot_within; eassumption.
Qed.

(** An attempt that meets a response: one slot, one request, then the
    dispatch on the response. *)
Lemma attempt_reply (u : url) (params : option (list (string * Z)))
    (backoff_sec attempt : Z) (rest : list Z) (w : World) (resp : Response) :
  world_ok w ->
  server w (sent w) {| req_url := u; req_params := params |} = Reply resp ->
  exists t waits w1,
    _get_attempts fuel float u params backoff_sec (attempt :: rest) w
    = after [EvSlot t waits; EvGet {| req_url := u; req_params := params |}]
        (dispatch fuel float u params backoff_sec resp attempt rest w1) /\
    world_ok w1 /\ server w1 = server w /\ sent w1 = S (sent w).
Proof.
  intros Hok Hs. rewrite get_attempts_step.
  destruct (LimiterFacts.wait_for_slot_returns Limiter.module_config fuel
              (RATE_LIMITER w) (clock w)) as [[[rl c] s] Hr];
    [reflexivity|reflexivity|exact Hok|exact fuel_enough|].
  rewrite Hr, Hs. cbv zeta. do 3 eexists. split; [reflexivity|].
  split; [|split; reflexivity].
  unfold world_ok. simpl.
  eapply LimiterFacts.wait_for_slot_within; eassumption.
Qed.

(** A retried response: the client sleeps the delay and goes to the next
    attempt. *)
Lemma dispatch_retry (u : url) (params : option (list (string * Z)))
    (backoff_sec : Z) (resp : Response) (attempt d : Z) (rest : list Z)
    (w : World) :
  retry_delay float resp backoff_sec attempt = Some d ->
  exists w1,
    dispatch fuel float u params backoff_sec resp attempt rest w
    = after [EvSleep d]
        (_get_attempts fuel float u params backoff_sec rest w1) /\
    (world_ok w -> world_ok w1) /\ server w1 = server w /\ sent w1 = sent w.
Proof.
  unfold retry_delay, dispatch. intros Hd.
  destruct (status_code resp =? 429).
  - destruct (sleep_429 float resp backoff_sec attempt) as [[d'|neg|]|e]
      eqn:Es; try discriminate.
    destruct ((0 <=? d') && (d' <=? SLEEP_MAX)) eqn:En; [|discriminate].
    injection Hd as ->. apply andb_true_iff in En. destruct En as [E1 E2].
    apply Z.leb_le in E1, E2.
    destruct (time_sleep_done d w (conj E1 E2))
      as (w1 & Hs & Hok & Hsrv & Hsent).
    exists w1. split; [|auto].
    rewrite (bind_lift_val _ (Finite d) _ _ eq_refl).
    now rewrite (bind_ok _ _ _ _ _ _ Hs).
  - destruct ((500 <=? status_code resp) && (status_code resp <? 600));
      [|discriminate].
    destruct ((0 <=? backoff_sec * attempt)
              && (backoff_sec * attempt <=? SLEEP_MAX)) eqn:En;
      [|discriminate].
    injection Hd as <-. apply andb_true_iff in En. destruct En as [E1 E2].
    apply Z.leb_le in E1, E2.
    destruct (time_sleep_done _ w (conj E1 E2))
      as (w1 & Hs & Hok & Hsrv & Hsent).
    exists w1. split; [|auto].
    now rewrite (bind_ok _ _ _ _ _ _ Hs).
Qed.

Lemma attempt_retry (u : url) (params : option (list (string * Z)))
    (backoff_sec attempt d : Z) (rest : list Z) (w : World)
    (resp : Response) :
  world_ok w ->
  server w (sent w) {| req_url := u; req_params := params |} = Reply resp ->
  retry_delay float resp backoff_sec attempt = Some d ->
  exists t waits w1,
    _get_attempts fuel float u params backoff_sec (attempt :: rest) w
    = after [EvSlot t waits; EvGet {| req_url := u; req_params := params |};
             EvSleep d]
        (_get_attempts fuel float u params backoff_sec rest w1) /\
    world_ok w1 /\ server w1 = server w /\ sent w1 = S (sent w).
Proof.
  intros Hok Hs Hd.
  destruct (attempt_reply u params backoff_sec attempt rest w resp Hok Hs)
    as (t & waits & w1 & Heq & Hok1 & Hsrv1 & Hsent1).
  destruct (dispatch_retry u params backoff_sec resp attempt d rest w1 Hd)
    as (w2 & Heq2 & Hok2 & Hsrv2 & Hsent2).
  exists t, waits, w2. rewrite Heq, Heq2, after_after. simpl.
  split; [reflexivity|]. split; [auto|]. split; congruence.
Qed.

(** A response that is neither a 429 nor a 5xx ends the call with this
    attempt: the decoded body or the failure, no sleep, no further
    request. *)
Lemma attempt_final (u : url) (params : option (list (string * Z)))
    (backoff_sec attempt : Z) (rest : list Z) (w : World) (resp : Response) :
  world_ok w ->
  server w (sent w) {| req_url := u; req_params := params |} = Reply resp ->
  status_code resp <> 429 ->
  ~ (500 <= status_code resp < 600) ->
  exists t waits w1,
    _get_attempts fuel float u params backoff_sec (attempt :: rest) w
    = (if resp_ok resp
       then Ok (match json_body resp with Some j => j | None => JObj [] end)
       else Raise (RuntimeError
                     (GetFailed u (status_code resp) (error_body resp))),
       w1,
       [EvSlot t waits; EvGet {| req_url := u; req_params := params |}]) /\
    world_ok w1 /\ server w1 = server w /\ sent w1 = S (sent w).
Proof.
  intros Hok Hs H429 H5.
  destruct (attempt_reply u params backoff_sec attempt rest w resp Hok Hs)
    as (t & waits & w1 & Heq & Hok1 & Hsrv1 & Hsent1).
  exists t, waits, w1. split; [|auto].
  now rewrite Heq, dispatch_final.
Qed.


(** A success: the decoded body, or an empty dict when it does not decode. *)
Lemma attempt_success (u : url) (params : option (list (string * Z)))
    (backoff_sec attempt : Z) (rest : list Z) (w : World) (resp : Response) :
  world_ok w ->
  server w (sent w) {| req_url := u; req_params := params |} = Reply resp ->
  status_code resp < 400 ->
  exists t waits w1,
    _get_attempts fuel float u params backoff_sec (attempt :: rest) w
    = (Ok (match json_body resp with Some j => j | None => JObj [] end), w1,
       [EvSlot t waits; EvGet {| req_url := u; req_params := params |}]) /\
    world_ok w1 /\ server w1 = server w /\ sent w1 = S (sent w).
Proof.
  intros Hok Hs Hlt.
  destruct (attempt_final u params backoff_sec attempt rest w resp Hok Hs)
    as (t & waits & w1 & Heq & H); [lia|lia|].
  exists t, waits, w1. split; [|exact H]. rewrite Heq. unfold resp_ok.
  assert (E3 : (400 <=? status_code resp) = false) by (apply Z.leb_gt; lia).
  now rewrite E3.
Qed.

Lemma sleep_429_raises (resp : Response) (backoff_sec attempt : Z) (e : exn) :
  sleep_429 float resp backoff_sec attempt = Exc e -> e = ValueError.
Proof.
  unfold sleep_429. destruct (retry_after resp) as [ra|]; [|discriminate].
  destruct (negb (String.eqb ra "")); [|discriminate].
  destruct (float ra); [discriminate|]. now intros [= <-].
Qed.

Lemma get_outcome_after (evs : list event)
    (x : Result json * World * list event) :
  get_outcome x -> outs_of evs = [] -> errs_of evs = [] ->
  slots evs = gets evs ->
  get_outcome (after evs x).
Proof.
  intros (Hw & Hr & Ho & He & Hs) Ho' He' Hs'.
  destruct x as [[r w] t]. unfold get_outcome, after in *. simpl in *.
  unfold outs_of, errs_of, slots, gets in *.
  rewrite !flat_map_app, !filter_app, !length_app, Ho, He, Ho', He', Hs, Hs'.
  auto.
Qed.

Lemma get_outcome_sleep_then (x : pyfloat) (k : M json) (w : World) :
  world_ok w -> (forall w', world_ok w' -> get_outcome (k w')) ->
  get_outcome ((time_sleep x ;;; k) w).
Proof.
  intros Hok Hk.
  destruct (time_sleep_cases x w)
    as [(d & w1 & _ & _ & Hs & Hok1 & _)|[_ [Hs|Hs]]].
  - rewrite (bind_ok _ _ _ _ _ _ Hs). apply get_outcome_after; auto.
  - rewrite (bind_raise _ _ _ _ _ _ Hs). unfold get_outcome. simpl. auto 6.
  - rewrite (bind_raise _ _ _ _ _ _ Hs). unfold get_outcome. simpl. auto 6.
Qed.

Lemma get_outcome_dispatch (u : url) (params : option (list (string * Z)))
    (backoff_sec : Z) (resp : Response) (attempt : Z) (rest : list Z)
    (w : World) :
  world_ok w ->
  (forall w', world_ok w' ->
     get_outcome (_get_attempts fuel float u params backoff_sec rest w')) ->
  get_outcome (dispatch fuel float u params backoff_sec resp attempt rest w).
Proof.
  intros Hok IH. unfold dispatch.
  destruct (status_code resp =? 429).
  - destruct (sleep_429 float resp backoff_sec attempt) as [d|e] eqn:Es.
    + rewrite (bind_lift_val _ d _ _ eq_refl).
      now apply get_outcome_sleep_then.
    + rewrite (bind_lift_exc _ e _ _ eq_refl).
      apply sleep_429_raises in Es. subst e.
      unfold get_outcome. simpl. auto 6.
  - destruct ((500 <=? status_code resp) && (status_code resp <? 600)).
    + now apply get_outcome_sleep_then.
    + destruct (resp_ok resp); unfold get_outcome; simpl; auto 6.
Qed.

(** However a call of [_get] goes, it ends, with a value or one of its own
    exceptions, writes nothing, and has taken one slot per request sent. *)
Lemma get_attempts_outcome (u : url) (params : option (list (string * Z)))
    (backoff_sec : Z) (attempts : list Z) :
  forall w, world_ok w ->
    get_outcome (_get_attempts fuel float u params backoff_sec attempts w).
Proof.
  induction attempts as [|attempt rest IH]; intros w Hok.
  - unfold get_outcome. simpl. auto 6.
  - destruct (server w (sent w) {| req_url := u; req_params := params |})
      as [kind|resp] eqn:Hs.
    + destruct (attempt_transport u params backoff_sec attempt rest w kind
                  Hok Hs) as (t & waits & w1 & Heq & Hok1 & _).
      rewrite Heq. unfold get_outcome. simpl. auto 6.
    + destruct (attempt_reply u params backoff_sec attempt rest w resp
                  Hok Hs) as (t & waits & w1 & Heq & Hok1 & _).
      rewrite Heq. apply get_outcome_after; try reflexivity.
      now apply get_outcome_dispatch.
Qed.


Lemma attempts_range_length (n : Z) :
  List.length (attempts_range n) = Z.to_nat n.
Proof. unfold attempts_range. now rewrite length_map, length_seq. Qed.

Lemma attempts_range_first (n : Z) :
  1 <= n -> exists rest, attempts_range n = 1 :: rest.
Proof.
  intros Hn. unfold attempts_range.
  destruct (Z.to_nat n) as [|k] eqn:E; [lia|].
  simpl. eexists; reflexivity.
Qed.

(** C3, as the code has it.  A transport failure is not retried: whichever
    attempt meets it, the exception leaves [_get] from that attempt, after the
    one slot and the one request of the attempt, with no sleep and no further
    attempt; so it does from the first attempt of a call.  And only a
    response with status 429 or 5xx leads to a further attempt: after any
    other outcome (a transport failure, a success, another failed status)
    the call is over with that attempt, having taken one slot, sent one
    request and slept not at all. *)
Theorem transport_failure_leaves_get (self : RiotClient) (u : url)
    (params : option (list (string * Z))) (max_retries backoff_sec : Z)
    (w : World) :
  world_ok w ->
  (forall kind,
     server w (sent w) {| req_url := u; req_params := params |}
       = Transport kind ->
     (forall attempt rest, exists t waits w1,
        _get_attempts fuel float u params backoff_sec (attempt :: rest) w
        = (Raise (RequestException kind), w1,
           [EvSlot t waits;
            EvGet {| req_url := u; req_params := params |}])) /\
     (1 <= max_retries -> exists t waits w1,
        _get fuel float self u params max_retries backoff_sec w
        = (Raise (RequestException kind), w1,
           [EvSlot t waits;
            EvGet {| req_url := u; req_params := params |}]))) /\
  ((forall resp,
      server w (sent w) {| req_url := u; req_params := params |}
        = Reply resp ->
      status_code resp <> 429 /\ ~ (500 <= status_code resp < 600)) ->
   forall attempt rest, exists res t waits w1,
     _get_attempts fuel float u params backoff_sec (attempt :: rest) w
     = (res, w1,
        [EvSlot t waits; EvGet {| req_url := u; req_params := params |}]) /\
     res <> Hang).
Proof.
  intros Hok. split.
  - intros kind Hs. split.
    + intros attempt rest.
      destruct (attempt_transport u params backoff_sec attempt rest w kind
                  Hok Hs) as (t & waits & w1 & Heq & _).
      now exists t, waits, w1.
    + intros Hn. destruct (attempts_range_first max_retries Hn) as [rest Hr].
      unfold _get. rewrite Hr.
      destruct (attempt_transport u params backoff_sec 1 rest w kind
                  Hok Hs) as (t & waits & w1 & Heq & _).
      now exists t, waits, w1.
  - intros Hnot attempt rest.
    destruct (server w (sent w) {| req_url := u; req_params := params |})
      as [kind|resp] eqn:Hs.
    + destruct (attempt_transport u params backoff_sec attempt rest w kind
                  Hok Hs) as (t & waits & w1 & Heq & _).
      eexists; exists t, waits, w1. split; [exact Heq|discriminate].
    + destruct (Hnot resp eq_refl) as [H429 H5].
      destruct (attempt_final u params backoff_sec attempt rest w resp Hok
                  Hs H429 H5) as (t & waits & w1 & Heq & _).
      eexists; exists t, waits, w1. split; [exact Heq|].
      destruct (resp_ok resp); discriminate.
Qed.


(** C5, as the code has it.  From a world within limits, an attempt that
    meets a 429: with a [Retry-After] header that [float] reads as a
    duration [time.sleep] takes, it sleeps that duration and goes to the
    next attempt; without the header, or with an empty one, it sleeps
    [max(1.0, backoff_sec * attempt * 5)] and goes to the next attempt; with
    a header that is no such duration (a date, a negative number, nan, an
    infinity, a number beyond what [time.sleep] takes) a [ValueError] or an
    [OverflowError] leaves [_get] from that attempt, without a sleep or a
    further request; and over a whole call every request, a retry after a
    429 included, comes right after the one slot it has taken. *)
Theorem get_429_sleeps_retry_after_or_backoff (u : url)
    (params : option (list (string * Z))) (backoff_sec : Z) (w : World)
    (resp : Response) :
  world_ok w ->
  server w (sent w) {| req_url := u; req_params := params |} = Reply resp ->
  status_code resp = 429 ->
  (forall attempt rest ra d,
     retry_after resp = Some ra -> ra <> ""%string ->
     float ra = Some (Finite d) -> 0 <= d <= SLEEP_MAX ->
     exists t waits w1,
       _get_attempts fuel float u params backoff_sec (attempt :: rest) w
       = after [EvSlot t waits;
                EvGet {| req_url := u; req_params := params |};
                EvSleep d]
           (_get_attempts fuel float u params backoff_sec rest w1) /\
       world_ok w1 /\ server w1 = server w /\ sent w1 = S (sent w)) /\
  (forall attempt rest,
     retry_after resp = None \/ retry_after resp = Some ""%string ->
     Z.max 1000 (backoff_sec * attempt * 5) <= SLEEP_MAX ->
     exists t waits w1,
       _get_attempts fuel float u params backoff_sec (attempt :: rest) w
       = after [EvSlot t waits;
                EvGet {| req_url := u; req_params := params |};
                EvSleep (Z.max 1000 (backoff_sec * attempt * 5))]
           (_get_attempts fuel float u params backoff_sec rest w1) /\
       world_ok w1 /\ server w1 = server w /\ sent w1 = S (sent w)) /\
  (forall attempt rest ra,
     retry_after resp = Some ra -> ra <> ""%string ->
     (forall d, float ra = Some (Finite d) -> d < 0 \/ SLEEP_MAX < d) ->
     exists e t waits w1,
       _get_attempts fuel float u params backoff_sec (attempt :: rest) w
       = (Raise e, w1,
          [EvSlot t waits;
           EvGet {| req_url := u; req_params := params |}]) /\
       (e = ValueError \/ e = OverflowError)) /\
  (forall attempts,
     slots (events_of
              (_get_attempts fuel float u params backoff_sec attempts w))
     = gets (events_of
               (_get_attempts fuel float u params backoff_sec attempts w)) /\
     paired (events_of
               (_get_attempts fuel float u params backoff_sec attempts w))
     = true).
Proof.
  intros Hok Hs H429. split; [|split; [|split]].
  - intros attempt rest ra d Hra Hne Hf Hd.
    apply (attempt_retry u params backoff_sec attempt d rest w resp Hok Hs).
    unfold retry_delay, sleep_429. rewrite H429, Hra. simpl.
    apply String.eqb_neq in Hne. rewrite Hne, Hf. simpl.
    assert (E : (0 <=? d) && (d <=? SLEEP_MAX) = true).
    { apply andb_true_iff. split; apply Z.leb_le; lia. }
    now rewrite E.
  - intros attempt rest Hra Hm.
    apply (attempt_retry u params backoff_sec attempt _ rest w resp Hok Hs).
    unfold retry_delay, sleep_429. rewrite H429.
    assert (E : (0 <=? Z.max 1000 (backoff_sec * attempt * 5))
                && (Z.max 1000 (backoff_sec * attempt * 5) <=? SLEEP_MAX)
                = true).
    { apply andb_true_iff. split; apply Z.leb_le; lia. }
    destruct Hra as [-> | ->]; simpl; now rewrite E.
  - intros attempt rest ra Hra Hne Hbad.
    destruct (attempt_reply u params backoff_sec attempt rest w resp Hok Hs)
      as (t & waits & w1 & Heq & _).
    rewrite Heq. unfold dispatch, sleep_429. rewrite H429, Hra. simpl.
    apply String.eqb_neq in Hne. rewrite Hne. simpl.
    destruct (float ra) as [x|] eqn:Hf.
    + rewrite (bind_lift_val _ x _ _ eq_refl).
      destruct (time_sleep_cases x w1)
        as [(d & w2 & -> & [Hd1 Hd2] & _)|[_ [Hsl|Hsl]]].
      * destruct (Hbad d eq_refl); lia.
      * rewrite (bind_raise _ _ _ _ _ _ Hsl).
        exists ValueError, t, waits, w1. split; [reflexivity|now left].
      * rewrite (bind_raise _ _ _ _ _ _ Hsl).
        exists OverflowError, t, waits, w1. split; [reflexivity|now right].
    + rewrite (bind_lift_exc _ ValueError _ _ eq_refl).
      exists ValueError, t, waits, w1. split; [reflexivity|now left].
  - intros attempts. split.
    + now destruct (get_attempts_outcome u params backoff_sec attempts w Hok)
        as (_ & _ & _ & _ & H).
    + apply get_attempts_paired.
Qed.

End ClientFacts.

Lemma fresh_world_ok (srv : nat -> request -> Outcome) :
  world_ok (fresh_world srv).
Proof.
  unfold world_ok, fresh_world, Limiter.within_limits. simpl.
  change (Limiter.len []) with 0. lia.
Qed.

(** C3 as stated fails: the first attempt times out, the service would have
    answered the second, and [_get] has sent one request only. *)
Lemma transport_failure_not_retried :
  ~ transport_failure_retried 3 float_of_integer.
Proof.
  intros H.
  specialize (H example_client example_url None (fresh_world timeout_then_ok)
                "ReadTimeout"%string (fresh_world_ok _) eq_refl).
  vm_compute in H. lia.
Qed.

Lemma transport_failure_leaves_get_witness :
  (exists t waits w1,
     _get_attempts 3 float_of_integer example_url None 1000 [2; 3]
       (fresh_world timeout_then_ok)
     = (Raise (RequestException "ReadTimeout"), w1,
        [EvSlot t waits; EvGet example_request])) /\
  (exists t waits w1,
     _get 3 float_of_integer example_client example_url None 3 1000
       (fresh_world timeout_then_ok)
     = (Raise (RequestException "ReadTimeout"), w1,
        [EvSlot t waits; EvGet example_request])) /\
  (exists res t waits w1,
     _get_attempts 3 float_of_integer example_url None 1000 [1; 2; 3]
       (fresh_world always_404)
     = (res, w1, [EvSlot t waits; EvGet example_request]) /\
     res <> Hang).
Proof.
  destruct (transport_failure_leaves_get 3 float_of_integer (le_n 3)
              example_client example_url None 3 1000
              (fresh_world timeout_then_ok) (fresh_world_ok _)) as [H1 _].
  destruct (H1 "ReadTimeout"%string eq_refl) as [Ha Hb].
  destruct (transport_failure_leaves_get 3 float_of_integer (le_n 3)
              example_client example_url None 3 1000
              (fresh_world always_404) (fresh_world_ok _)) as [_ H2].
  split; [apply Ha|split; [apply Hb; lia|apply H2]].
  intros resp [= <-]. simpl. split; [discriminate|lia].
Defined.


(** C5 as stated fails: the 429 carries a [Retry-After] that is a date, the
    service would have answered the second attempt, and [_get] has sent one
    request only and has not slept. *)
Lemma retry_after_date_not_slept :
  ~ retry_after_slept 3 float_of_signed.
Proof.
  intros H.
  destruct (H example_client example_url None
              (fresh_world (once_429 "Wed, 21 Oct 2015 07:28:00 GMT"))
              {| status_code := 429;
                 retry_after := Some "Wed, 21 Oct 2015 07:28:00 GMT"%string;
                 json_body := None; text := "" |}
              "Wed, 21 Oct 2015 07:28:00 GMT"%string
              (fresh_world_ok _) eq_refl eq_refl eq_refl)
    as [_ Hg]; [discriminate|].
  vm_compute in Hg. lia.
Qed.

Lemma get_429_sleeps_retry_after_or_backoff_witness :
  (exists t waits w1,
     _get_attempts 3 float_of_signed example_url None 1000 [1; 2; 3]
       (fresh_world always_429_after_2)
     = after [EvSlot t waits; EvGet example_request; EvSleep 2000]
         (_get_attempts 3 float_of_signed example_url None 1000 [2; 3] w1) /\
     world_ok w1 /\ server w1 = always_429_after_2 /\ sent w1 = 1%nat) /\
  (exists t waits w1,
     _get_attempts 3 float_of_signed example_url None 1000 [2; 3]
       (fresh_world always_429_bare)
     = after [EvSlot t waits; EvGet example_request; EvSleep 10000]
         (_get_attempts 3 float_of_signed example_url None 1000 [3] w1) /\
     world_ok w1 /\ server w1 = always_429_bare /\ sent w1 = 1%nat) /\
  (exists e t waits w1,
     _get_attempts 3 float_of_signed example_url None 1000 [1; 2; 3]
       (fresh_world always_429_date)
     = (Raise e, w1, [EvSlot t waits; EvGet example_request]) /\
     (e = ValueError \/ e = OverflowError)) /\
  (exists e t waits w1,
     _get_attempts 3 float_of_signed example_url None 1000 [1; 2; 3]
       (fresh_world (once_429 "-inf"))
     = (Raise e, w1, [EvSlot t waits; EvGet example_request]) /\
     (e = ValueError \/ e = OverflowError)) /\
  slots (events_of
           (_get_attempts 3 float_of_signed example_url None 1000 [1; 2; 3]
              (fresh_world always_429_after_2)))
  = gets (events_of
            (_get_attempts 3 float_of_signed example_url None 1000 [1; 2; 3]
               (fresh_world always_429_after_2))) /\
  paired (events_of
            (_get_attempts 3 float_of_signed example_url None 1000 [1; 2; 3]
               (fresh_world always_429_after_2))) = true.
Proof.
  destruct (get_429_sleeps_retry_after_or_backoff 3 float_of_signed
              (le_n 3) example_url None 1000
              (fresh_world always_429_after_2)
              {| status_code := 429; retry_after := Some "2"%string;
                 json_body := None; text := "" |}
              (fresh_world_ok _) eq_refl eq_refl) as (Ha & _ & _ & Hd).
  destruct (get_429_sleeps_retry_after_or_backoff 3 float_of_signed
              (le_n 3) example_url None 1000
              (fresh_world always_429_bare)
              {| status_code := 429; retry_after := None;
                 json_body := None; text := "" |}
              (fresh_world_ok _) eq_refl eq_refl) as (_ & Hb & _ & _).
  destruct (get_429_sleeps_retry_after_or_backoff 3 float_of_signed
              (le_n 3) example_url None 1000
              (fresh_world always_429_date)
              {| status_code := 429;
                 retry_after := Some "Wed, 21 Oct 2015 07:28:00 GMT"%string;
                 json_body := None; text := "" |}
              (fresh_world_ok _) eq_refl eq_refl) as (_ & _ & Hc & _).
  destruct (get_429_sleeps_retry_after_or_backoff 3 float_of_signed
              (le_n 3) example_url None 1000
              (fresh_world (once_429 "-inf"))
              {| status_code := 429; retry_after := Some "-inf"%string;
                 json_body := None; text := "" |}
              (fresh_world_ok _) eq_refl eq_refl) as (_ & _ & Hi & _).
  split; [|split; [|split; [|split]]].
  - apply (Ha 1 [2; 3] "2"%string 2000);
      [reflexivity|discriminate|reflexivity|unfold SLEEP_MAX; lia].
  - apply (Hb 2 [3]); [now left|unfold SLEEP_MAX; lia].
  - apply (Hc 1 [2; 3] "Wed, 21 Oct 2015 07:28:00 GMT"%string);
      [reflexivity|discriminate|discriminate].
  - apply (Hi 1 [2; 3] "-inf"%string);
      [reflexivity|discriminate|discriminate].
  - apply Hd.
Defined.

(** ** More on the client: successes, request budget, header edge cases *)

Section ClientExtra.

Variable fuel : nat.
Variable float : string -> option pyfloat.
Hypothesis fuel_enough : (3 <= fuel)%nat.

Lemma resp_ok_not_retried (resp : Response) :
  resp_ok resp = true ->
  (status_code resp =? 429) = false /\
  (500 <=? status_code resp) && (status_code resp <? 600) = false.
Proof.
  unfold resp_ok. intros H. apply negb_true_iff in H.
  apply andb_false_iff in H. split.
  - apply Z.eqb_neq. intros E. rewrite E in H. destruct H; discriminate.
  - apply andb_false_iff. destruct H as [H|H]; [left|right; exact H].
    apply Z.leb_gt in H. apply Z.leb_gt. lia.
Qed.

(** A successful first response ends the default call [get]. *)
Lemma get_first_ok (self : RiotClient) (u : url)
    (params : option (list (string * Z))) (w : World) (resp : Response) :
  world_ok w ->
  server w (sent w) {| req_url := u; req_params := params |} = Reply resp ->
  resp_ok resp = true ->
  exists t waits w1,
    get fuel float self u params w
    = (Ok (match json_body resp with Some j => j | None => JObj [] end), w1,
       [EvSlot t waits; EvGet {| req_url := u; req_params := params |}]) /\
    world_ok w1 /\ server w1 = server w /\ sent w1 = S (sent w).
Proof.
  intros Hok Hs Hr. unfold get, _get.
  change (attempts_range 3) with [1; 2; 3].
  destruct (attempt_reply fuel float fuel_enough u params 1000 1 [2; 3]
              w resp Hok Hs) as (t & waits & w1 & Heq & Hok1 & Hsrv & Hsent).
  exists t, waits, w1. split; [|auto]. rewrite Heq.
  unfold dispatch. destruct (resp_ok_not_retried resp Hr) as [E1 E2].
  now rewrite E1, E2, Hr.
Qed.

(** X6.  A call whose first response is a success ([resp.ok]) returns the
    decoded body, or an empty dict when the body does not decode, after one
    slot and one request and without any sleep. *)
Theorem get_returns_body_or_empty_dict (self : RiotClient) (u : url)
    (params : option (list (string * Z))) (max_retries backoff_sec : Z)
    (w : World) (resp : Response) :
  world_ok w -> 1 <= max_retries ->
  server w (sent w) {| req_url := u; req_params := params |} = Reply resp ->
  resp_ok resp = true ->
  exists t waits w1,
    _get fuel float self u params max_retries backoff_sec w
    = (Ok (match json_body resp with Some j => j | None => JObj [] end), w1,
       [EvSlot t waits; EvGet {| req_url := u; req_params := params |}]) /\
    sent w1 = S (sent w).
Proof.
  intros Hok Hn Hs Hr.
  destruct (attempts_range_first fuel fuel_enough max_retries Hn)
    as [rest Hrest].
  unfold _get. rewrite Hrest.
  destruct (attempt_reply fuel float fuel_enough u params backoff_sec 1 rest
              w resp Hok Hs) as (t & waits & w1 & Heq & _ & _ & Hsent).
  exists t, waits, w1. split; [|exact Hsent]. rewrite Heq.
  unfold dispatch. destruct (resp_ok_not_retried resp Hr) as [E1 E2].
  now rewrite E1, E2, Hr.
Qed.

Lemma request_budget_after (r : request) (n : nat) (w0 w1 : World)
    (t : Z) (waits : list Z) (x : Result json * World * list event) :
  sent w1 = S (sent w0) -> server w1 = server w0 ->
  request_budget r n w1 x ->
  request_budget r (S n) w0 (after [EvSlot t waits; EvGet r] x).
Proof.
  intros Hs Hv (Hg & Hl & Hsent & Hsrv & Hall).
  destruct x as [[res w'] evs].
  unfold request_budget, after, world_of, events_of, gets, slots in *.
  simpl in *. repeat split; try lia; try congruence.
  constructor; [discriminate|]. constructor; [reflexivity|exact Hall].
Qed.

Lemma request_budget_sleep_then (r : request) (n : nat) (x : pyfloat)
    (k : M json) (w : World) :
  (forall w', sent w' = sent w -> server w' = server w ->
     (world_ok w -> world_ok w') -> request_budget r n w' (k w')) ->
  request_budget r n w ((time_sleep x ;;; k) w).
Proof.
  intros Hk.
  destruct (time_sleep_cases x w)
    as [(d & w1 & _ & _ & Hs & Hok1 & Hsrv & Hsent)|[_ [Hs|Hs]]].
  - rewrite (bind_ok _ _ _ _ _ _ Hs).
    specialize (Hk w1 Hsent Hsrv Hok1).
    destruct (k w1) as [[res w'] evs].
    unfold request_budget, after, world_of, events_of, gets, slots in *.
    simpl in *. destruct Hk as (Hg & Hl & Hse & Hsv & Hall).
    repeat split; try lia; try congruence.
    constructor; [discriminate|exact Hall].
  - rewrite (bind_raise _ _ _ _ _ _ Hs).
    unfold request_budget, gets, slots. simpl. repeat split; auto; lia.
  - rewrite (bind_raise _ _ _ _ _ _ Hs).
    unfold request_budget, gets, slots. simpl. repeat split; auto; lia.
Qed.

Lemma request_budget_weaken (r : request) (n m : nat) (w0 : World)
    (x : Result json * World * list event) :
  (n <= m)%nat -> request_budget r n w0 x -> request_budget r m w0 x.
Proof.
  intros Hle (Hg & H). split; [lia|exact H].
Qed.

Lemma attempt_transport_world (u : url) (params : option (list (string * Z)))
    (backoff_sec attempt : Z) (rest : list Z) (w : World) (kind : string) :
  world_ok w ->
  server w (sent w) {| req_url := u; req_params := params |}
    = Transport kind ->
  exists t waits w1,
    _get_attempts fuel float u params backoff_sec (attempt :: rest) w
    = (Raise (RequestException kind), w1,
       [EvSlot t waits; EvGet {| req_url := u; req_params := params |}]) /\
    server w1 = server w /\ sent w1 = S (sent w).
Proof.
  intros Hok Hs. rewrite get_attempts_step.
  destruct (LimiterFacts.wait_for_slot_returns Limiter.module_config fuel
              (RATE_LIMITER w) (clock w)) as [[[rl c] s] Hr];
    [reflexivity|reflexivity|exact Hok|exact fuel_enough|].
  rewrite Hr, Hs. cbv zeta. do 3 eexists. split; [reflexivity|].
  split; reflexivity.
Qed.

(** A call sends at most one request per attempt, always the same one. *)
Lemma get_attempts_budget (u : url) (params : option (list (string * Z)))
    (backoff_sec : Z) (attempts : list Z) :
  forall w, world_ok w ->
    request_budget {| req_url := u; req_params := params |}
      (List.length attempts) w
      (_get_attempts fuel float u params backoff_sec attempts w).
Proof.
  induction attempts as [|attempt rest IH]; intros w Hok.
  - unfold request_budget, gets, slots. simpl. repeat split; auto; lia.
  - destruct (server w (sent w) {| req_url := u; req_params := params |})
      as [kind|resp] eqn:Hs.
    + destruct (attempt_transport_world u params backoff_sec attempt rest w
                  kind Hok Hs) as (t & waits & w1 & Heq & Hsrv & Hsent).
      rewrite Heq. unfold request_budget, gets, slots, world_of, events_of.
      simpl. repeat split; try lia; try assumption.
      constructor; [discriminate|]. constructor; [reflexivity|constructor].
    + destruct (attempt_reply fuel float fuel_enough u params backoff_sec
                  attempt rest w resp Hok Hs)
        as (t & waits & w1 & Heq & Hok1 & Hsrv & Hsent).
      rewrite Heq. cbn [List.length].
      apply request_budget_after with w1; [exact Hsent|exact Hsrv|].
      unfold dispatch.
      destruct (status_code resp =? 429).
      * destruct (sleep_429 float resp backoff_sec attempt) as [d|e].
        -- rewrite (bind_lift_val _ d _ _ eq_refl).
           apply request_budget_sleep_then. intros w' Hs' Hv' Hok'.
           apply IH. now apply Hok'.
        -- rewrite (bind_lift_exc _ e _ _ eq_refl).
           unfold request_budget, gets, slots. simpl.
           repeat split; auto; lia.
      * destruct ((500 <=? status_code resp) && (status_code resp <? 600)).
        -- apply request_budget_sleep_then. intros w' Hs' Hv' Hok'.
           apply IH. now apply Hok'.
        -- destruct (resp_ok resp); unfold request_budget, gets, slots;
             simpl; repeat split; auto; lia.
Qed.

(** X7.  A call of [_get] from a world within limits sends at most
    [max_retries] requests (none when [max_retries] is not positive), each
    one the same url and parameters and each right after the slot it took
    from the limiter, and it ends with a value or with one of its own
    failures: a failed status, exhausted retries, a transport exception, or
    the [ValueError] or [OverflowError] of a sleep. *)
Theorem get_request_budget (self : RiotClient) (u : url)
    (params : option (list (string * Z))) (max_retries backoff_sec : Z)
    (w : World) :
  world_ok w ->
  request_budget {| req_url := u; req_params := params |}
    (Z.to_nat max_retries) w
    (_get fuel float self u params max_retries backoff_sec w) /\
  paired (events_of (_get fuel float self u params max_retries backoff_sec w))
  = true /\
  match result_of (_get fuel float self u params max_retries backoff_sec w)
  with
  | Ok _ => True
  | Raise (RuntimeError (GetFailed _ _ _)) => True
  | Raise (RuntimeError (RetriesExhausted _)) => True
  | Raise (RequestException _) => True
  | Raise ValueError => True
  | Raise OverflowError => True
  | _ => False
  end.
Proof.
  intros Hok. unfold _get. split; [|split].
  - rewrite <- (attempts_range_length max_retries).
    now apply get_attempts_budget.
  - apply get_attempts_paired.
  - destruct (get_attempts_outcome fuel float fuel_enough u params
                backoff_sec (attempts_range max_retries) w Hok)
      as (_ & Hr & _).
    destruct (result_of _) as [a|e|]; auto.
Qed.

(** X8.  The [Retry-After] header of a 429 at its edges.  A value that
    [float] does not read (a date), that it reads as nan, or as a negative
    number that [time.sleep] can convert, makes a [ValueError] leave [_get]
    from that attempt; a value read as an infinity, or as a number beyond
    what [time.sleep] can convert, of either sign, makes an
    [OverflowError] leave it; in each case after the slot and the request of
    the attempt and without a sleep.  An empty value counts as no header,
    and the client sleeps [max(1.0, backoff_sec * attempt * 5)]. *)
Theorem retry_after_edge_cases (u : url)
    (params : option (list (string * Z))) (backoff_sec attempt : Z)
    (rest : list Z) (w : World) (resp : Response) (ra : string) :
  world_ok w ->
  server w (sent w) {| req_url := u; req_params := params |} = Reply resp ->
  status_code resp = 429 -> retry_after resp = Some ra ->
  (ra <> ""%string ->
   float ra = None \/ float ra = Some NaN \/
   (exists d, float ra = Some (Finite d) /\ - SLEEP_MAX <= d < 0) ->
   exists t waits w1,
     _get_attempts fuel float u params backoff_sec (attempt :: rest) w
     = (Raise ValueError, w1,
        [EvSlot t waits; EvGet {| req_url := u; req_params := params |}])) /\
  (ra <> ""%string ->
   (exists negative, float ra = Some (Infinite negative)) \/
   (exists d, float ra = Some (Finite d) /\
              (d < - SLEEP_MAX \/ SLEEP_MAX < d)) ->
   exists t waits w1,
     _get_attempts fuel float u params backoff_sec (attempt :: rest) w
     = (Raise OverflowError, w1,
        [EvSlot t waits; EvGet {| req_url := u; req_params := params |}])) /\
  (ra = ""%string ->
   Z.max 1000 (backoff_sec * attempt * 5) <= SLEEP_MAX ->
   exists t waits w1,
     _get_attempts fuel float u params backoff_sec (attempt :: rest) w
     = after [EvSlot t waits;
              EvGet {| req_url := u; req_params := params |};
              EvSleep (Z.max 1000 (backoff_sec * attempt * 5))]
         (_get_attempts fuel float u params backoff_sec rest w1)).
Proof.
  intros Hok Hs H429 Hra.
  destruct (attempt_reply fuel float fuel_enough u params backoff_sec
              attempt rest w resp Hok Hs) as (t & waits & w1 & Heq & _).
  split; [|split].
  - intros Hne Hf. exists t, waits, w1. rewrite Heq.
    unfold dispatch, sleep_429. apply String.eqb_neq in Hne.
    rewrite H429, Hra, Hne. simpl.
    destruct Hf as [Hf|[Hf|(d & Hf & Hd1 & Hd2)]]; rewrite Hf.
    + reflexivity.
    + reflexivity.
    + rewrite (bind_lift_val _ (Finite d) _ _ eq_refl).
      unfold bind, time_sleep.
      assert (E1 : (d <? - SLEEP_MAX) = false) by (apply Z.ltb_ge; lia).
      assert (E2 : (SLEEP_MAX <? d) = false)
        by (apply Z.ltb_ge; unfold SLEEP_MAX in *; lia).
      apply Z.ltb_lt in Hd2. now rewrite E1, E2, Hd2.
  - intros Hne Hf. exists t, waits, w1. rewrite Heq.
    unfold dispatch, sleep_429. apply String.eqb_neq in Hne.
    rewrite H429, Hra, Hne. simpl.
    destruct Hf as [(neg & Hf)|(d & Hf & Hd)]; rewrite Hf.
    + reflexivity.
    + rewrite (bind_lift_val _ (Finite d) _ _ eq_refl).
      unfold bind, time_sleep.
      assert (E : (d <? - SLEEP_MAX) || (SLEEP_MAX <? d) = true).
      { apply orb_true_iff.
        destruct Hd; [left|right]; now apply Z.ltb_lt. }
      now rewrite E.
  - intros -> Hm.
    destruct (attempt_retry fuel float fuel_enough u params backoff_sec
                attempt (Z.max 1000 (backoff_sec * attempt * 5)) rest w resp
                Hok Hs) as (t' & waits' & w1' & Heq' & _).
    + unfold retry_delay, sleep_429. rewrite H429, Hra. simpl.
      assert (E : (0 <=? Z.max 1000 (backoff_sec * attempt * 5))
                  && (Z.max 1000 (backoff_sec * attempt * 5) <=? SLEEP_MAX)
                  = true).
      { apply andb_true_iff. split; apply Z.leb_le; lia. }
      now rewrite E.
    + now exists t', waits', w1'.
Qed.

End ClientExtra.

Lemma get_returns_body_or_empty_dict_witness :
  exists t waits w1,
    _get 3 float_of_integer example_client example_url None 3 1000
      (fresh_world (scripted [] (reply 204 None None)))
    = (Ok (JObj []), w1, [EvSlot t waits; EvGet example_request]) /\
    sent w1 = 1%nat.
Proof.
  apply (get_returns_body_or_empty_dict 3 float_of_integer (le_n 3)
           example_client example_url None 3 1000
           (fresh_world (scripted [] (reply 204 None None)))
           {| status_code := 204; retry_after := None; json_body := None;
              text := "" |});
    [apply fresh_world_ok|lia|reflexivity|reflexivity].
Defined.

Lemma get_request_budget_witness :
  request_budget example_request 3 (fresh_world always_503)
    (_get 3 float_of_integer example_client example_url None 3 1000
       (fresh_world always_503)) /\
  paired (events_of (_get 3 float_of_integer example_client example_url None
                       3 1000 (fresh_world always_503))) = true /\
  match result_of (_get 3 float_of_integer example_client example_url None 3
                     1000 (fresh_world always_503)) with
  | Ok _ => True
  | Raise (RuntimeError (GetFailed _ _ _)) => True
  | Raise (RuntimeError (RetriesExhausted _)) => True
  | Raise (RequestException _) => True
  | Raise ValueError => True
  | Raise OverflowError => True
  | _ => False
  end.
Proof.
  apply (get_request_budget 3 float_of_integer (le_n 3) example_client
           example_url None 3 1000 (fresh_world always_503)).
  apply fresh_world_ok.
Defined.

Lemma retry_after_edge_cases_witness :
  (exists t waits w1,
     _get_attempts 3 float_of_signed example_url None 1000 [1; 2; 3]
       (fresh_world always_429_date)
     = (Raise ValueError, w1, [EvSlot t waits; EvGet example_request])) /\
  (exists t waits w1,
     _get_attempts 3 float_of_signed example_url None 1000 [1; 2; 3]
       (fresh_world always_429_negative)
     = (Raise ValueError, w1, [EvSlot t waits; EvGet example_request])) /\
  (exists t waits w1,
     _get_attempts 3 float_of_signed example_url None 1000 [1; 2; 3]
       (fresh_world (once_429 "nan"))
     = (Raise ValueError, w1, [EvSlot t waits; EvGet example_request])) /\
  (exists t waits w1,
     _get_attempts 3 float_of_signed example_url None 1000 [1; 2; 3]
       (fresh_world (once_429 "-10000000000"))
     = (Raise OverflowError, w1, [EvSlot t waits; EvGet example_request])) /\
  (exists t waits w1,
     _get_attempts 3 float_of_signed example_url None 1000 [1; 2; 3]
       (fresh_world (once_429 "10000000000"))
     = (Raise OverflowError, w1, [EvSlot t waits; EvGet example_request])) /\
  (exists t waits w1,
     _get_attempts 3 float_of_signed example_url None 1000 [1; 2; 3]
       (fresh_world (once_429 "inf"))
     = (Raise OverflowError, w1, [EvSlot t waits; EvGet example_request])) /\
  (exists t waits w1,
     _get_attempts 3 float_of_signed example_url None 1000 [1; 2; 3]
       (fresh_world always_429_empty)
     = after [EvSlot t waits; EvGet example_request; EvSleep 5000]
         (_get_attempts 3 float_of_signed example_url None 1000 [2; 3] w1)).
Proof.
  assert (H : forall srv ra,
            srv 0%nat example_request = reply 429 (Some ra) None ->
            _ /\ _ /\ _)
    by (intros srv ra Hs;
        exact (retry_after_edge_cases 3 float_of_signed (le_n 3) example_url
                 None 1000 1 [2; 3] (fresh_world srv)
                 {| status_code := 429; retry_after := Some ra;
                    json_body := None; text := "" |}
                 ra (fresh_world_ok _) Hs eq_refl eq_refl)).
  repeat split.
  - apply (H always_429_date _ eq_refl); [discriminate|now left].
  - apply (H always_429_negative _ eq_refl); [discriminate|].
    right; right. exists (-1000). split; [reflexivity|unfold SLEEP_MAX; lia].
  - apply (H (once_429 "nan") _ eq_refl); [discriminate|]. right; now left.
  - apply (H (once_429 "-10000000000") _ eq_refl); [discriminate|].
    right. exists (-10000000000000).
    split; [reflexivity|unfold SLEEP_MAX; lia].
  - apply (H (once_429 "10000000000") _ eq_refl); [discriminate|].
    right. exists 10000000000000.
    split; [reflexivity|unfold SLEEP_MAX; lia].
  - apply (H (once_429 "inf") _ eq_refl); [discriminate|].
    left. now exists false.
  - apply (H always_429_empty _ eq_refl); [reflexivity|unfold SLEEP_MAX; lia].
Defined.

(** ** The core logic *)

Lemma after_ok_inv {A} (evs : list event)
    (x : Result A * World * list event) (a : A) (w : World)
    (evs' : list event) :
  after evs x = (Ok a, w, evs') ->
  exists evs2, x = (Ok a, w, evs2) /\ evs' = evs ++ evs2.
Proof.
  destruct x as [[r w0] t]. unfold after, result_of, world_of, events_of.
  simpl. intros H. injection H as Hr Hw He. subst. now exists t.
Qed.

Section CoreFacts.

Variable fuel : nat.
Variable float : string -> option pyfloat.
Hypothesis fuel_enough : (3 <= fuel)%nat.

Lemma sound_ret {A} (a : A) : sound (ret a).
Proof. intros w Hok. unfold ret. simpl. auto. Qed.

Lemma sound_lift {A} (r : Pure A) : raises_Exception r -> sound (lift r).
Proof.
  intros Hr w Hok. unfold lift. simpl. destruct r; simpl in *; auto.
Qed.

Lemma sound_raise {A} (e : exn) : is_Exception e = true -> sound (@raise A e).
Proof. intros He w Hok. unfold raise. simpl. auto. Qed.

Lemma sound_bind {A B} (m : M A) (f : A -> M B) :
  sound m -> (forall a, sound (f a)) -> sound (bind m f).
Proof.
  intros Hm Hf w Hok. specialize (Hm w Hok). unfold bind.
  destruct (m w) as [[r w1] t1]. unfold world_of, result_of, events_of in *.
  simpl in *. destruct Hm as (Hok1 & Hr & Ho & He).
  destruct r as [a|e|]; simpl; auto.
  specialize (Hf a w1 Hok1). destruct (f a w1) as [[r2 w2] t2].
  unfold world_of, result_of, events_of in *. simpl in *.
  destruct Hf as (Hok2 & Hr2 & Ho2 & He2).
  unfold outs_of, errs_of in *. rewrite !flat_map_app, Ho, He, Ho2, He2.
  auto.
Qed.

Lemma get_raises_Exception (e : exn) : get_raises e -> is_Exception e = true.
Proof. destruct e; simpl; auto. Qed.

Lemma sound_get (self : RiotClient) (u : url)
    (params : option (list (string * Z))) :
  sound (get fuel float self u params).
Proof.
  intros w Hok. unfold get, _get.
  destruct (get_attempts_outcome fuel float fuel_enough u params 1000
              (attempts_range 3) w Hok) as (Hw & Hr & Ho & He & _).
  split; [exact Hw|]. split; [|split; assumption].
  destruct (result_of _); auto. now apply get_raises_Exception.
Qed.

Lemma py_get_raises (d : json) (k : string) (default : json) :
  raises_Exception (py_get d k default).
Proof. destruct d; simpl; auto. Qed.

Lemma py_getitem_raises (d : json) (k : string) :
  raises_Exception (py_getitem d k).
Proof. destruct d; simpl; auto. destruct (lookup k kv); simpl; auto. Qed.

Lemma py_iter_raises (v : json) : raises_Exception (py_iter v).
Proof. destruct v; simpl; auto. Qed.

Lemma find_me_raises (puuid : json) (ps : list json) :
  raises_Exception (find_me puuid ps).
Proof.
  induction ps as [|p ps IH]; simpl; auto.
  pose proof (py_get_raises p "puuid" JNull) as H.
  destruct (py_get p "puuid" JNull) as [v|e]; simpl in *; auto.
  destruct (py_eq v puuid); simpl; auto.
Qed.

Lemma sound_ensure_puuid (client : RiotClient) (participant : json) :
  sound (ensure_puuid fuel float client participant).
Proof.
  unfold ensure_puuid, summoner_by_id.
  repeat (first
    [ apply sound_get
    | apply sound_bind; [|intros ?]
    | apply sound_lift; first [apply py_get_raises|apply py_getitem_raises]
    | apply sound_ret
    | apply sound_raise; reflexivity
    | progress cbv zeta
    | match goal with |- sound (if ?b then _ else _) => destruct b end ]).
Qed.

Lemma sound_count_matches (client : RiotClient) (puuid : json)
    (match_ids : list json) :
  forall exhaust_count total,
    sound (count_matches fuel float client puuid match_ids
             exhaust_count total).
Proof.
  induction match_ids as [|mid rest IH]; intros c t; simpl.
  - apply sound_ret.
  - unfold match_by_id.
    repeat (first
      [ apply IH
      | apply sound_get
      | apply sound_bind; [|intros ?]
      | apply sound_lift;
        first [apply py_get_raises|apply py_iter_raises|apply find_me_raises]
      | progress cbv zeta
      | match goal with
        | |- sound (match ?o with Some _ => _ | None => _ end) => destruct o
        | |- sound (if ?b then _ else _) => destruct b
        end ]).
Qed.

Lemma sound_count_exhaust_for_player (client : RiotClient) (puuid : json)
    (max_matches : Z) :
  sound (count_exhaust_for_player fuel float client puuid max_matches).
Proof.
  unfold count_exhaust_for_player, match_ids_by_puuid.
  apply sound_bind; [apply sound_get|intros match_ids].
  destruct (negb (truthy match_ids)); [apply sound_ret|].
  apply sound_bind; [apply sound_lift, py_iter_raises|intros mids].
  apply sound_count_matches.
Qed.

Lemma py_or_first_usable2 (a b : json) :
  py_or (py_or a b) Unknown
  = match first_usable [a; b] with Some v => v | None => Unknown end.
Proof.
  unfold first_usable, py_or. simpl.
  destruct (truthy a) eqn:Ea; destruct (truthy b) eqn:Eb;
    simpl; rewrite ?Ea, ?Eb; reflexivity.
Qed.

Lemma py_or_first_usable3 (a b c : json) :
  match first_usable [a; b; c] with
  | Some v => py_or (py_or a b) c = v /\ truthy v = true
  | None => truthy (py_or (py_or a b) c) = false
  end.
Proof.
  unfold first_usable, py_or. simpl.
  destruct (truthy a) eqn:Ea; destruct (truthy b) eqn:Eb;
    destruct (truthy c) eqn:Ec; simpl; rewrite ?Ea, ?Eb, ?Ec; auto.
Qed.

Lemma py_getitem_exc (d : json) (k : string) (e : exn) :
  py_getitem d k = Exc e -> e = KeyError k \/ e = TypeError.
Proof.
  destruct d; simpl; try (intros [= <-]; now right).
  destruct (lookup k kv); [discriminate|]. intros [= <-]. now left.
Qed.

(** [ensure_puuid] on a record, branch by branch. *)
Lemma ensure_puuid_record (client : RiotClient) (kv : list (string * json))
    (w : World) :
  ensure_puuid fuel float client (JObj kv) w
  = if truthy (field "puuid" kv) then
      (Ok (field "puuid" kv, record_name kv), w, [])
    else
      match legacy_id kv with
      | None => (Raise (RuntimeError ParticipantMissingIds), w, [])
      | Some enc_id =>
          (summ <- summoner_by_id fuel float client enc_id ;;
           puuid <- lift (py_getitem summ "puuid") ;;
           if py_eq (record_name kv) Unknown then
             name <- lift (py_get summ "name" Unknown) ;;
             ret (puuid, name)
           else ret (puuid, record_name kv)) w
      end.
Proof.
  unfold ensure_puuid.
  rewrite (bind_lift_val _ (field "puuid" kv) _ w eq_refl).
  rewrite (bind_lift_val _ (field "riotId" kv) _ w eq_refl).
  rewrite (bind_lift_val _ (field "summonerName" kv) _ w eq_refl).
  cbv zeta. rewrite py_or_first_usable2. fold (record_name kv).
  destruct (truthy (field "puuid" kv)); [reflexivity|].
  rewrite (bind_lift_val _ (field "summonerId" kv) _ w eq_refl).
  rewrite (bind_lift_val _ (field "encryptedSummonerId" kv) _ w eq_refl).
  rewrite (bind_lift_val _ (field "id" kv) _ w eq_refl).
  pose proof (py_or_first_usable3 (field "summonerId" kv)
                (field "encryptedSummonerId" kv) (field "id" kv)) as H.
  unfold legacy_id. destruct (first_usable _) as [enc_id|].
  - destruct H as [-> Ht]. now rewrite Ht.
  - now rewrite H.
Qed.

Lemma lookup_without_same (k : string) (kv : list (string * json)) :
  lookup k (without k kv) = None.
Proof.
  induction kv as [|[k' v] kv IH]; simpl; [reflexivity|].
  destruct (String.eqb k k') eqn:E; [exact IH|]. simpl. now rewrite E.
Qed.

Lemma lookup_without_other (k k' : string) (kv : list (string * json)) :
  k <> k' -> lookup k (without k' kv) = lookup k kv.
Proof.
  intros Hne. induction kv as [|[k2 v] kv IH]; simpl; [reflexivity|].
  destruct (String.eqb k' k2) eqn:E.
  - apply String.eqb_eq in E. subst k2.
    apply String.eqb_neq in Hne. now rewrite Hne.
  - simpl. now rewrite IH.
Qed.

Lemma field_without_other (k k' : string) (kv : list (string * json)) :
  k <> k' -> field k (without k' kv) = field k kv.
Proof. intros H. unfold field. now rewrite lookup_without_other. Qed.

(** C8.  For a participant record: when its [puuid] is usable,
    [ensure_puuid] returns it with the name the record gives, without any
    lookup; when it is not, and the record has a usable legacy identifier
    (the first usable among [summonerId], [encryptedSummonerId], [id]), the
    puuid is the one of the summoner lookup by that identifier, whose failure
    is the failure of [ensure_puuid]; and the error of the missing
    identifiers is raised exactly when neither the [puuid] nor any of the
    three legacy fields is usable.  From a world within limits the call
    ends. *)
Theorem ensure_puuid_resolution (client : RiotClient)
    (kv : list (string * json)) (w : World) :
  world_ok w ->
  (truthy (field "puuid" kv) = true ->
   ensure_puuid fuel float client (JObj kv) w
   = (Ok (field "puuid" kv, record_name kv), w, [])) /\
  (truthy (field "puuid" kv) = false ->
   forall enc_id, legacy_id kv = Some enc_id ->
     (forall summ w1 evs puuid,
        summoner_by_id fuel float client enc_id w = (Ok (JObj summ), w1, evs) ->
        lookup "puuid" summ = Some puuid ->
        ensure_puuid fuel float client (JObj kv) w
        = (Ok (puuid,
               if py_eq (record_name kv) Unknown then summoner_name summ
               else record_name kv), w1, evs)) /\
     (forall e w1 evs,
        summoner_by_id fuel float client enc_id w = (Raise e, w1, evs) ->
        ensure_puuid fuel float client (JObj kv) w = (Raise e, w1, evs))) /\
  (result_of (ensure_puuid fuel float client (JObj kv) w)
   = Raise (RuntimeError ParticipantMissingIds)
   <-> truthy (field "puuid" kv) = false /\ legacy_id kv = None) /\
  result_of (ensure_puuid fuel float client (JObj kv) w) <> Hang.
Proof.
  intros Hok.
  assert (Hend : result_of (ensure_puuid fuel float client (JObj kv) w)
                 <> Hang).
  { destruct (sound_ensure_puuid client (JObj kv) w Hok) as (_ & Hr & _).
    intros E. now rewrite E in Hr. }
  split; [|split; [|split; [|exact Hend]]]; clear Hend;
    rewrite ensure_puuid_record.
  - now intros ->.
  - intros -> enc_id ->. split.
    + intros summ w1 evs puuid Hs Hp.
      rewrite (bind_ok _ _ _ _ _ _ Hs).
      assert (Hg : py_getitem (JObj summ) "puuid" = Val puuid)
        by (simpl; now rewrite Hp).
      rewrite (bind_lift_val _ puuid _ w1 Hg).
      destruct (py_eq (record_name kv) Unknown).
      * rewrite (bind_lift_val (py_get (JObj summ) "name" Unknown)
                   (summoner_name summ) _ w1 eq_refl).
        unfold after, ret. simpl. now rewrite app_nil_r.
      * unfold after, ret. simpl. now rewrite app_nil_r.
    + intros e w1 evs Hs. now rewrite (bind_raise _ _ _ _ _ _ Hs).
  - destruct (truthy (field "puuid" kv)).
    + simpl. split; [discriminate|]. now intros [? _].
    + destruct (legacy_id kv) as [enc_id|].
      * split; [|now intros [_ ?]]. intros H. exfalso.
        pose proof (get_attempts_outcome fuel float fuel_enough
                      (SummonerById (platform client) enc_id) None 1000
                      (attempts_range 3) w Hok) as (_ & Hr & _).
        change (_get_attempts fuel float
                  (SummonerById (platform client) enc_id) None 1000
                  (attempts_range 3) w)
          with (summoner_by_id fuel float client enc_id w) in Hr.
        destruct (summoner_by_id fuel float client enc_id w)
          as [[[summ|e|] w1] t1] eqn:Hs.
        -- rewrite (bind_ok _ _ _ _ _ _ Hs) in H.
           destruct (py_getitem summ "puuid") as [p|e] eqn:Eg.
           ++ rewrite (bind_lift_val _ p _ w1 eq_refl) in H.
              destruct (py_eq (record_name kv) Unknown).
              ** destruct (py_get summ "name" Unknown) as [n|e] eqn:En.
                 --- rewrite (bind_lift_val _ n _ w1 eq_refl) in H.
                     discriminate.
                 --- destruct summ; discriminate.
              ** discriminate.
           ++ rewrite (bind_lift_exc _ e _ w1 eq_refl) in H.
              apply py_getitem_exc in Eg.
              destruct Eg as [-> | ->]; discriminate.
        -- rewrite (bind_raise _ _ _ _ _ _ Hs) in H.
           unfold result_of in H, Hr. simpl in H, Hr.
           injection H as ->. exact Hr.
        -- unfold bind in H. rewrite Hs in H. discriminate.
      * simpl. split; auto.
Qed.

(** C10.  A [puuid] field that is present with a value that is not usable
    (the empty string, [None], 0, [False], an empty list or dict) is as an
    absent one: [ensure_puuid] does what it does on the record without the
    field.  And a record whose [riotId] and [summonerName] are not usable is
    named ["Unknown"]: so it is returned when the [puuid] is usable, and
    otherwise the name is the one of the summoner lookup's answer, or
    ["Unknown"] when the answer has none. *)
Theorem falsy_fields_are_as_absent (client : RiotClient)
    (kv : list (string * json)) (w : World) :
  (forall v, lookup "puuid" kv = Some v -> truthy v = false ->
     ensure_puuid fuel float client (JObj kv) w
     = ensure_puuid fuel float client (JObj (without "puuid" kv)) w) /\
  (truthy (field "riotId" kv) = false ->
   truthy (field "summonerName" kv) = false ->
   record_name kv = JStr "Unknown" /\
   (truthy (field "puuid" kv) = true ->
    ensure_puuid fuel float client (JObj kv) w
    = (Ok (field "puuid" kv, JStr "Unknown"), w, [])) /\
   (truthy (field "puuid" kv) = false ->
    forall enc_id summ w1 evs puuid,
      legacy_id kv = Some enc_id ->
      summoner_by_id fuel float client enc_id w = (Ok (JObj summ), w1, evs) ->
      lookup "puuid" summ = Some puuid ->
      ensure_puuid fuel float client (JObj kv) w
      = (Ok (puuid,
             match lookup "name" summ with
             | Some name => name
             | None => JStr "Unknown"
             end), w1, evs))).
Proof.
  split.
  - intros v Hl Hv. rewrite !ensure_puuid_record.
    assert (Hf : truthy (field "puuid" kv) = false)
      by (unfold field; now rewrite Hl).
    assert (Hf' : truthy (field "puuid" (without "puuid" kv)) = false)
      by (unfold field; now rewrite lookup_without_same).
    rewrite Hf, Hf'. unfold legacy_id, record_name.
    now rewrite !field_without_other by discriminate.
  - intros Hr Hs.
    assert (Hn : record_name kv = JStr "Unknown").
    { unfold record_name, first_usable. simpl. now rewrite Hr, Hs. }
    split; [exact Hn|]. rewrite ensure_puuid_record, Hn. split.
    + now intros ->.
    + intros -> enc_id summ w1 evs puuid -> Hsumm Hp.
      rewrite (bind_ok _ _ _ _ _ _ Hsumm).
      assert (Hg : py_getitem (JObj summ) "puuid" = Val puuid)
        by (simpl; now rewrite Hp).
      rewrite (bind_lift_val _ puuid _ w1 Hg).
      change (py_eq (JStr "Unknown") Unknown) with true. cbv iota.
      rewrite (bind_lift_val (py_get (JObj summ) "name" Unknown)
                 (summoner_name summ) _ w1 eq_refl).
      unfold after, ret. simpl. now rewrite app_nil_r.
Qed.

End CoreFacts.

(** *** The tally of a player *)

Section TallyFacts.

Variable fuel : nat.
Variable float : string -> option pyfloat.

Lemma py_eq_str (v : json) (s : string) :
  py_eq v (JStr s) = match v with JStr s' => String.eqb s' s | _ => false end.
Proof. destruct v; reflexivity. Qed.

(** On a string identifier the search of the loop finds what [find] finds
    with [is_player], when it does not raise. *)
Lemma find_me_is_find (puuid : string) (ps : list json) (me : option json) :
  find_me (JStr puuid) ps = Val me -> me = find (is_player puuid) ps.
Proof.
  induction ps as [|p ps IH]; simpl.
  - now intros [= <-].
  - destruct p as [| | | |l|kv]; simpl; try discriminate.
    rewrite py_eq_str. destruct (lookup "puuid" kv) as [v|]; simpl.
    + destruct v; simpl; auto.
      destruct (String.eqb s puuid); [now intros [= <-]|exact IH].
    + exact IH.
Qed.

Lemma find_me_strings (puuid : json) (l : list string) (me : option json) :
  find_me puuid (map JStr l) = Val me -> l = [].
Proof. destruct l; simpl; [reflexivity|discriminate]. Qed.

Lemma chars_strings (s : string) :
  exists l, chars s = map JStr l.
Proof.
  induction s as [|c s [l IH]]; simpl.
  - now exists [].
  - exists (String c EmptyString :: l)%list. simpl. now rewrite IH.
Qed.

(** The entry the loop body finds in a match record is the player's entry
    of the record. *)
Lemma loop_entry (puuid : string) (data info participants : json)
    (ps : list json) (me : option json) :
  py_get data "info" (JObj []) = Val info ->
  py_get info "participants" (JList []) = Val participants ->
  py_iter participants = Val ps ->
  find_me (JStr puuid) ps = Val me ->
  me = entry_of puuid data.
Proof.
  intros Hi Hp Hps Hme. unfold entry_of, participants_of.
  destruct data as [| | | |l|kv]; simpl in Hi; try discriminate.
  injection Hi as <-.
  assert (Hnil : ps = [] -> me = None).
  { intros ->. simpl in Hme. now injection Hme as <-. }
  destruct (lookup "info" kv) as [info|].
  - destruct info as [| | | |l|ikv]; simpl in Hp; try discriminate.
    injection Hp as <-.
    destruct (lookup "participants" ikv) as [parts|].
    + destruct parts as [| | |s|l|pkv]; simpl in Hps; try discriminate.
      * injection Hps as <-. destruct (chars_strings s) as [l Hl].
        rewrite Hl in Hme. pose proof (find_me_strings _ _ _ Hme) as ->.
        rewrite Hl in Hnil. now apply Hnil.
      * injection Hps as <-. now apply find_me_is_find.
      * injection Hps as <-.
        rewrite <- (map_map fst JStr) in Hme, Hnil.
        pose proof (find_me_strings _ _ _ Hme) as Hl.
        rewrite Hl in Hnil. now apply Hnil.
    + simpl in Hps. injection Hps as <-. now apply Hnil.
  - simpl in Hp. injection Hp as <-. simpl in Hps. injection Hps as <-.
    now apply Hnil.
Qed.

Lemma is_player_entry (puuid : string) (l : list json) (p : json) :
  find (is_player puuid) l = Some p ->
  exists kv, p = JObj kv /\ truthy p = true.
Proof.
  intros H. apply find_some in H. destruct H as [_ H].
  destruct p as [| | | |l'|kv]; simpl in H; try discriminate.
  exists kv. split; [reflexivity|].
  destruct kv; [discriminate|reflexivity].
Qed.

Lemma examined_in_cons (puuid : string) (d : json) (datas : list json) :
  examined_in puuid (d :: datas)
  = (match entry_of puuid d with Some _ => 1 | None => 0 end)
    + examined_in puuid datas.
Proof.
  unfold examined_in. cbn [filter].
  destruct (entry_of puuid d); cbn [List.length]; lia.
Qed.

Lemma used_in_cons (puuid : string) (d : json) (datas : list json) :
  used_in puuid (d :: datas)
  = (match entry_of puuid d with
     | Some p => if took_exhaust p then 1 else 0
     | None => 0
     end) + used_in puuid datas.
Proof.
  unfold used_in. cbn [filter].
  destruct (entry_of puuid d) as [p|]; [|lia].
  destruct (took_exhaust p); cbn [List.length]; lia.
Qed.

Lemma used_in_le_examined_in (puuid : string) (datas : list json) :
  0 <= used_in puuid datas <= examined_in puuid datas.
Proof.
  induction datas as [|d datas IH].
  - unfold used_in, examined_in. simpl. lia.
  - rewrite used_in_cons, examined_in_cons.
    destruct (entry_of puuid d) as [p|]; [destruct (took_exhaust p)|]; lia.
Qed.

(** The loop over the match ids fetches the records one by one and counts,
    on top of its two counters, the records with an entry of the player and
    those among them whose entry took Exhaust. *)
Lemma count_matches_counts (client : RiotClient) (puuid : string)
    (match_ids : list json) :
  forall exhaust_count total w used examined w' evs,
    count_matches fuel float client (JStr puuid) match_ids exhaust_count
      total w = (Ok (used, examined), w', evs) ->
    exists datas,
      fetch_all fuel float client match_ids w = (Ok datas, w', evs) /\
      examined = total + examined_in puuid datas /\
      used = exhaust_count + used_in puuid datas.
Proof.
  induction match_ids as [|mid rest IH];
    intros c t w used examined w' evs H.
  - simpl in H. injection H as <- <- <- <-. exists []. simpl.
    unfold examined_in, used_in. simpl. split; [reflexivity|lia].
  - simpl in H.
    destruct (match_by_id fuel float client mid w) as [[[data|e|] w1] ev1]
      eqn:Hm.
    2:{ rewrite (bind_raise _ _ _ _ _ _ Hm) in H. discriminate. }
    2:{ unfold bind in H. rewrite Hm in H. discriminate. }
    rewrite (bind_ok _ _ _ _ _ _ Hm) in H.
    apply after_ok_inv in H. destruct H as (ev2 & H & ->).
    destruct (py_get data "info" (JObj [])) as [info|e] eqn:Hi;
      [|rewrite (bind_lift_exc _ e _ w1 eq_refl) in H; discriminate].
    rewrite (bind_lift_val _ info _ w1 eq_refl) in H.
    destruct (py_get info "participants" (JList [])) as [parts|e] eqn:Hp;
      [|rewrite (bind_lift_exc _ e _ w1 eq_refl) in H; discriminate].
    rewrite (bind_lift_val _ parts _ w1 eq_refl) in H.
    destruct (py_iter parts) as [ps|e] eqn:Hps;
      [|rewrite (bind_lift_exc _ e _ w1 eq_refl) in H; discriminate].
    rewrite (bind_lift_val _ ps _ w1 eq_refl) in H.
    destruct (find_me (JStr puuid) ps) as [me|e] eqn:Hme;
      [|rewrite (bind_lift_exc _ e _ w1 eq_refl) in H; discriminate].
    rewrite (bind_lift_val _ me _ w1 eq_refl) in H.
    pose proof (loop_entry puuid data info parts ps me Hi Hp Hps Hme) as He.
    assert (Hf : forall datas,
               fetch_all fuel float client rest w1 = (Ok datas, w', ev2) ->
               fetch_all fuel float client (mid :: rest) w
               = (Ok (data :: datas), w', ev1 ++ ev2)).
    { intros datas Hd. simpl. rewrite (bind_ok _ _ _ _ _ _ Hm).
      rewrite (bind_ok _ _ _ _ _ _ Hd). unfold after, ret. simpl.
      now rewrite app_nil_r. }
    destruct me as [p|].
    + symmetry in He. destruct (is_player_entry _ _ _ He) as (kv & -> & Ht).
      rewrite Ht in H. change (negb true) with false in H. cbv iota in H.
      rewrite (bind_lift_val (py_get (JObj kv) "summoner1Id" JNull)
                 (field "summoner1Id" kv) _ w1 eq_refl) in H.
      rewrite (bind_lift_val (py_get (JObj kv) "summoner2Id" JNull)
                 (field "summoner2Id" kv) _ w1 eq_refl) in H.
      cbv zeta in H.
      destruct (IH _ _ _ _ _ _ _ H) as (datas & Hd & -> & ->).
      exists (data :: datas). split; [now apply Hf|].
      rewrite examined_in_cons, used_in_cons.
      unfold entry_of in He |- *. rewrite He.
      change (took_exhaust (JObj kv))
        with (py_eq (field "summoner1Id" kv) (JNum EXHAUST_ID)
              || py_eq (field "summoner2Id" kv) (JNum EXHAUST_ID)).
      destruct (py_eq (field "summoner1Id" kv) (JNum EXHAUST_ID)
                || py_eq (field "summoner2Id" kv) (JNum EXHAUST_ID)); lia.
    + destruct (IH _ _ _ _ _ _ _ H) as (datas & Hd & -> & ->).
      exists (data :: datas). split; [now apply Hf|].
      rewrite examined_in_cons, used_in_cons. rewrite <- He. lia.
Qed.



(** Whatever the identifier, the loop only adds to its counters, and to the
    first no more than to the second. *)
Lemma count_matches_bounds (client : RiotClient) (puuid : json)
    (match_ids : list json) :
  forall exhaust_count total w used examined w' evs,
    count_matches fuel float client puuid match_ids exhaust_count total w
    = (Ok (used, examined), w', evs) ->
    0 <= used - exhaust_count <= examined - total.
Proof.
  induction match_ids as [|mid rest IH];
    intros c t w used examined w' evs H.
  - simpl in H. injection H as <- <- <- <-. lia.
  - simpl in H.
    destruct (match_by_id fuel float client mid w) as [[[data|e|] w1] ev1]
      eqn:Hm.
    2:{ rewrite (bind_raise _ _ _ _ _ _ Hm) in H. discriminate. }
    2:{ unfold bind in H. rewrite Hm in H. discriminate. }
    rewrite (bind_ok _ _ _ _ _ _ Hm) in H.
    apply after_ok_inv in H. destruct H as (ev2 & H & ->).
    destruct (py_get data "info" (JObj [])) as [info|e] eqn:Hi;
      [|rewrite (bind_lift_exc _ e _ w1 eq_refl) in H; discriminate].
    rewrite (bind_lift_val _ info _ w1 eq_refl) in H.
    destruct (py_get info "participants" (JList [])) as [parts|e] eqn:Hp;
      [|rewrite (bind_lift_exc _ e _ w1 eq_refl) in H; discriminate].
    rewrite (bind_lift_val _ parts _ w1 eq_refl) in H.
    destruct (py_iter parts) as [ps|e] eqn:Hps;
      [|rewrite (bind_lift_exc _ e _ w1 eq_refl) in H; discriminate].
    rewrite (bind_lift_val _ ps _ w1 eq_refl) in H.
    destruct (find_me puuid ps) as [me|e] eqn:Hme;
      [|rewrite (bind_lift_exc _ e _ w1 eq_refl) in H; discriminate].
    rewrite (bind_lift_val _ me _ w1 eq_refl) in H.
    destruct me as [p|]; [|now apply IH in H].
    destruct (negb (truthy p)); [now apply IH in H|].
    destruct (py_get p "summoner1Id" JNull) as [s1|e] eqn:H1;
      [|rewrite (bind_lift_exc _ e _ w1 eq_refl) in H; discriminate].
    rewrite (bind_lift_val _ s1 _ w1 eq_refl) in H.
    destruct (py_get p "summoner2Id" JNull) as [s2|e] eqn:H2;
      [|rewrite (bind_lift_exc _ e _ w1 eq_refl) in H; discriminate].
    rewrite (bind_lift_val _ s2 _ w1 eq_refl) in H.
    cbv zeta in H. apply IH in H.
    destruct (py_eq s1 (JNum EXHAUST_ID) || py_eq s2 (JNum EXHAUST_ID)); lia.
Qed.

(** A tally that is returned is one: 0 <= used <= examined. *)
Lemma count_exhaust_tallied (client : RiotClient) (puuid : json)
    (max_matches : Z) (w : World) (used examined : Z) (w' : World)
    (evs : list event) :
  count_exhaust_for_player fuel float client puuid max_matches w
  = (Ok (used, examined), w', evs) ->
  0 <= used <= examined.
Proof.
  intros H. unfold count_exhaust_for_player in H.
  destruct (match_ids_by_puuid fuel float client puuid max_matches
              (Some ARAM_QUEUE_ID) 0 w) as [[[match_ids|e|] w1] ev1] eqn:Hm.
  2:{ rewrite (bind_raise _ _ _ _ _ _ Hm) in H. discriminate. }
  2:{ unfold bind in H. rewrite Hm in H. discriminate. }
  rewrite (bind_ok _ _ _ _ _ _ Hm) in H.
  apply after_ok_inv in H. destruct H as (ev2 & H & ->).
  destruct (truthy match_ids); simpl in H.
  - destruct (py_iter match_ids) as [mids|e] eqn:Hi;
      [|rewrite (bind_lift_exc _ e _ w1 eq_refl) in H; discriminate].
    rewrite (bind_lift_val _ mids _ w1 eq_refl) in H.
    apply count_matches_bounds in H. lia.
  - unfold ret in H. injection H as <- <- <- <-. lia.
Qed.


End TallyFacts.

(** ** More on the core logic: the live game, edge cases of the records *)

Section CoreExtra.

Variable fuel : nat.
Variable float : string -> option pyfloat.
Hypothesis fuel_enough : (3 <= fuel)%nat.

Lemma sound_get_live_participants (client : RiotClient)
    (riot_name tag : string) :
  sound (get_live_participants_via_puuid_only fuel float client riot_name
           tag).
Proof.
  unfold get_live_participants_via_puuid_only, account_by_riot_id,
    active_game_by_summoner_id.
  repeat (first
    [ apply (sound_get fuel float fuel_enough)
    | apply sound_bind; [|intros ?]
    | apply sound_lift; apply py_get_raises
    | apply sound_raise; reflexivity
    | match goal with |- sound (if ?b then _ else _) => destruct b end ]).
Qed.

(** X9.  When the account lookup succeeds but the account carries no usable
    puuid (an undecodable body, read as an empty dict, included), the live
    game is not asked for: the lookup of the participants raises the error of
    the missing PUUID with the payload, after a single request. *)
Theorem live_game_needs_the_account_puuid (client : RiotClient)
    (riot_name tag : string) (w : World) (resp : Response)
    (account : list (string * json)) :
  world_ok w ->
  server w (sent w)
    {| req_url := AccountByRiotId (regional client) riot_name tag;
       req_params := None |} = Reply resp ->
  resp_ok resp = true ->
  match json_body resp with Some j => j | None => JObj [] end
    = JObj account ->
  truthy (field "puuid" account) = false ->
  exists t waits w1,
    get_live_participants_via_puuid_only fuel float client riot_name tag w
    = (Raise (RuntimeError (NoPuuidInAccount (JObj account))), w1,
       [EvSlot t waits;
        EvGet {| req_url := AccountByRiotId (regional client) riot_name tag;
                 req_params := None |}]) /\
    sent w1 = S (sent w).
Proof.
  intros Hok Hs Hr Hb Hp.
  destruct (get_first_ok fuel float fuel_enough client _ None w resp Hok Hs
              Hr) as (t & waits & w1 & Heq & _ & _ & Hsent).
  exists t, waits, w1. split; [|exact Hsent].
  unfold get_live_participants_via_puuid_only, account_by_riot_id.
  rewrite (bind_ok _ _ _ _ _ _ Heq), Hb.
  rewrite (bind_lift_val (py_get (JObj account) "puuid" JNull)
             (field "puuid" account) _ w1 eq_refl).
  rewrite Hp. reflexivity.
Qed.

(** X10.  When the account carries a usable puuid, the live game is asked
    for with that puuid in the place of the summoner id, and the
    participants returned are those of the answer as it gives them, or an
    empty list when the answer has no [participants]; two requests are
    sent. *)
Theorem live_game_is_asked_by_puuid (client : RiotClient)
    (riot_name tag : string) (w : World) (resp resp2 : Response)
    (account game : list (string * json)) :
  world_ok w ->
  server w (sent w)
    {| req_url := AccountByRiotId (regional client) riot_name tag;
       req_params := None |} = Reply resp ->
  resp_ok resp = true ->
  match json_body resp with Some j => j | None => JObj [] end
    = JObj account ->
  truthy (field "puuid" account) = true ->
  server w (S (sent w))
    {| req_url := ActiveGameBySummoner (platform client)
                    (field "puuid" account);
       req_params := None |} = Reply resp2 ->
  resp_ok resp2 = true ->
  match json_body resp2 with Some j => j | None => JObj [] end
    = JObj game ->
  exists t waits t2 waits2 w2,
    get_live_participants_via_puuid_only fuel float client riot_name tag w
    = (Ok (match lookup "participants" game with
           | Some v => v
           | None => JList []
           end), w2,
       [EvSlot t waits;
        EvGet {| req_url := AccountByRiotId (regional client) riot_name tag;
                 req_params := None |};
        EvSlot t2 waits2;
        EvGet {| req_url := ActiveGameBySummoner (platform client)
                              (field "puuid" account);
                 req_params := None |}]) /\
    sent w2 = S (S (sent w)).
Proof.
  intros Hok Hs Hr Hb Hp Hs2 Hr2 Hb2.
  destruct (get_first_ok fuel float fuel_enough client _ None w resp Hok Hs
              Hr) as (t & waits & w1 & Heq & Hok1 & Hsrv & Hsent).
  rewrite <- Hsrv, <- Hsent in Hs2.
  destruct (get_first_ok fuel float fuel_enough client _ None w1 resp2 Hok1
              Hs2 Hr2) as (t2 & waits2 & w2 & Heq2 & _ & _ & Hsent2).
  exists t, waits, t2, waits2, w2. split; [|congruence].
  unfold get_live_participants_via_puuid_only, account_by_riot_id,
    active_game_by_summoner_id.
  rewrite (bind_ok _ _ _ _ _ _ Heq), Hb.
  rewrite (bind_lift_val (py_get (JObj account) "puuid" JNull)
             (field "puuid" account) _ w1 eq_refl).
  rewrite Hp. change (negb true) with false. cbv iota.
  rewrite (bind_ok _ _ _ _ _ _ Heq2), Hb2.
  unfold after, lift. simpl. reflexivity.
Qed.

(** X11.  Edge cases of [ensure_puuid]: a participant that is not a dict
    raises [AttributeError] before any request; and when the puuid has to be
    looked up and the answer of the summoner lookup carries no [puuid] (an
    undecodable answer included), [KeyError] is raised after the one
    request. *)
Theorem ensure_puuid_edge_cases (client : RiotClient) (w : World) :
  world_ok w ->
  (forall participant,
     (forall kv, participant <> JObj kv) ->
     ensure_puuid fuel float client participant w
     = (Raise AttributeError, w, [])) /\
  (forall kv enc_id resp summ,
     truthy (field "puuid" kv) = false ->
     legacy_id kv = Some enc_id ->
     server w (sent w)
       {| req_url := SummonerById (platform client) enc_id;
          req_params := None |} = Reply resp ->
     resp_ok resp = true ->
     match json_body resp with Some j => j | None => JObj [] end
       = JObj summ ->
     lookup "puuid" summ = None ->
     exists t waits w1,
       ensure_puuid fuel float client (JObj kv) w
       = (Raise (KeyError "puuid"), w1,
          [EvSlot t waits;
           EvGet {| req_url := SummonerById (platform client) enc_id;
                    req_params := None |}])).
Proof.
  intros Hok. split.
  - intros participant Hnd. unfold ensure_puuid.
    destruct participant; try reflexivity. now destruct (Hnd kv).
  - intros kv enc_id resp summ Hp Hl Hs Hr Hb Hn.
    destruct (get_first_ok fuel float fuel_enough client _ None w resp Hok Hs
                Hr) as (t & waits & w1 & Heq & _).
    exists t, waits, w1.
    rewrite (ensure_puuid_record fuel float client kv w), Hp, Hl.
    unfold summoner_by_id. rewrite (bind_ok _ _ _ _ _ _ Heq), Hb.
    assert (Hg : py_getitem (JObj summ) "puuid" = Exc (KeyError "puuid"))
      by (simpl; now rewrite Hn).
    rewrite (bind_lift_exc _ _ _ w1 Hg). reflexivity.
Qed.

End CoreExtra.

Section TallyExtra.

Variable fuel : nat.
Variable float : string -> option pyfloat.

Lemma fetch_all_length (client : RiotClient) (match_ids : list json) :
  forall w datas w' evs,
    fetch_all fuel float client match_ids w = (Ok datas, w', evs) ->
    List.length datas = List.length match_ids.
Proof.
  induction match_ids as [|mid rest IH]; intros w datas w' evs H; simpl in H.
  - now injection H as <- _ _.
  - destruct (match_by_id fuel float client mid w) as [[[data|e|] w1] ev1]
      eqn:Hm.
    2:{ rewrite (bind_raise _ _ _ _ _ _ Hm) in H. discriminate. }
    2:{ unfold bind in H. rewrite Hm in H. discriminate. }
    rewrite (bind_ok _ _ _ _ _ _ Hm) in H.
    apply after_ok_inv in H. destruct H as (ev2 & H & _).
    destruct (fetch_all fuel float client rest w1) as [[[ds|e|] w2] ev3]
      eqn:Hf.
    2:{ rewrite (bind_raise _ _ _ _ _ _ Hf) in H. discriminate. }
    2:{ unfold bind in H. rewrite Hf in H. discriminate. }
    rewrite (bind_ok _ _ _ _ _ _ Hf) in H. unfold after, ret in H.
    simpl in H. injection H as <- _ _. simpl. f_equal.
    now apply (IH w1 ds w2 ev3).
Qed.

Lemma examined_in_le_length (puuid : string) (datas : list json) :
  examined_in puuid datas <= Z.of_nat (List.length datas).
Proof. unfold examined_in. apply Nat2Z.inj_le, filter_length_le. Qed.

(** X12.  A tally never examines more matches than the match list has ids:
    whenever [count_exhaust_for_player] returns (used, examined) on a player
    identifier, examined is at most the number of ids the match list
    gave. *)
Theorem examined_at_most_the_ids (client : RiotClient) (puuid : string)
    (max_matches : Z) (w : World) (used examined : Z) (w' : World)
    (evs : list event) :
  count_exhaust_for_player fuel float client (JStr puuid) max_matches w
  = (Ok (used, examined), w', evs) ->
  exists match_ids w1 ev1 mids,
    match_ids_by_puuid fuel float client (JStr puuid) max_matches
      (Some ARAM_QUEUE_ID) 0 w = (Ok match_ids, w1, ev1) /\
    (if truthy match_ids then py_iter match_ids else Val []) = Val mids /\
    used <= examined <= Z.of_nat (List.length mids).
Proof.
  intros H. unfold count_exhaust_for_player in H.
  destruct (match_ids_by_puuid fuel float client (JStr puuid) max_matches
              (Some ARAM_QUEUE_ID) 0 w) as [[[match_ids|e|] w1] ev1] eqn:Hm.
  2:{ rewrite (bind_raise _ _ _ _ _ _ Hm) in H. discriminate. }
  2:{ unfold bind in H. rewrite Hm in H. discriminate. }
  rewrite (bind_ok _ _ _ _ _ _ Hm) in H.
  apply after_ok_inv in H. destruct H as (ev2 & H & ->).
  exists match_ids, w1, ev1.
  destruct (truthy match_ids) eqn:Ht; simpl in H.
  - destruct (py_iter match_ids) as [mids|e] eqn:Hi;
      [|rewrite (bind_lift_exc _ e _ w1 eq_refl) in H; discriminate].
    rewrite (bind_lift_val _ mids _ w1 eq_refl) in H.
    destruct (count_matches_counts fuel float client puuid mids _ _ _ _ _ _ _
                H) as (datas & Hd & -> & ->).
    exists mids. split; [reflexivity|]. split; [reflexivity|].
    pose proof (used_in_le_examined_in puuid datas).
    pose proof (examined_in_le_length puuid datas).
    rewrite (fetch_all_length client mids _ _ _ _ Hd) in *. lia.
  - unfold ret in H. injection H as <- <- _ _.
    exists []. simpl. repeat split; lia.
Qed.

(** X13.  In the loop over the matches, a match record that is a dict
    without [info], or whose [info] has no [participants], is passed over
    without changing the counters; a record that is not a dict (a list, a
    string, [None]) raises [AttributeError] and ends the count. *)
Theorem malformed_match_records (client : RiotClient) (puuid mid data : json)
    (rest : list json) (exhaust_count total : Z) (w w1 : World)
    (ev : list event) :
  match_by_id fuel float client mid w = (Ok data, w1, ev) ->
  (forall kv,
     data = JObj kv ->
     lookup "info" kv = None \/
     (exists info, lookup "info" kv = Some (JObj info) /\
                   lookup "participants" info = None) ->
     count_matches fuel float client puuid (mid :: rest) exhaust_count total w
     = after ev (count_matches fuel float client puuid rest exhaust_count
                   total w1)) /\
  ((forall kv, data <> JObj kv) ->
   count_matches fuel float client puuid (mid :: rest) exhaust_count total w
   = (Raise AttributeError, w1, ev)).
Proof.
  intros Hm. split.
  - intros kv -> Hinfo. cbn [count_matches].
    rewrite (bind_ok _ _ _ _ _ _ Hm). f_equal.
    destruct Hinfo as [Hn|(info & Hi & Hn)].
    + assert (E : py_get (JObj kv) "info" (JObj []) = Val (JObj []))
        by (simpl; now rewrite Hn).
      rewrite (bind_lift_val _ _ _ w1 E).
      rewrite (bind_lift_val (py_get (JObj []) "participants" (JList []))
                 (JList []) _ w1 eq_refl).
      rewrite (bind_lift_val (py_iter (JList [])) [] _ w1 eq_refl).
      rewrite (bind_lift_val (find_me puuid []) None _ w1 eq_refl).
      reflexivity.
    + assert (E : py_get (JObj kv) "info" (JObj []) = Val (JObj info))
        by (simpl; now rewrite Hi).
      rewrite (bind_lift_val _ _ _ w1 E).
      assert (E2 : py_get (JObj info) "participants" (JList [])
                   = Val (JList [])) by (simpl; now rewrite Hn).
      rewrite (bind_lift_val _ _ _ w1 E2).
      rewrite (bind_lift_val (py_iter (JList [])) [] _ w1 eq_refl).
      rewrite (bind_lift_val (find_me puuid []) None _ w1 eq_refl).
      reflexivity.
  - intros Hnd. cbn [count_matches]. rewrite (bind_ok _ _ _ _ _ _ Hm).
    assert (E : py_get data "info" (JObj []) = Exc AttributeError).
    { destruct data; try reflexivity. now destruct (Hnd kv). }
    rewrite (bind_lift_exc _ _ _ w1 E). unfold after. simpl.
    now rewrite app_nil_r.
Qed.

End TallyExtra.

(** ** The floats of the sort key *)

Lemma pow2_pos (e : Z) : (0 < 2 ^ e)%Q.
Proof. apply Qpower_0_lt. reflexivity. Qed.

Lemma pow2_le (n m : Z) : n <= m -> (2 ^ n <= 2 ^ m)%Q.
Proof. intros H. apply Qpower_le_compat_l; [exact H|discriminate]. Qed.

Lemma pow2_plus (n m : Z) : (2 ^ (n + m) == 2 ^ n * 2 ^ m)%Q.
Proof. apply Qpower_plus. discriminate. Qed.

Lemma pow2_inject (n : Z) : 0 <= n -> (inject_Z (2 ^ n) == 2 ^ n)%Q.
Proof. intros H. now rewrite Zpower_Qpower. Qed.

Lemma round_half_even_close (y : Q) :
  (- (1 # 2) <= inject_Z (round_half_even y) - y <= 1 # 2)%Q.
Proof.
  unfold round_half_even.
  pose proof (Qfloor_le y) as H1. pose proof (Qlt_floor y) as H2.
  rewrite inject_Z_plus in H2. change (inject_Z 1) with 1%Q in H2.
  destruct (Qcompare_spec (y - inject_Z (Qfloor y)) (1 # 2)) as [E|E|E].
  - destruct (Z.even (Qfloor y));
      [|rewrite inject_Z_plus; change (inject_Z 1) with 1%Q]; lra.
  - lra.
  - rewrite inject_Z_plus. change (inject_Z 1) with 1%Q. lra.
Qed.

Lemma binade_low (a : Q) : (0 < a)%Q -> (2 ^ binade a <= a)%Q.
Proof.
  intros Ha. unfold binade.
  destruct (Qle_bool (2 ^ (Z.log2 (Qnum a) - Z.log2 (Z.pos (Qden a)))) a)
    eqn:E; [now apply Qle_bool_iff|].
  destruct a as [n d]. cbn [Qnum Qden] in *.
  assert (Hn : 0 < n) by (unfold Qlt in Ha; simpl in Ha; lia).
  pose proof (Z.log2_spec n Hn) as [L1 L2].
  pose proof (Z.log2_spec (Z.pos d) (Pos2Z.is_pos d)) as [M1 M2].
  pose proof (Z.log2_nonneg n) as Ln.
  pose proof (Z.log2_nonneg (Z.pos d)) as Ld.
  set (L := Z.log2 n) in *. set (M := Z.log2 (Z.pos d)) in *.
  replace (L - M - 1) with (L - (M + 1)) by lia.
  rewrite Qpower_minus by discriminate.
  pose proof (pow2_inject L Ln) as PL.
  assert (PM : (inject_Z (2 ^ (M + 1)) == 2 ^ (M + 1))%Q)
    by (apply pow2_inject; lia).
  rewrite <- PL, <- PM.
  apply Qle_shift_div_r.
  - change 0%Q with (inject_Z 0). rewrite <- Zlt_Qlt. lia.
  - unfold Qle, Qmult, inject_Z. simpl. nia.
Qed.

Lemma binade_high (a : Q) (n : Z) :
  (0 <= a)%Q -> (a < 2 ^ n)%Q -> 0 <= n -> binade a < n.
Proof.
  intros Ha Hn Hn0.
  destruct (Qlt_le_dec 0 a) as [Hp|Hz].
  - pose proof (binade_low a Hp) as Hl.
    apply (Qpower_lt_compat_l_inv 2); [|reflexivity].
    now apply Qle_lt_trans with a.
  - unfold binade. destruct a as [m d]. cbn [Qnum Qden] in *.
    assert (Hm : m = 0) by (unfold Qle in *; simpl in *; lia).
    subst m. change (Z.log2 0) with 0.
    pose proof (Z.log2_nonneg (Z.pos d)).
    destruct (Qle_bool (2 ^ (0 - Z.log2 (Z.pos d))) (0 # d)) eqn:E; [|lia].
    apply Qle_bool_iff in E.
    pose proof (pow2_pos (0 - Z.log2 (Z.pos d))) as Hpos.
    exfalso. apply (Qlt_irrefl 0).
    apply Qlt_le_trans with (2 ^ (0 - Z.log2 (Z.pos d)))%Q; [exact Hpos|].
    apply Qle_trans with (0 # d)%Q; [exact E|]. now unfold Qle.
Qed.

(** The rounded value is within half the spacing. *)
Lemma round_to_double_some (a : Q) :
  (0 <= a)%Q -> (a <= 2 ^ 1023)%Q ->
  exists r,
    round_to_double a = Some r /\
    (0 <= r)%Q /\
    (a - 2 ^ (Z.max (binade a - 52) (-1074)) * (1 # 2) <= r
     <= a + 2 ^ (Z.max (binade a - 52) (-1074)) * (1 # 2))%Q.
Proof.
  intros Ha Hb. unfold round_to_double.
  set (e := Z.max (binade a - 52) (-1074)).
  set (x := (2 ^ e)%Q).
  assert (Hx : (0 < x)%Q) by apply pow2_pos.
  pose proof (round_half_even_close (a / x)) as Hm.
  set (m := inject_Z (round_half_even (a / x))) in *.
  assert (Hy : (a == a / x * x)%Q) by (field; lra).
  assert (Hr : (a - x * (1 # 2) <= m * x <= a + x * (1 # 2))%Q).
  { split.
    - assert (0 <= (m - a / x + (1 # 2)) * x)%Q
        by (apply Qmult_le_0_compat; lra).
      lra.
    - assert (0 <= ((1 # 2) - (m - a / x)) * x)%Q
        by (apply Qmult_le_0_compat; lra).
      lra. }
  assert (He : e <= 971).
  { assert (binade a < 1024); [|unfold e; lia].
    apply binade_high; [exact Ha| |lia].
    apply Qle_lt_trans with (2 ^ 1023)%Q; [exact Hb|].
    apply Qpower_lt_compat_l; [lia|reflexivity]. }
  assert (Hx2 : (x <= 2 ^ 971)%Q) by (apply pow2_le; exact He).
  assert (Hbig : (2 ^ 1023 + 2 ^ 971 * (1 # 2) < 2 ^ 1024)%Q)
    by (vm_compute; reflexivity).
  destruct (Qle_bool (2 ^ 1024) (m * x)) eqn:E.
  - apply Qle_bool_iff in E. exfalso.
    set (P := (2 ^ 1023)%Q) in *. set (S := (2 ^ 971)%Q) in *.
    set (T := (2 ^ 1024)%Q) in *. lra.
  - exists (m * x)%Q. split; [reflexivity|]. split; [|exact Hr].
    apply Qmult_le_0_compat; [|lra].
    assert (Hq : (0 <= a / x)%Q) by (apply Qle_shift_div_l; lra).
    assert (Hlt : (inject_Z (-1) < m)%Q)
      by (change (inject_Z (-1)) with (-1)%Q; lra).
    unfold m in Hlt |- *. rewrite <- Zlt_Qlt in Hlt.
    change 0%Q with (inject_Z 0). rewrite <- Zle_Qle. lia.
Qed.

(** In the range of the normal doubles the spacing is at most [2^-52] times
    the value. *)
Lemma spacing_small (a : Q) :
  (2 ^ (-1022) <= a)%Q ->
  (2 ^ (Z.max (binade a - 52) (-1074)) * 2 ^ 52 <= a)%Q.
Proof.
  intros Ha.
  assert (Hp : (0 < a)%Q).
  { apply Qlt_le_trans with (2 ^ (-1022))%Q; [apply pow2_pos|exact Ha]. }
  rewrite <- pow2_plus.
  destruct (Z.max_spec (binade a - 52) (-1074)) as [[_ ->]|[_ ->]].
  - exact Ha.
  - replace (binade a - 52 + 52) with (binade a) by lia.
    now apply binade_low.
Qed.

(** The double nearest to a rational of the normal range is within
    [2^-53] of it, relatively. *)
Lemma nearest_double_close (q : Q) :
  (2 ^ (-1022) <= q)%Q -> (q <= 2 ^ 1023)%Q ->
  exists r,
    nearest_double q = Some r /\
    (q - q * (1 # 9007199254740992) <= r
     <= q + q * (1 # 9007199254740992))%Q.
Proof.
  intros Hl Hh.
  assert (Hp : (0 < q)%Q).
  { apply Qlt_le_trans with (2 ^ (-1022))%Q; [apply pow2_pos|exact Hl]. }
  unfold nearest_double.
  assert (E : Qle_bool 0 q = true) by (apply Qle_bool_iff; lra).
  rewrite E.
  destruct (round_to_double_some q) as (r & Hr & _ & Hc); [lra|exact Hh|].
  exists r. split; [exact Hr|].
  pose proof (spacing_small q Hl) as Hs.
  set (x := (2 ^ Z.max (binade q - 52) (-1074))%Q) in *.
  change (2 ^ 52)%Q with (4503599627370496 # 1)%Q in Hs.
  lra.
Qed.

(** A rational between 0 and [2^1023] has a nearest double, not negative. *)
Lemma nearest_double_some (q : Q) :
  (0 <= q)%Q -> (q <= 2 ^ 1023)%Q ->
  exists r, nearest_double q = Some r /\ (0 <= r)%Q.
Proof.
  intros H0 H1. unfold nearest_double.
  assert (E : Qle_bool 0 q = true) by (now apply Qle_bool_iff).
  rewrite E.
  destruct (round_to_double_some q H0 H1) as (r & Hr & Hp & _).
  now exists r.
Qed.

(** The double nearest to zero is zero. *)
Lemma nearest_double_zero (q : Q) (r : Q) :
  (q == 0)%Q -> nearest_double q = Some r -> (r == 0)%Q.
Proof.
  intros Hq. unfold nearest_double.
  assert (E : Qle_bool 0 q = true) by (apply Qle_bool_iff; lra).
  rewrite E. unfold round_to_double.
  set (x := (2 ^ Z.max (binade q - 52) (-1074))%Q).
  pose proof (pow2_pos (Z.max (binade q - 52) (-1074))) as Hx. fold x in Hx.
  pose proof (round_half_even_close (q / x)) as Hm.
  set (m := round_half_even (q / x)) in *.
  assert (Hy : (q / x == 0)%Q) by (rewrite Hq; field; lra).
  assert (Hz : m = 0).
  { assert (H1 : (inject_Z (-1) < inject_Z m)%Q)
      by (change (inject_Z (-1)) with (-1)%Q; lra).
    assert (H2 : (inject_Z m < inject_Z 1)%Q)
      by (change (inject_Z 1) with 1%Q; lra).
    rewrite <- Zlt_Qlt in H1, H2. lia. }
  rewrite Hz.
  destruct (Qle_bool (2 ^ 1024) (inject_Z 0 * x)); intros H;
    [discriminate H|].
  injection H as <-. change (inject_Z 0) with 0%Q. lra.
Qed.

(** The quotient of two positive integers, the second up to [2^52], the
    first below [2^1023]: [n / d] is a double within [2^-53] of the
    quotient, relatively. *)
Lemma py_truediv_close (n d : Z) :
  0 < n < 2 ^ 1023 -> 0 < d <= 2 ^ 52 ->
  exists r,
    py_truediv n d = Val r /\
    (inject_Z n / inject_Z d - inject_Z n / inject_Z d * (1 # 9007199254740992)
     <= r
     <= inject_Z n / inject_Z d
        + inject_Z n / inject_Z d * (1 # 9007199254740992))%Q.
Proof.
  intros [Hn1 Hn2] [Hd1 Hd2]. unfold py_truediv.
  assert (E : (d =? 0) = false) by (apply Z.eqb_neq; lia). rewrite E.
  assert (Qn : (1 <= inject_Z n)%Q)
    by (change 1%Q with (inject_Z 1); rewrite <- Zle_Qle; lia).
  assert (Qn2 : (inject_Z n <= 2 ^ 1023)%Q).
  { rewrite <- pow2_inject by lia. rewrite <- Zle_Qle. lia. }
  assert (Qd : (1 <= inject_Z d)%Q)
    by (change 1%Q with (inject_Z 1); rewrite <- Zle_Qle; lia).
  assert (Qd2 : (inject_Z d <= 2 ^ 52)%Q).
  { rewrite <- pow2_inject by lia. now rewrite <- Zle_Qle. }
  set (N := inject_Z n) in *. set (D := inject_Z d) in *.
  assert (Hq : (N == N / D * D)%Q) by (field; lra).
  assert (Hlow : (2 ^ (-1022) <= N / D)%Q).
  { apply Qle_shift_div_l; [lra|].
    apply Qle_trans with (2 ^ (-1022) * 2 ^ 52)%Q.
    - apply Qmult_le_l; [apply pow2_pos|exact Qd2].
    - apply Qle_trans with 1%Q; [now vm_compute|exact Qn]. }
  assert (Hhigh : (N / D <= 2 ^ 1023)%Q).
  { apply Qle_shift_div_r; [lra|].
    apply Qle_trans with (2 ^ 1023 * 1)%Q; [lra|].
    apply Qmult_le_l; [apply pow2_pos|exact Qd]. }
  destruct (nearest_double_close (N / D) Hlow Hhigh) as (r & Hr & Hc).
  exists r. now rewrite Hr.
Qed.

(** A quotient between 0 and 1 is a double, not negative; and the double of
    0 is 0. *)
Lemma py_truediv_unit (n d : Z) :
  0 <= n <= d -> 0 < d -> exists r, py_truediv n d = Val r /\ (0 <= r)%Q.
Proof.
  intros [Hn1 Hn2] Hd. unfold py_truediv.
  assert (E : (d =? 0) = false) by (apply Z.eqb_neq; lia). rewrite E.
  assert (Qn : (0 <= inject_Z n)%Q)
    by (change 0%Q with (inject_Z 0); rewrite <- Zle_Qle; lia).
  assert (Qd : (1 <= inject_Z d)%Q)
    by (change 1%Q with (inject_Z 1); rewrite <- Zle_Qle; lia).
  assert (Qnd : (inject_Z n <= inject_Z d)%Q) by (now rewrite <- Zle_Qle).
  destruct (nearest_double_some (inject_Z n / inject_Z d)) as (r & Hr & Hp).
  - apply Qle_shift_div_l; lra.
  - apply Qle_trans with 1%Q; [|now vm_compute].
    apply Qle_shift_div_r; lra.
  - exists r. now rewrite Hr.
Qed.

Lemma py_truediv_zero (d : Z) (r : Q) :
  py_truediv 0 d = Val r -> (r == 0)%Q.
Proof.
  unfold py_truediv. destruct (d =? 0); [discriminate|].
  destruct (nearest_double (inject_Z 0 / inject_Z d)) as [x|] eqn:E;
    [|discriminate].
  intros [= <-]. apply (nearest_double_zero _ _ (Qmult_0_l _) E).
Qed.

(** With the same numerator, the smaller of two denominators up to [2^52]
    gives the strictly larger double. *)
Lemma py_truediv_denominators (n d1 d2 : Z) (r1 r2 : Q) :
  0 < n < 2 ^ 1023 -> 0 < d2 < d1 -> d1 <= 2 ^ 52 ->
  py_truediv n d1 = Val r1 -> py_truediv n d2 = Val r2 ->
  (r1 < r2)%Q.
Proof.
  intros Hn Hd Hm H1 H2.
  destruct (py_truediv_close n d1) as (r1' & E1 & C1); [exact Hn|lia|].
  destruct (py_truediv_close n d2) as (r2' & E2 & C2); [exact Hn|lia|].
  rewrite H1 in E1. rewrite H2 in E2.
  injection E1 as <-. injection E2 as <-.
  assert (Qn : (1 <= inject_Z n)%Q)
    by (change 1%Q with (inject_Z 1); rewrite <- Zle_Qle; lia).
  assert (Qd2 : (1 <= inject_Z d2)%Q)
    by (change 1%Q with (inject_Z 1); rewrite <- Zle_Qle; lia).
  assert (Qd : (inject_Z d2 + 1 <= inject_Z d1)%Q).
  { change 1%Q with (inject_Z 1). rewrite <- inject_Z_plus, <- Zle_Qle. lia. }
  assert (Qm : (inject_Z d1 <= 4503599627370496 # 1)%Q).
  { change (4503599627370496 # 1)%Q with (inject_Z (2 ^ 52)).
    now rewrite <- Zle_Qle. }
  set (N := inject_Z n) in *. set (D1 := inject_Z d1) in *.
  set (D2 := inject_Z d2) in *.
  set (u := (1 # 9007199254740992)%Q) in *.
  apply Qle_lt_trans with (N / D1 + N / D1 * u)%Q; [apply C1|].
  apply Qlt_le_trans with (N / D2 - N / D2 * u)%Q; [|apply C2].
  assert (Hgap : (0 < D1 * (1 - u) - D2 * (1 + u))%Q) by (unfold u; lra).
  assert (Hprod : (0 < N * (D1 * (1 - u) - D2 * (1 + u)))%Q)
    by (apply Qmult_lt_0_compat; lra).
  assert (Hd1 : (0 < D1)%Q) by lra. assert (Hd2 : (0 < D2)%Q) by lra.
  assert (E : (N / D2 - N / D2 * u - (N / D1 + N / D1 * u)
               == N * (D1 * (1 - u) - D2 * (1 + u)) / (D1 * D2))%Q)
    by (field; lra).
  assert (Hpos : (0 < N * (D1 * (1 - u) - D2 * (1 + u)) / (D1 * D2))%Q).
  { apply Qlt_shift_div_l; [apply Qmult_lt_0_compat; lra|lra]. }
  lra.
Qed.

(** ** The leaderboard *)

Lemma errs_of_app (a b : list event) :
  errs_of (a ++ b) = errs_of a ++ errs_of b.
Proof. unfold errs_of. apply flat_map_app. Qed.

Lemma outs_of_app (a b : list event) :
  outs_of (a ++ b) = outs_of a ++ outs_of b.
Proof. unfold outs_of. apply flat_map_app. Qed.

(** The ratio of the key of a row. *)
Lemma ratio_tallied (r : row) : tallied r -> exists q, ratio r = Val q.
Proof.
  destruct r as [[name c] t]. unfold tallied, ratio. intros H.
  destruct (t =? 0) eqn:E; [now exists 0%Q|].
  apply Z.eqb_neq in E.
  destruct (py_truediv_unit c t) as (q & Hq & _); [lia|lia|].
  now exists q.
Qed.

Lemma ratio_moderate (r : row) : moderate r -> exists q, ratio r = Val q.
Proof.
  destruct r as [[name c] t]. unfold moderate, ratio. intros [Hc Ht].
  destruct (t =? 0) eqn:E; [now exists 0%Q|].
  apply Z.eqb_neq in E.
  destruct (Z.eq_dec c 0) as [->|Hn].
  - destruct (py_truediv_unit 0 t) as (q & Hq & _); [lia|lia|].
    now exists q.
  - destruct (py_truediv_close c t) as (q & Hq & _); [lia|lia|].
    now exists q.
Qed.

(** Among moderate rows of equal count, a strictly higher exact ratio has a
    strictly higher float in its key. *)
Lemma key_ratio_strict (na nb : json) (c ta tb : Z) :
  moderate (na, c, ta) -> moderate (nb, c, tb) ->
  ((if ta =? 0 then 0 else inject_Z c / inject_Z ta)
   < (if tb =? 0 then 0 else inject_Z c / inject_Z tb))%Q ->
  (key_ratio (na, c, ta) < key_ratio (nb, c, tb))%Q.
Proof.
  intros [Hc Hta] [_ Htb] Hlt. unfold key_ratio, ratio.
  destruct (tb =? 0) eqn:Eb.
  - (* the second ratio is 0: the first is not below it *)
    exfalso. destruct (ta =? 0) eqn:Ea; [now apply (Qlt_irrefl 0)|].
    apply Z.eqb_neq in Ea.
    assert (0 <= inject_Z c / inject_Z ta)%Q; [|lra].
    apply Qle_shift_div_l.
    + change 0%Q with (inject_Z 0). rewrite <- Zlt_Qlt. lia.
    + rewrite Qmult_0_l. change 0%Q with (inject_Z 0).
      rewrite <- Zle_Qle. lia.
  - apply Z.eqb_neq in Eb.
    assert (Hcpos : 0 < c).
    { destruct (Z.eq_dec c 0) as [->|]; [|lia]. exfalso.
      assert (E0 : forall t, (inject_Z 0 / inject_Z t == 0)%Q)
        by (intros t; apply Qmult_0_l).
      destruct (ta =? 0); rewrite ?E0 in Hlt; now apply (Qlt_irrefl 0). }
    destruct (py_truediv_close c tb) as (rb & Hb & Cb); [lia|lia|].
    rewrite Hb.
    assert (Qc : (1 <= inject_Z c)%Q)
      by (change 1%Q with (inject_Z 1); rewrite <- Zle_Qle; lia).
    assert (Qtb : (1 <= inject_Z tb)%Q)
      by (change 1%Q with (inject_Z 1); rewrite <- Zle_Qle; lia).
    destruct (ta =? 0) eqn:Ea.
    + (* the first ratio is 0.0, the second is positive *)
      assert (Hpos : (0 < inject_Z c / inject_Z tb)%Q)
        by (apply Qlt_shift_div_l; lra).
      lra.
    + apply Z.eqb_neq in Ea.
      destruct (py_truediv_close c ta) as (ra & Ha & Ca); [lia|lia|].
      rewrite Ha.
      apply (py_truediv_denominators c ta tb); try assumption; try lia.
      split; [lia|].
      (* the quotients are in the order opposite to the denominators *)
      destruct (Z_lt_dec tb ta) as [|Hge]; [assumption|exfalso].
      assert (Qta : (1 <= inject_Z ta)%Q)
        by (change 1%Q with (inject_Z 1); rewrite <- Zle_Qle; lia).
      assert (Qle' : (inject_Z ta <= inject_Z tb)%Q)
        by (rewrite <- Zle_Qle; lia).
      assert (Hle : (inject_Z c / inject_Z tb <= inject_Z c / inject_Z ta)%Q).
      { apply Qle_shift_div_l; [lra|].
        assert (E : (inject_Z c / inject_Z tb * inject_Z ta
                     == inject_Z c * (inject_Z ta / inject_Z tb))%Q)
          by (field; lra).
        rewrite E.
        assert (Hr : (inject_Z ta / inject_Z tb <= 1)%Q)
          by (apply Qle_shift_div_r; lra).
        assert (0 <= inject_Z c * (1 - inject_Z ta / inject_Z tb))%Q
          by (apply Qmult_le_0_compat; lra).
        lra. }
      lra.
Qed.

Lemma key_lt_false_ranks (a b : row) :
  moderate a -> moderate b -> key_lt a b = false -> ranks_before a b.
Proof.
  destruct a as [[na ca] ta], b as [[nb cb] tb].
  intros Ha Hb H. unfold key_lt in H. unfold ranks_before.
  apply orb_false_iff in H. destruct H as [H1 H2].
  apply Z.ltb_ge in H1. apply andb_false_iff in H2.
  destruct H2 as [H2|H2].
  - apply Z.eqb_neq in H2. left. lia.
  - destruct (Z.eq_dec ca cb) as [->|]; [right|left; lia].
    split; [reflexivity|].
    apply negb_false_iff, Qle_bool_iff in H2.
    apply Qnot_lt_le. intros Hlt.
    pose proof (key_ratio_strict na nb cb ta tb Ha Hb Hlt). lra.
Qed.

Lemma key_lt_true_ranks (a b : row) :
  moderate a -> moderate b -> key_lt a b = true -> ranks_before b a.
Proof.
  destruct a as [[na ca] ta], b as [[nb cb] tb].
  intros Ha Hb H. unfold key_lt in H. unfold ranks_before.
  apply orb_true_iff in H. destruct H as [H|H].
  - apply Z.ltb_lt in H. now left.
  - apply andb_true_iff in H. destruct H as [H1 H2].
    apply Z.eqb_eq in H1. subst cb. apply negb_true_iff in H2. right.
    split; [reflexivity|].
    apply Qnot_lt_le. intros Hlt.
    pose proof (key_ratio_strict nb na ca tb ta Hb Ha Hlt) as Hs.
    assert (Hle : Qle_bool (key_ratio (nb, ca, tb)) (key_ratio (na, ca, ta))
                  = true) by (apply Qle_bool_iff; lra).
    congruence.
Qed.

Lemma ranks_before_trans (a b c : row) :
  ranks_before a b -> ranks_before b c -> ranks_before a c.
Proof.
  destruct a as [[na ca] ta], b as [[nb cb] tb], c as [[nc cc] tc].
  unfold ranks_before. intros [H1|[H1 Q1]] [H2|[H2 Q2]].
  - left; lia.
  - left; lia.
  - left; lia.
  - right. split; [lia|]. subst. eapply Qle_trans; eassumption.
Qed.

Lemma insert_desc_Forall (P : row -> Prop) (x : row) (l : list row) :
  P x -> Forall P l -> Forall P (insert_desc x l).
Proof.
  intros Hx Hl. induction Hl as [|y l Hy Hl IH]; simpl.
  - auto.
  - destruct (key_lt x y); auto.
Qed.

Lemma sorted_desc_Forall (P : row -> Prop) (rows : list row) :
  Forall P rows -> Forall P (sorted_desc rows).
Proof.
  induction 1 as [|x rows Hx _ IH]; simpl; [constructor|].
  now apply insert_desc_Forall.
Qed.

Lemma insert_desc_sorted (x : row) (l : list row) :
  moderate x -> Forall moderate l ->
  StronglySorted ranks_before l ->
  StronglySorted ranks_before (insert_desc x l).
Proof.
  intros Hx Hm Hl. induction Hl as [|y l Hl IH Hy]; simpl.
  - repeat constructor.
  - inversion Hm as [|? ? Hmy Hml]; subst.
    destruct (key_lt x y) eqn:E.
    + constructor; [now apply IH|].
      apply insert_desc_Forall; [now apply key_lt_true_ranks|exact Hy].
    + apply key_lt_false_ranks in E; try assumption.
      constructor; [now constructor|].
      constructor; [exact E|].
      eapply Forall_impl; [|exact Hy].
      intros z Hz. now apply ranks_before_trans with y.
Qed.

Lemma sorted_desc_sorted (rows : list row) :
  Forall moderate rows -> StronglySorted ranks_before (sorted_desc rows).
Proof.
  induction 1 as [|x rows Hx Hm IH]; simpl; [constructor|].
  apply insert_desc_sorted; [exact Hx| |exact IH].
  now apply sorted_desc_Forall.
Qed.

Lemma insert_desc_perm (x : row) (l : list row) :
  Permutation (insert_desc x l) (x :: l).
Proof.
  induction l as [|y l IH]; simpl; [reflexivity|].
  destruct (key_lt x y); [|reflexivity].
  rewrite IH. apply perm_swap.
Qed.

Lemma sorted_desc_perm (rows : list row) :
  Permutation (sorted_desc rows) rows.
Proof.
  induction rows as [|x rows IH]; simpl; [reflexivity|].
  rewrite insert_desc_perm. now constructor.
Qed.

(** When every key can be computed, the sort gives the sorted rows. *)
Lemma py_sorted_keyed (rows : list row) :
  Forall (fun r => exists q, ratio r = Val q) rows ->
  py_sorted rows = Val (sorted_desc rows).
Proof.
  intros H. unfold py_sorted.
  assert (Hk : exists ks, keys_of rows = Val ks).
  { induction H as [|r rows [q Hq] _ [ks IH]]; simpl.
    - now exists [].
    - rewrite Hq, IH. eexists; reflexivity. }
  destruct Hk as [ks ->]. reflexivity.
Qed.

(** The only exception of the sort is the one of the division. *)
Lemma py_sorted_exc (rows : list row) (e : exn) :
  py_sorted rows = Exc e -> e = OverflowError.
Proof.
  unfold py_sorted.
  assert (Hk : forall e, keys_of rows = Exc e -> e = OverflowError).
  { induction rows as [|[[name c] t] rows IH]; simpl; [discriminate|].
    intros e'. destruct (t =? 0) eqn:Et.
    - destruct (keys_of rows); [discriminate|]. intros [= <-]. now apply IH.
    - unfold py_truediv. rewrite Et.
      destruct (nearest_double _).
      + destruct (keys_of rows); [discriminate|]. intros [= <-]. now apply IH.
      + now intros [= <-]. }
  destruct (keys_of rows) as [ks|e'] eqn:E; [discriminate|].
  intros [= <-]. now apply Hk.
Qed.

Section LeaderboardFacts.

Variable repr : json -> string.
Variable percent : Z -> Z -> string.
Variable combining : N -> Z.
Variable east_asian_width : N -> east_asian.

Lemma mark_winner_later (i : Z) (l : list row) :
  0 < i -> mark_winner repr i l = l.
Proof.
  revert i. induction l as [|[[name c] t] l IH]; intros i Hi; simpl;
    [reflexivity|].
  assert (E : (i =? 0) = false) by (apply Z.eqb_neq; lia).
  rewrite E, IH by lia. reflexivity.
Qed.

(** The width of a name that is a string is the width of its characters,
    and padding it raises nothing. *)
Lemma sum_widths_chars (s : string) (acc : Z) :
  sum_widths combining east_asian_width (chars s) acc
  = Val (fold_left Z.add
           (map (_char_width combining east_asian_width) (codes s)) acc).
Proof.
  revert acc. induction s as [|c s IH]; intros acc; [reflexivity|].
  cbn [chars sum_widths]. unfold char_width_of.
  change (codes (String c EmptyString)) with [N_of_ascii c].
  cbv iota. rewrite IH. reflexivity.
Qed.

Lemma display_width_of_str (s : string) :
  display_width_of combining east_asian_width (JStr s)
  = Val (display_width combining east_asian_width (codes s)).
Proof. unfold display_width_of. simpl. apply sum_widths_chars. Qed.

Lemma pad_display_of_str (s : string) (width : Z) :
  pad_display_of combining east_asian_width (JStr s) width = Val (JStr s).
Proof.
  unfold pad_display_of. rewrite display_width_of_str.
  now destruct (width <=? _).
Qed.

Lemma names_measured_named (l : list (string * Z * Z)) :
  names_measured combining east_asian_width (map named l)
  = Val (map (fun r => display_width combining east_asian_width
                         (codes (fst (fst r)))) l).
Proof.
  induction l as [|[[name c] t] l IH]; [reflexivity|].
  cbn [map named names_measured].
  now rewrite display_width_of_str, IH.
Qed.

Lemma print_rows_named (name_w : Z) (l : list (string * Z * Z)) (w : World) :
  print_rows repr percent combining east_asian_width name_w (map named l) w
  = (Ok tt, w, map EvOut (map (shown percent "") l)).
Proof.
  induction l as [|[[name c] t] l IH]; [reflexivity|].
  cbn [map named print_rows]. cbv zeta.
  rewrite (bind_lift_val _ _ _ w (pad_display_of_str name name_w)).
  unfold bind, print, emit. rewrite IH. reflexivity.
Qed.

(** The leaderboard of rows with string names whose keys can be computed:
    the four lines of the head, the rows as sorted, the first one marked,
    and the closing rule. *)
Lemma print_leaderboard_named (rows sorted : list (string * Z * Z))
    (w : World) :
  py_sorted (map named rows) = Val (map named sorted) ->
  print_leaderboard repr percent combining east_asian_width (map named rows) w
  = (Ok tt, w,
     map EvOut ([TableTitle; TableRule; TableHeader; TableRule]
                ++ shown_rows percent sorted ++ [TableRule])).
Proof.
  intros Hs. unfold print_leaderboard.
  rewrite (bind_lift_val _ _ _ w Hs). cbv zeta.
  assert (Hm : exists marked,
            mark_winner repr 0 (map named sorted) = map named marked /\
            map (shown percent "") marked = shown_rows percent sorted).
  { destruct sorted as [|[[n c] t] others].
    - now exists [].
    - exists ((("WINNER: " ++ n)%string, c, t) :: others).
      cbn [map named mark_winner]. change (0 =? 0) with true. cbv iota.
      rewrite mark_winner_later by lia. split; reflexivity. }
  destruct Hm as (marked & -> & <-).
  rewrite (bind_lift_val _ _ _ w (names_measured_named marked)).
  unfold bind, print, emit. rewrite print_rows_named. simpl.
  now rewrite map_app.
Qed.

Lemma sorted_named_map (R : row -> row -> Prop) (l : list (string * Z * Z)) :
  StronglySorted R (map named l) ->
  StronglySorted (fun a b => R (named a) (named b)) l.
Proof.
  induction l as [|x l IH]; simpl; intros H; [constructor|].
  inversion H as [|? ? Hs Hf]; subst.
  constructor; [now apply IH|]. rewrite Forall_map in Hf. exact Hf.
Qed.

(** The sort of rows with string names gives rows with string names. *)
Lemma sorted_desc_named (rows : list (string * Z * Z)) :
  exists sorted,
    sorted_desc (map named rows) = map named sorted /\
    Permutation sorted rows.
Proof.
  destruct (Permutation_map_inv named _ (sorted_desc_perm (map named rows)))
    as (sorted & Hsorted & Hperm).
  exists sorted. split; [exact Hsorted|now symmetry].
Qed.

(** C9, as the code has it.  The leaderboard of rows with string names and
    moderate counts (a count below [2^1023], games up to [2^52]) lists the
    rows in an order where every row stands before the rows it outranks or
    equals: more Exhausts first, and among equal counts the higher exact
    ratio count/games first, the ratio of a row without games being 0.  The
    first row listed, and no other, gets "WINNER: " before its name.  A row
    of 0 Exhausts in 0 games is listed like the others, its percentage cell
    being the dash. *)
Theorem leaderboard_ranked_and_marked (rows : list (string * Z * Z))
    (w : World) :
  Forall (fun r => moderate (named r)) rows ->
  exists sorted : list (string * Z * Z),
    Permutation sorted rows /\
    StronglySorted (fun a b => ranks_before (named a) (named b)) sorted /\
    print_leaderboard repr percent combining east_asian_width
      (map named rows) w
    = (Ok tt, w,
       map EvOut ([TableTitle; TableRule; TableHeader; TableRule]
                  ++ shown_rows percent sorted ++ [TableRule])) /\
    (forall name,
       In (name, 0, 0) rows ->
       In (TableRow name 0 "—" 0) (shown_rows percent sorted) \/
       In (TableRow ("WINNER: " ++ name) 0 "—" 0) (shown_rows percent sorted)).
Proof.
  intros Hmod.
  assert (Hm : Forall moderate (map named rows)) by now rewrite Forall_map.
  destruct (sorted_desc_named rows) as (sorted & Hsorted & Hperm).
  exists sorted. split; [exact Hperm|]. split.
  { apply sorted_named_map. rewrite <- Hsorted. now apply sorted_desc_sorted. }
  split.
  { apply print_leaderboard_named. rewrite <- Hsorted.
    apply py_sorted_keyed.
    eapply Forall_impl; [|exact Hm]. intros r. apply ratio_moderate. }
  intros name Hin.
  apply (Permutation_in _ (Permutation_sym Hperm)) in Hin.
  destruct sorted as [|[[n c] t] others]; [contradiction|].
  destruct Hin as [Heq|Hin].
  - injection Heq as -> -> ->. right. now left.
  - left. right. apply in_map_iff. exists (name, 0, 0).
    split; [reflexivity|exact Hin].
Qed.

End LeaderboardFacts.

(** ** The run over the participants and the report *)

Section ReportFacts.

Variable fuel : nat.
Variable float : string -> option pyfloat.
Variable repr : json -> string.
Variable percent : Z -> Z -> string.
Variable combining : N -> Z.
Variable east_asian_width : N -> east_asian.
Hypothesis fuel_enough : (3 <= fuel)%nat.

(** A participant whose resolution raises: one line on standard error, and
    the loop goes on with the same rows. *)
Lemma scan_step_unresolved (cfg : Settings) (client : RiotClient) (p : json)
    (rest : list json) (i : Z) (rows : list row) (w w1 : World) (e : exn)
    (ev1 : list event) :
  ensure_puuid fuel float client p w = (Raise e, w1, ev1) ->
  is_Exception e = true ->
  scan_players fuel float cfg client (p :: rest) i rows w
  = after (ev1 ++ [EvErr (SkippingParticipant i e)])
      (scan_players fuel float cfg client rest (i + 1) rows w1).
Proof.
  intros E He. cbn [scan_players].
  unfold bind at 1, try_except at 1, bind at 1. rewrite E, He.
  unfold bind at 1, print_err, emit, ret.
  destruct (scan_players fuel float cfg client rest (i + 1) rows w1)
    as [[r w'] t].
  unfold after. simpl. now rewrite <- !app_assoc.
Qed.

Lemma scan_step_uncounted (cfg : Settings) (client : RiotClient) (p : json)
    (rest : list json) (i : Z) (rows : list row) (w w1 w2 : World)
    (puuid display_name : json) (e : exn) (ev1 ev2 : list event) :
  ensure_puuid fuel float client p w = (Ok (puuid, display_name), w1, ev1) ->
  count_exhaust_for_player fuel float client puuid
    (MAX_MATCHES_PER_PLAYER cfg) w1 = (Raise e, w2, ev2) ->
  is_Exception e = true ->
  scan_players fuel float cfg client (p :: rest) i rows w
  = after (ev1 ++ ev2 ++ [EvErr (CountingError i display_name e)])
      (scan_players fuel float cfg client rest (i + 1) rows w2).
Proof.
  intros E1 E2 He. cbn [scan_players].
  unfold bind at 1, try_except at 1, bind at 1. rewrite E1.
  unfold ret at 1. cbv iota beta.
  unfold bind at 1, try_except at 1, bind at 1. rewrite E2, He.
  unfold bind at 1, print_err, emit, ret.
  destruct (scan_players fuel float cfg client rest (i + 1) rows w2)
    as [[r w'] t].
  unfold after. simpl. now rewrite <- !app_assoc.
Qed.

Lemma scan_step_tallied (cfg : Settings) (client : RiotClient) (p : json)
    (rest : list json) (i : Z) (rows : list row) (w w1 w2 : World)
    (puuid display_name : json) (ex_cnt total : Z) (ev1 ev2 : list event) :
  ensure_puuid fuel float client p w = (Ok (puuid, display_name), w1, ev1) ->
  count_exhaust_for_player fuel float client puuid
    (MAX_MATCHES_PER_PLAYER cfg) w1 = (Ok (ex_cnt, total), w2, ev2) ->
  sleepable (SLEEP_BETWEEN_PLAYERS cfg) ->
  scan_players fuel float cfg client (p :: rest) i rows w
  = after (ev1 ++ ev2 ++ [EvOut (PlayerTally i display_name ex_cnt total);
                          EvSleep (SLEEP_BETWEEN_PLAYERS cfg)])
      (scan_players fuel float cfg client rest (i + 1)
         (rows ++ [(display_name, ex_cnt, total)])
         (world_of (time_sleep (Finite (SLEEP_BETWEEN_PLAYERS cfg)) w2))).
Proof.
  intros E1 E2 Hs. cbn [scan_players].
  unfold bind at 1, try_except at 1, bind at 1. rewrite E1.
  unfold ret at 1. cbv iota beta.
  unfold bind at 1, try_except at 1, bind at 1. rewrite E2.
  unfold ret at 1. cbv iota beta.
  unfold bind at 1, print, emit. unfold bind at 1.
  destruct (time_sleep_done (SLEEP_BETWEEN_PLAYERS cfg) w2 Hs)
    as (w3 & E3 & _).
  rewrite E3. unfold world_of. simpl fst. simpl snd.
  destruct (scan_players fuel float cfg client rest (i + 1)
              (rows ++ [(display_name, ex_cnt, total)]) w3) as [[r w'] t].
  unfold after. simpl. now rewrite <- !app_assoc.
Qed.

(** The loop goes through every participant and ends: the rows it adds and
    the lines it leaves on standard error are those of [scanned], and the
    rows are tallies. *)
Lemma scan_players_scanned (cfg : Settings) (client : RiotClient) :
  sleepable (SLEEP_BETWEEN_PLAYERS cfg) ->
  forall participants i rows0 w,
    world_ok w ->
    exists rows errs w1 evs,
      scanned fuel float cfg client participants i w rows errs w1 /\
      scan_players fuel float cfg client participants i rows0 w
      = (Ok (rows0 ++ rows), w1, evs) /\
      errs_of evs = errs /\
      world_ok w1 /\
      (List.length rows + List.length errs = List.length participants)%nat /\
      Forall tallied rows.
Proof.
  intros Hs. induction participants as [|p rest IH]; intros i rows0 w Hok.
  - exists [], [], w, []. rewrite app_nil_r.
    split; [constructor|]. split; [reflexivity|]. split; [reflexivity|].
    split; [exact Hok|]. split; [reflexivity|constructor].
  - destruct (sound_ensure_puuid fuel float fuel_enough client p w Hok)
      as (Hok1 & Hr1 & _ & He1).
    destruct (ensure_puuid fuel float client p w)
      as [[[[puuid display_name]|e|] w1] ev1] eqn:E1;
      unfold world_of, result_of, events_of in Hok1, Hr1, He1;
      simpl in Hok1, Hr1, He1; [| |contradiction].
    + destruct (sound_count_exhaust_for_player fuel float fuel_enough client
                  puuid (MAX_MATCHES_PER_PLAYER cfg) w1 Hok1)
        as (Hok2 & Hr2 & _ & He2).
      destruct (count_exhaust_for_player fuel float client puuid
                  (MAX_MATCHES_PER_PLAYER cfg) w1)
        as [[[[ex_cnt total]|e|] w2] ev2] eqn:E2;
        unfold world_of, result_of, events_of in Hok2, Hr2, He2;
        simpl in Hok2, Hr2, He2; [| |contradiction].
      * destruct (time_sleep_done (SLEEP_BETWEEN_PLAYERS cfg) w2 Hs)
          as (w3 & E3 & Hok3 & _).
        assert (Hw3 : world_of (time_sleep
                                  (Finite (SLEEP_BETWEEN_PLAYERS cfg)) w2)
                      = w3) by now rewrite E3.
        destruct (IH (i + 1) (rows0 ++ [(display_name, ex_cnt, total)]) w3
                    (Hok3 Hok2))
          as (rows & errs & w' & evs & Hsc & Heq & Herr & Hok' & Hlen & Ht).
        exists ((display_name, ex_cnt, total) :: rows), errs, w'.
        eexists. split; [|split; [|split; [|split; [|split]]]].
        -- eapply scanned_tallied; try eassumption. now rewrite Hw3.
        -- rewrite (scan_step_tallied cfg client p rest i rows0 w w1 w2
                      puuid display_name ex_cnt total ev1 ev2 E1 E2 Hs).
           rewrite Hw3, Heq. unfold after. simpl.
           now rewrite <- app_assoc.
        -- rewrite !errs_of_app, He1, He2, Herr. reflexivity.
        -- exact Hok'.
        -- simpl. lia.
        -- constructor; [|exact Ht].
           apply (count_exhaust_tallied fuel float client puuid _ _ _ _ _ _
                    E2).
      * destruct (IH (i + 1) rows0 w2 Hok2)
          as (rows & errs & w' & evs & Hsc & Heq & Herr & Hok' & Hlen & Ht).
        exists rows, (CountingError i display_name e :: errs), w'.
        eexists. split; [|split; [|split; [|split; [|split]]]].
        -- eapply scanned_uncounted; eassumption.
        -- rewrite (scan_step_uncounted cfg client p rest i rows0 w w1 w2
                      puuid display_name e ev1 ev2 E1 E2 Hr2).
           rewrite Heq. unfold after. simpl. reflexivity.
        -- rewrite !errs_of_app, He1, He2, Herr. reflexivity.
        -- exact Hok'.
        -- simpl. lia.
        -- exact Ht.
    + destruct (IH (i + 1) rows0 w1 Hok1)
        as (rows & errs & w' & evs & Hsc & Heq & Herr & Hok' & Hlen & Ht).
      exists rows, (SkippingParticipant i e :: errs), w'.
      eexists. split; [|split; [|split; [|split; [|split]]]].
      * eapply scanned_unresolved; eassumption.
      * rewrite (scan_step_unresolved cfg client p rest i rows0 w w1 e ev1
                   E1 Hr1).
        rewrite Heq. unfold after. simpl. reflexivity.
      * rewrite !errs_of_app, He1, Herr. reflexivity.
      * exact Hok'.
      * simpl. lia.
      * exact Ht.
Qed.


End ReportFacts.

(** ** More on [run]: how it ends *)

Section RunExtra.

Variable fuel : nat.
Variable float : string -> option pyfloat.
Variable repr : json -> string.
Variable percent : Z -> Z -> string.
Variable combining : N -> Z.
Variable east_asian_width : N -> east_asian.
Hypothesis fuel_enough : (3 <= fuel)%nat.

Lemma display_width_of_exc (v : json) (e : exn) :
  display_width_of combining east_asian_width v = Exc e -> e = TypeError.
Proof.
  unfold display_width_of.
  assert (Hs : forall l acc,
             sum_widths combining east_asian_width l acc = Exc e ->
             e = TypeError).
  { induction l as [|x l IH]; intros acc; simpl; [discriminate|].
    destruct (char_width_of combining east_asian_width x) as [n|e'] eqn:Ec.
    - apply IH.
    - intros [= <-]. unfold char_width_of in Ec.
      destruct x; try (now injection Ec as <-).
      destruct (codes s) as [|ch [|ch' rest]]; try (now injection Ec as <-).
      discriminate. }
  destruct (py_iter v) as [l|e'] eqn:Ei; [apply Hs|].
  intros [= <-]. destruct v; simpl in Ei; try discriminate;
    now injection Ei as <-.
Qed.

Lemma names_measured_exc (l : list row) (e : exn) :
  names_measured combining east_asian_width l = Exc e -> e = TypeError.
Proof.
  induction l as [|[[name c] t] l IH]; simpl; [discriminate|].
  destruct (display_width_of combining east_asian_width name) as [n|e']
    eqn:Ed.
  - destruct (names_measured combining east_asian_width l); [discriminate|].
    intros [= <-]. now apply IH.
  - intros [= <-]. now apply display_width_of_exc in Ed.
Qed.

Lemma pad_display_of_exc (v : json) (width : Z) (e : exn) :
  pad_display_of combining east_asian_width v width = Exc e -> e = TypeError.
Proof.
  unfold pad_display_of.
  destruct (display_width_of combining east_asian_width v) as [n|e'] eqn:Ed.
  - destruct (width <=? n); [discriminate|].
    destruct v; try discriminate; now intros [= <-].
  - intros [= <-]. now apply display_width_of_exc in Ed.
Qed.

Lemma result_of_after {A} (evs : list event)
    (x : Result A * World * list event) :
  result_of (after evs x) = result_of x.
Proof. now destruct x as [[r w] t]. Qed.

Lemma print_then {A} (l : line) (k : M A) (w : World) :
  (print l ;;; k) w = after [EvOut l] (k w).
Proof. exact (bind_ok (print l) (fun _ => k) w w tt [EvOut l] eq_refl). Qed.

(** The rows are printed, or a [TypeError] is raised on the way. *)
Lemma print_rows_ends (name_w : Z) (l : list row) (w : World) :
  result_of (print_rows repr percent combining east_asian_width name_w l w)
  = Ok tt \/
  result_of (print_rows repr percent combining east_asian_width name_w l w)
  = Raise TypeError.
Proof.
  induction l as [|[[name c] t] l IH]; [now left|].
  cbn [print_rows]. cbv zeta.
  destruct (pad_display_of combining east_asian_width name name_w)
    as [cell|e] eqn:Ep.
  - rewrite (bind_lift_val _ cell _ w eq_refl), print_then, result_of_after.
    exact IH.
  - right. rewrite (bind_lift_exc _ e _ w eq_refl).
    now rewrite (pad_display_of_exc _ _ _ Ep).
Qed.

(** The leaderboard of tallies is printed, or a [TypeError] is raised on
    the way. *)
Lemma print_leaderboard_ends (rows : list row) (w : World) :
  Forall tallied rows ->
  result_of (print_leaderboard repr percent combining east_asian_width rows
               w) = Ok tt \/
  result_of (print_leaderboard repr percent combining east_asian_width rows
               w) = Raise TypeError.
Proof.
  intros Ht. unfold print_leaderboard.
  assert (Hs : py_sorted rows = Val (sorted_desc rows)).
  { apply py_sorted_keyed. eapply Forall_impl; [|exact Ht].
    intros r. apply ratio_tallied. }
  rewrite (bind_lift_val _ _ _ w Hs). cbv zeta.
  destruct (names_measured combining east_asian_width
              (mark_winner repr 0 (sorted_desc rows))) as [widths|e] eqn:E.
  - rewrite (bind_lift_val _ widths _ w eq_refl).
    rewrite !print_then, !result_of_after.
    set (nw := Z.max _ _).
    destruct (print_rows_ends nw (mark_winner repr 0 (sorted_desc rows)) w)
      as [Hr|Hr];
      destruct (print_rows repr percent combining east_asian_width nw
                  (mark_winner repr 0 (sorted_desc rows)) w)
        as [[r w'] t] eqn:Hp;
      unfold result_of in Hr; simpl in Hr; subst r.
    + left. rewrite (bind_ok _ _ _ _ _ _ Hp). reflexivity.
    + right. now rewrite (bind_raise _ _ _ _ _ _ Hp).
  - right. rewrite (bind_lift_exc _ e _ w eq_refl).
    now rewrite (names_measured_exc _ _ E).
Qed.

Lemma py_len_cases (v : json) :
  (exists n l, py_len v = Val n /\ py_iter v = Val l) \/
  py_len v = Exc TypeError.
Proof.
  unfold py_len. destruct v; simpl; eauto.
Qed.

(** [run] once the key is set. *)
Lemma run_with_key (cfg : Settings) (w : World) :
  key_set cfg = true ->
  run fuel float repr percent combining east_asian_width cfg w
  = (participants <-
       try_except
         (get_live_participants_via_puuid_only fuel float (client_of cfg)
            (RIOT_NAME cfg) (RIOT_TAG cfg))
         (fun e => print_err (FailedToLoad e) ;;; sys_exit 2) ;;
     if negb (truthy participants) then
       print_err NoParticipants ;;; sys_exit 3
     else
       n <- lift (py_len participants) ;;
       print (FoundParticipants n (MAX_MATCHES_PER_PLAYER cfg)) ;;;
       ps <- lift (py_iter participants) ;;
       scan_and_report fuel float repr percent combining east_asian_width cfg
         (client_of cfg) ps) w.
Proof.
  unfold key_set, run. intros H. apply negb_true_iff in H. now rewrite H.
Qed.

(** X14.  The exits of [run].  Without an API key it writes the
    configuration error and exits with code 1, before any slot is taken or
    any request sent.  When the lookup of the live participants raises, it
    writes the failure and exits with code 2.  When the lookup returns no
    participants (an empty list, or anything falsy), it writes so and exits
    with code 3. *)
Theorem run_exit_codes (cfg : Settings) (w : World) :
  world_ok w ->
  (key_set cfg = false ->
   run fuel float repr percent combining east_asian_width cfg w
   = (Raise (SystemExit 1), w, [EvErr ConfigMissing])) /\
  (forall e w1 ev,
     key_set cfg = true ->
     get_live_participants_via_puuid_only fuel float (client_of cfg)
       (RIOT_NAME cfg) (RIOT_TAG cfg) w = (Raise e, w1, ev) ->
     run fuel float repr percent combining east_asian_width cfg w
     = (Raise (SystemExit 2), w1, ev ++ [EvErr (FailedToLoad e)])) /\
  (forall participants w1 ev,
     key_set cfg = true ->
     get_live_participants_via_puuid_only fuel float (client_of cfg)
       (RIOT_NAME cfg) (RIOT_TAG cfg) w = (Ok participants, w1, ev) ->
     truthy participants = false ->
     run fuel float repr percent combining east_asian_width cfg w
     = (Raise (SystemExit 3), w1, ev ++ [EvErr NoParticipants])).
Proof.
  intros Hok. split; [|split].
  - unfold key_set, run. intros H. apply negb_false_iff in H. now rewrite H.
  - intros e w1 ev Hk Hg. rewrite (run_with_key cfg w Hk).
    pose proof (sound_get_live_participants fuel float fuel_enough
                  (client_of cfg) (RIOT_NAME cfg) (RIOT_TAG cfg) w Hok)
      as (_ & Hr & _).
    rewrite Hg in Hr. unfold result_of in Hr. simpl in Hr.
    unfold bind at 1, try_except. rewrite Hg, Hr. reflexivity.
  - intros participants w1 ev Hk Hg Ht. rewrite (run_with_key cfg w Hk).
    unfold bind at 1, try_except. rewrite Hg, Ht. reflexivity.
Qed.

Lemma time_sleep_overflow (d : Z) (w : World) :
  SLEEP_MAX < d -> time_sleep (Finite d) w = (Raise OverflowError, w, []).
Proof.
  intros H. unfold time_sleep. apply Z.ltb_lt in H.
  now rewrite H, orb_true_r.
Qed.

(** The loop over the participants ends with its rows, which are tallies,
    or, when the pause between players is beyond what [time.sleep] takes,
    with the [OverflowError] of the first pause. *)
Lemma scan_players_ends (cfg : Settings) (client : RiotClient) :
  0 <= SLEEP_BETWEEN_PLAYERS cfg ->
  forall participants i rows0 w,
    world_ok w -> Forall tallied rows0 ->
    (exists rows w1 evs,
       scan_players fuel float cfg client participants i rows0 w
       = (Ok rows, w1, evs) /\ Forall tallied rows) \/
    (SLEEP_MAX < SLEEP_BETWEEN_PLAYERS cfg /\
     result_of (scan_players fuel float cfg client participants i rows0 w)
     = Raise OverflowError).
Proof.
  intros H0.
  destruct (Z_le_dec (SLEEP_BETWEEN_PLAYERS cfg) SLEEP_MAX) as [Hm|Hm].
  - intros participants i rows0 w Hok Ht0. left.
    destruct (scan_players_scanned fuel float fuel_enough cfg client
                (conj H0 Hm) participants i rows0 w Hok)
      as (rows & errs & w1 & evs & _ & Hscan & _ & _ & _ & Ht).
    exists (rows0 ++ rows), w1, evs. split; [exact Hscan|].
    apply Forall_app. now split.
  - assert (Hbig : SLEEP_MAX < SLEEP_BETWEEN_PLAYERS cfg) by lia.
    assert (Hstep : forall evs x,
              (exists rows w1 evs',
                 x = (Ok rows, w1, evs') /\ Forall tallied rows) \/
              (SLEEP_MAX < SLEEP_BETWEEN_PLAYERS cfg /\
               result_of x = Raise OverflowError) ->
              (exists (rows : list row) w1 evs',
                 after evs x = (Ok rows, w1, evs') /\ Forall tallied rows) \/
              (SLEEP_MAX < SLEEP_BETWEEN_PLAYERS cfg /\
               result_of (after evs x) = Raise OverflowError)).
    { intros evs x [(rows & w1 & evs' & -> & Ht)|[_ Hr]].
      - left. exists rows, w1, (evs ++ evs'). now split.
      - right. split; [exact Hbig|]. now rewrite result_of_after. }
    induction participants as [|p rest IH]; intros i rows0 w Hok Ht0.
    + left. exists rows0, w, []. now split.
    + destruct (sound_ensure_puuid fuel float fuel_enough client p w Hok)
        as (Hok1 & Hr1 & _).
      destruct (ensure_puuid fuel float client p w)
        as [[[[puuid display_name]|e|] w1] ev1] eqn:E1;
        unfold world_of, result_of in Hok1, Hr1; simpl in Hok1, Hr1;
        [| |contradiction].
      * destruct (sound_count_exhaust_for_player fuel float fuel_enough
                    client puuid (MAX_MATCHES_PER_PLAYER cfg) w1 Hok1)
          as (Hok2 & Hr2 & _).
        destruct (count_exhaust_for_player fuel float client puuid
                    (MAX_MATCHES_PER_PLAYER cfg) w1)
          as [[[[ex_cnt total]|e|] w2] ev2] eqn:E2;
          unfold world_of, result_of in Hok2, Hr2; simpl in Hok2, Hr2;
          [| |contradiction].
        -- right. split; [exact Hbig|]. cbn [scan_players].
           unfold bind at 1, try_except at 1, bind at 1. rewrite E1.
           unfold ret at 1. cbv iota beta.
           unfold bind at 1, try_except at 1, bind at 1. rewrite E2.
           unfold ret at 1. cbv iota beta.
           unfold bind at 1, print, emit. unfold bind at 1.
           now rewrite (time_sleep_overflow _ w2 Hbig).
        -- rewrite (scan_step_uncounted fuel float cfg client p rest i rows0
                      w w1 w2 puuid display_name e ev1 ev2 E1 E2 Hr2).
           apply Hstep, IH; assumption.
      * rewrite (scan_step_unresolved fuel float cfg client p rest i rows0 w
                   w1 e ev1 E1 Hr1).
        apply Hstep, IH; assumption.
Qed.

(** X15.  From a world within limits and with a pause between players that
    is not negative, [run] ends, and it ends in one of these ways only:
    normally, after the report; by [sys.exit] with code 1, 2 or 3; with a
    [TypeError], that of [len] on a participants value without a length or
    of the renderer on a name that is not a string; or, only when the pause
    between players is beyond what [time.sleep] takes, with the
    [OverflowError] of that pause.  No error of the client or of the
    per-player work leaves it. *)
Theorem run_ends_in_report_or_exit (cfg : Settings) (w : World) :
  world_ok w -> 0 <= SLEEP_BETWEEN_PLAYERS cfg ->
  match result_of (run fuel float repr percent combining east_asian_width cfg
                     w) with
  | Ok _ => True
  | Raise (SystemExit code) => code = 1 \/ code = 2 \/ code = 3
  | Raise TypeError => True
  | Raise OverflowError => SLEEP_MAX < SLEEP_BETWEEN_PLAYERS cfg
  | _ => False
  end.
Proof.
  intros Hok Hs. destruct (key_set cfg) eqn:Hk.
  2:{ unfold key_set in Hk. apply negb_false_iff in Hk.
      unfold run. rewrite Hk. simpl. auto. }
  rewrite (run_with_key cfg w Hk).
  pose proof (sound_get_live_participants fuel float fuel_enough
                (client_of cfg) (RIOT_NAME cfg) (RIOT_TAG cfg) w Hok)
    as (Hok1 & Hr & _).
  unfold bind at 1, try_except.
  destruct (get_live_participants_via_puuid_only fuel float (client_of cfg)
              (RIOT_NAME cfg) (RIOT_TAG cfg) w)
    as [[[participants|e|] w1] ev] eqn:Hg;
    unfold result_of, world_of in Hr, Hok1; simpl in Hr, Hok1;
    [| |contradiction].
  - destruct (truthy participants); simpl.
    2:{ unfold result_of. simpl. auto. }
    destruct (py_len_cases participants) as [(n & l & Hn & Hl)|Hn].
    + rewrite (bind_lift_val _ n _ w1 Hn).
      unfold bind at 1, print, emit.
      rewrite (bind_lift_val _ l _ w1 Hl).
      unfold scan_and_report.
      destruct (scan_players_ends cfg (client_of cfg) Hs l 1 [] w1 Hok1
                  (Forall_nil _))
        as [(rows & w2 & evs & Hscan & Ht)|[Hbig Hr']].
      * rewrite (bind_ok _ _ _ _ _ _ Hscan).
        unfold report.
        destruct rows as [|r0 rows]; [unfold result_of; now simpl|].
        destruct (print_leaderboard_ends (r0 :: rows) w2 Ht) as [Hp|Hp];
          destruct (print_leaderboard repr percent combining
                      east_asian_width (r0 :: rows) w2) as [[r w3] t3];
          unfold result_of in Hp; simpl in Hp; subst r;
          unfold result_of; now simpl.
      * destruct (scan_players fuel float cfg (client_of cfg) l 1 [] w1)
          as [[r w2] evs] eqn:Hscan.
        unfold result_of in Hr'. simpl in Hr'. subst r.
        rewrite (bind_raise _ _ _ _ _ _ Hscan).
        unfold result_of. simpl. exact Hbig.
    + rewrite (bind_lift_exc _ _ _ w1 Hn). unfold result_of. now simpl.
  - rewrite Hr. unfold result_of. simpl. auto.
Qed.

End RunExtra.

(** ** More on the table: widths, alignment, ties *)

Section WidthFacts.

Variable combining : N -> Z.
Variable east_asian_width : N -> east_asian.

Local Abbreviation char_w := (_char_width combining east_asian_width).
Local Abbreviation width_of := (display_width combining east_asian_width).
Local Abbreviation pad := (pad_display combining east_asian_width).

Lemma fold_left_add (l : list Z) (a : Z) :
  fold_left Z.add l a = a + fold_left Z.add l 0.
Proof.
  revert a. induction l as [|x l IH]; intros a; simpl; [lia|].
  rewrite (IH (a + x)), (IH x). lia.
Qed.

Lemma py_sum_cons (x : Z) (l : list Z) : py_sum (x :: l) = x + py_sum l.
Proof. unfold py_sum. simpl. rewrite fold_left_add. lia. Qed.

Lemma display_width_cons (ch : N) (s : pystr) :
  width_of (ch :: s) = char_w ch + width_of s.
Proof. unfold display_width. simpl. apply py_sum_cons. Qed.

Lemma display_width_app (a b : pystr) :
  width_of (a ++ b) = width_of a + width_of b.
Proof.
  induction a as [|ch a IH]; simpl.
  - change (width_of []) with 0. lia.
  - rewrite !display_width_cons, IH. lia.
Qed.

Lemma char_width_range (ch : N) : 0 <= char_w ch <= 2.
Proof.
  unfold _char_width. destruct (negb (combining ch =? 0)); [lia|].
  destruct (east_asian_width ch); lia.
Qed.

Lemma display_width_range (s : pystr) :
  0 <= width_of s <= 2 * py_strlen s.
Proof.
  unfold py_strlen. induction s as [|ch s IH].
  - unfold display_width, py_sum. simpl. lia.
  - rewrite display_width_cons. pose proof (char_width_range ch).
    cbn [List.length]. lia.
Qed.

Lemma display_width_narrow (s : pystr) :
  narrow char_w s -> width_of s = py_strlen s.
Proof.
  unfold py_strlen. induction 1 as [|ch s Hch _ IH].
  - reflexivity.
  - rewrite display_width_cons, Hch, IH. cbn [List.length]. lia.
Qed.

Lemma narrow_repeat (ch : N) (n : nat) :
  char_w ch = 1 -> narrow char_w (repeat ch n).
Proof. intros H. induction n; simpl; constructor; auto. Qed.

Lemma display_width_spaces (n : Z) :
  char_w 32 = 1 -> width_of (spaces n) = Z.max 0 n.
Proof.
  intros H. unfold spaces.
  rewrite (display_width_narrow _ (narrow_repeat 32 _ H)).
  unfold py_strlen. rewrite repeat_length. lia.
Qed.

Lemma pad_display_spaces (s : pystr) (width : Z) :
  pad s width
  = s ++ spaces (width - width_of s).
Proof.
  unfold pad_display. cbv zeta.
  destruct (width <=? width_of s) eqn:E; [|reflexivity].
  apply Z.leb_le in E. unfold spaces.
  replace (Z.to_nat (width - width_of s)) with 0%nat by lia.
  simpl. now rewrite app_nil_r.
Qed.

Lemma pad_display_width (s : pystr) (width : Z) :
  char_w 32 = 1 ->
  width_of (pad s width)
  = Z.max (width_of s) width.
Proof.
  intros H. rewrite pad_display_spaces, display_width_app,
    display_width_spaces by exact H. lia.
Qed.

(** X16.  When the space is one column wide, [pad_display] gives a string
    whose display width is the larger of the string's own and the width
    asked; the string itself is kept whole, only spaces are added after it;
    and padding again to the same width changes nothing. *)
Theorem pad_display_reaches_the_width (s : pystr) (width : Z) :
  _char_width combining east_asian_width 32 = 1 ->
  display_width combining east_asian_width
    (pad_display combining east_asian_width s width)
  = Z.max (display_width combining east_asian_width s) width /\
  pad_display combining east_asian_width s width
  = s ++ spaces (width - display_width combining east_asian_width s) /\
  pad_display combining east_asian_width
    (pad_display combining east_asian_width s width) width
  = pad_display combining east_asian_width s width.
Proof.
  intros H. split; [now apply pad_display_width|].
  split; [apply pad_display_spaces|].
  rewrite (pad_display_spaces (pad_display _ _ s width)).
  rewrite pad_display_width by exact H. unfold spaces.
  replace (Z.to_nat (width - Z.max (width_of s) width)) with 0%nat by lia.
  simpl. now rewrite app_nil_r.
Qed.

Lemma rjust_width (c : pystr) (width : Z) :
  char_w 32 = 1 -> narrow char_w c -> py_strlen c <= width ->
  width_of (rjust c width) = width.
Proof.
  intros H Hn Hl. unfold rjust.
  rewrite display_width_app, display_width_spaces by exact H.
  rewrite (display_width_narrow c Hn). lia.
Qed.

Lemma fold_left_max_ge (l : list Z) (a x : Z) :
  x <= a \/ In x l -> x <= fold_left Z.max l a.
Proof.
  revert a. induction l as [|y l IH]; intros a [H|H]; simpl in *;
    try lia; try contradiction.
  - apply IH. left. lia.
  - destruct H as [->|H]; apply IH; [left; lia|now right].
Qed.

Lemma py_max_ge (l : list Z) (default x : Z) : In x l -> x <= py_max l default.
Proof.
  destruct l as [|y l]; [contradiction|]. simpl.
  intros [->|H]; apply fold_left_max_ge; [left; lia|now right].
Qed.

Lemma name_w_ge (names : list pystr) (name : pystr) :
  In name names -> width_of name <= name_w combining east_asian_width names.
Proof.
  intros H. unfold name_w.
  pose proof (py_max_ge (map width_of names) 12 (width_of name)
                (in_map _ _ _ H)). lia.
Qed.

Lemma table_line_width (names : list pystr) (name c1 c2 c3 : pystr) :
  char_w 32 = 1 ->
  width_of name <= name_w combining east_asian_width names ->
  narrow char_w c1 -> py_strlen c1 <= exhaust_w ->
  narrow char_w c2 -> py_strlen c2 <= pct_w ->
  narrow char_w c3 -> py_strlen c3 <= games_w ->
  width_of (table_line combining east_asian_width names name c1 c2 c3)
  = total_line_w combining east_asian_width names.
Proof.
  intros H Hn N1 L1 N2 L2 N3 L3. unfold table_line, total_line_w.
  rewrite !display_width_app, pad_display_width by exact H.
  rewrite !rjust_width by assumption.
  assert (H2 : width_of (codes "  ") = 2).
  { change (codes "  ") with [32%N; 32%N].
    rewrite !display_width_cons, H. reflexivity. }
  rewrite H2. lia.
Qed.

(** X17.  The table is aligned: when the ASCII characters are one column
    wide, the rule, the header and every row whose name is among the names
    measured and whose three cells are narrow and fit their columns have the
    same display width, [total_line_w], whatever the widths of the names. *)
Theorem table_lines_have_one_width (names : list pystr)
    (name c1 c2 c3 : pystr) :
  (forall ch, (ch < 128)%N -> _char_width combining east_asian_width ch = 1) ->
  In name names ->
  narrow (_char_width combining east_asian_width) c1 -> py_strlen c1 <= 8 ->
  narrow (_char_width combining east_asian_width) c2 -> py_strlen c2 <= 9 ->
  narrow (_char_width combining east_asian_width) c3 -> py_strlen c3 <= 5 ->
  display_width combining east_asian_width
    (table_line combining east_asian_width names name c1 c2 c3)
  = total_line_w combining east_asian_width names /\
  display_width combining east_asian_width
    (header_line combining east_asian_width names)
  = total_line_w combining east_asian_width names /\
  display_width combining east_asian_width
    (rule_line combining east_asian_width names)
  = total_line_w combining east_asian_width names.
Proof.
  intros Hascii Hin N1 L1 N2 L2 N3 L3.
  assert (H32 : char_w 32 = 1) by (apply Hascii; reflexivity).
  split; [|split].
  - apply table_line_width; auto. now apply name_w_ge.
  - unfold header_line. apply table_line_width; auto.
    + unfold name_w. lia.
    + repeat constructor; apply Hascii; reflexivity.
    + vm_compute. discriminate.
    + repeat constructor; apply Hascii; reflexivity.
    + vm_compute. discriminate.
    + repeat constructor; apply Hascii; reflexivity.
    + vm_compute. discriminate.
  - unfold rule_line.
    rewrite (display_width_narrow _ (narrow_repeat 45 _
                                       (Hascii 45%N eq_refl))).
    unfold py_strlen. rewrite repeat_length.
    assert (0 <= total_line_w combining east_asian_width names).
    { unfold total_line_w, name_w.
      pose proof (display_width_range header_player).
      change exhaust_w with 8. change pct_w with 9. change games_w with 5.
      lia. }
    lia.
Qed.

End WidthFacts.

Section TieFacts.

Lemma same_key_no_lt (k x y : row) :
  same_key k x = true -> same_key k y = true -> key_lt x y = false.
Proof.
  destruct k as [[nk ck] tk], x as [[nx cx] tx], y as [[ny cy] ty].
  unfold same_key, key_lt.
  set (qk := key_ratio (nk, ck, tk)). set (qx := key_ratio (nx, cx, tx)).
  set (qy := key_ratio (ny, cy, ty)).
  intros Hx Hy.
  apply andb_true_iff in Hx. destruct Hx as [Hx1 Hx2].
  apply andb_true_iff in Hy. destruct Hy as [Hy1 Hy2].
  apply negb_true_iff, orb_false_iff in Hx1, Hx2, Hy1, Hy2.
  destruct Hx1 as [A1 A2], Hx2 as [A3 A4], Hy1 as [B1 B2], Hy2 as [B3 B4].
  apply Z.ltb_ge in A1, A3, B1, B3.
  assert (Ex : ck = cx) by lia. assert (Ey : ck = cy) by lia.
  subst cx cy. rewrite Z.eqb_refl in *. simpl in *.
  apply negb_false_iff, Qle_bool_iff in A2, A4, B2, B4.
  apply orb_false_iff. split; [apply Z.ltb_ge; lia|].
  apply negb_false_iff, Qle_bool_iff.
  apply Qle_trans with qk; assumption.
Qed.

Lemma insert_desc_same_key (k x : row) (l : list row) :
  filter (same_key k) (insert_desc x l) = filter (same_key k) (x :: l).
Proof.
  induction l as [|y l IH]; [reflexivity|].
  cbn [insert_desc]. destruct (key_lt x y) eqn:E; [|reflexivity].
  cbn [filter] in *. rewrite IH.
  destruct (same_key k x) eqn:Ex; destruct (same_key k y) eqn:Ey;
    try reflexivity.
  rewrite (same_key_no_lt k x y Ex Ey) in E. discriminate.
Qed.

(** X18.  Ties keep their order: the rows that have the same count and the
    same ratio as any given row come out of the sort of [print_leaderboard]
    in the order they went in. *)
Theorem sort_keeps_the_order_of_ties (rows : list row) (k : row) :
  filter (same_key k) (sorted_desc rows) = filter (same_key k) rows.
Proof.
  induction rows as [|x rows IH]; [reflexivity|].
  cbn [sorted_desc]. rewrite insert_desc_same_key.
  cbn [filter]. now rewrite IH.
Qed.

End TieFacts.

Lemma example_ascii_narrow (ch : N) :
  (ch < 128)%N ->
  _char_width example_combining example_east_asian_width ch = 1.
Proof.
  intros H. unfold _char_width, example_combining, example_east_asian_width.
  assert (E1 : (768 <=? ch)%N = false) by (apply N.leb_gt; lia).
  assert (E2 : (19968 <=? ch)%N = false) by (apply N.leb_gt; lia).
  now rewrite E1, E2.
Qed.

Lemma pad_display_reaches_the_width_witness :
  display_width example_combining example_east_asian_width
    (pad_display example_combining example_east_asian_width
       [20013%N; 25991%N; 97%N; 769%N] 8)
  = Z.max 5 8 /\
  pad_display example_combining example_east_asian_width
    [20013%N; 25991%N; 97%N; 769%N] 8
  = [20013%N; 25991%N; 97%N; 769%N] ++ spaces (8 - 5) /\
  pad_display example_combining example_east_asian_width
    (pad_display example_combining example_east_asian_width
       [20013%N; 25991%N; 97%N; 769%N] 8) 8
  = pad_display example_combining example_east_asian_width
      [20013%N; 25991%N; 97%N; 769%N] 8.
Proof.
  apply (pad_display_reaches_the_width example_combining
           example_east_asian_width [20013%N; 25991%N; 97%N; 769%N] 8).
  reflexivity.
Defined.

Lemma table_lines_have_one_width_witness :
  display_width example_combining example_east_asian_width
    (table_line example_combining example_east_asian_width
       [codes "Alpha#1"; [20013%N; 25991%N; 20013%N; 25991%N; 20013%N]]
       [20013%N; 25991%N; 20013%N; 25991%N; 20013%N]
       (codes "12") [8212%N] (codes "20"))
  = 38 /\
  display_width example_combining example_east_asian_width
    (header_line example_combining example_east_asian_width
       [codes "Alpha#1"; [20013%N; 25991%N; 20013%N; 25991%N; 20013%N]])
  = 38 /\
  display_width example_combining example_east_asian_width
    (rule_line example_combining example_east_asian_width
       [codes "Alpha#1"; [20013%N; 25991%N; 20013%N; 25991%N; 20013%N]])
  = 38.
Proof.
  apply (table_lines_have_one_width example_combining
           example_east_asian_width
           [codes "Alpha#1"; [20013%N; 25991%N; 20013%N; 25991%N; 20013%N]]
           [20013%N; 25991%N; 20013%N; 25991%N; 20013%N]
           (codes "12") [8212%N] (codes "20")).
  - apply example_ascii_narrow.
  - right. left. reflexivity.
  - repeat constructor.
  - vm_compute. discriminate.
  - repeat constructor.
  - vm_compute. discriminate.
  - repeat constructor.
  - vm_compute. discriminate.
Defined.

(** ** Every request of a run is paced by the limiter *)

Lemma paced_quiet {A} (m : M A) :
  (forall w, world_of (m w) = w /\ slot_times (events_of (m w)) = [] /\
             paired (events_of (m w)) = true) ->
  paced m.
Proof.
  intros H w adm Hacc. destruct (H w) as (Hw & Hs & Hp).
  rewrite Hw, Hs, app_nil_r. auto.
Qed.

Lemma paced_ret {A} (a : A) : paced (ret a).
Proof. apply paced_quiet. intros w. now unfold ret. Qed.

Lemma paced_raise {A} (e : exn) : paced (@raise A e).
Proof. apply paced_quiet. intros w. now unfold raise. Qed.

Lemma paced_lift {A} (r : Pure A) : paced (lift r).
Proof. apply paced_quiet. intros w. now unfold lift. Qed.

Lemma paced_print (l : line) : paced (print l).
Proof. apply paced_quiet. intros w. now unfold print, emit. Qed.

Lemma paced_print_err (l : line) : paced (print_err l).
Proof. apply paced_quiet. intros w. now unfold print_err, emit. Qed.

Lemma paced_bind {A B} (m : M A) (f : A -> M B) :
  paced m -> (forall a, paced (f a)) -> paced (bind m f).
Proof.
  intros Hm Hf w adm Hacc. destruct (Hm w adm Hacc) as [H1 P1].
  unfold bind. destruct (m w) as [[r w1] t1].
  unfold world_of, events_of in *. simpl in *.
  destruct r as [a|e|]; simpl; auto.
  destruct (Hf a w1 _ H1) as [H2 P2].
  destruct (f a w1) as [[r2 w2] t2].
  unfold world_of, events_of in *. simpl in *.
  rewrite slot_times_app, app_assoc. split; [exact H2|].
  now apply paired_app.
Qed.

Lemma paced_try {A} (m : M A) (h : exn -> M A) :
  paced m -> (forall e, paced (h e)) -> paced (try_except m h).
Proof.
  intros Hm Hh w adm Hacc. destruct (Hm w adm Hacc) as [H1 P1].
  unfold try_except. destruct (m w) as [[r w1] t1].
  unfold world_of, events_of in *. simpl in *.
  destruct r as [a|e|]; simpl; auto.
  destruct (is_Exception e); simpl; auto.
  destruct (Hh e w1 _ H1) as [H2 P2].
  destruct (h e w1) as [[r2 w2] t2].
  unfold world_of, events_of in *. simpl in *.
  rewrite slot_times_app, app_assoc. split; [exact H2|].
  now apply paired_app.
Qed.

Lemma paced_time_sleep (x : pyfloat) : paced (time_sleep x).
Proof.
  intros w adm Hacc. unfold time_sleep.
  destruct x as [d|neg|];
    try (unfold world_of, events_of; simpl; now rewrite app_nil_r).
  destruct ((d <? - SLEEP_MAX) || (SLEEP_MAX <? d));
    [unfold world_of, events_of; simpl; now rewrite app_nil_r|].
  destruct (d <? 0) eqn:E.
  - unfold world_of, events_of. simpl. now rewrite app_nil_r.
  - unfold world_of, events_of, accounts_for in *. simpl.
    rewrite app_nil_r. split; [|reflexivity].
    apply LimiterFacts.tracks_prune_idle with (Limiter.now (clock w));
      [exact Hacc|].
    apply Z.ltb_ge in E.
    pose proof (LimiterFacts.sleep_clock_later d (clock w)). lia.
Qed.

Section Pacing.

Variable fuel : nat.
Variable float : string -> option pyfloat.
Variable repr : json -> string.
Variable percent : Z -> Z -> string.
Variable combining : N -> Z.
Variable east_asian_width : N -> east_asian.

(** A slot and the request that uses it, however long the request takes. *)
Lemma paced_slot_then_request (r : request) (k : Response -> M json) :
  (forall resp, paced (k resp)) ->
  paced (RATE_LIMITER_wait_for_slot fuel ;;; resp <- session_get r ;; k resp).
Proof.
  intros Hk w adm Hacc.
  destruct (Limiter.wait_for_slot Limiter.module_config fuel (RATE_LIMITER w)
              (clock w)) as [[[rl c] s]|] eqn:Hw.
  - destruct (LimiterFacts.wait_for_slot_tracks _ _ _ _ _ _ _ _ Hacc Hw)
      as [_ Htr].
    set (w1 := {| clock := c; RATE_LIMITER := rl; server := server w;
                  latency := latency w; sent := sent w |}).
    set (w2 := {| clock := Limiter.elapse (latency w (sent w)) c;
                  RATE_LIMITER := rl; server := server w;
                  latency := latency w; sent := S (sent w) |}).
    assert (Htr2 : accounts_for w2 (adm ++ [Limiter.now c])).
    { unfold accounts_for. simpl.
      apply LimiterFacts.tracks_prune_idle with (Limiter.now c);
        [exact Htr|lia]. }
    assert (Hslot : RATE_LIMITER_wait_for_slot fuel w
                    = (Ok tt, w1, [EvSlot (Limiter.now c) s])).
    { unfold RATE_LIMITER_wait_for_slot. now rewrite Hw. }
    rewrite (bind_ok _ _ _ _ _ _ Hslot).
    destruct (server w (sent w) r) as [kind|resp] eqn:Hs.
    + assert (Hg : session_get r w1
                   = (Raise (RequestException kind), w2, [EvGet r])).
      { unfold session_get. simpl. now rewrite Hs. }
      rewrite (bind_raise _ _ _ _ _ _ Hg).
      unfold after, world_of, events_of. simpl. auto.
    + assert (Hg : session_get r w1 = (Ok resp, w2, [EvGet r])).
      { unfold session_get. simpl. now rewrite Hs. }
      rewrite (bind_ok _ _ _ _ _ _ Hg), after_after.
      destruct (Hk resp w2 (adm ++ [Limiter.now c]) Htr2) as [H2 P2].
      destruct (k resp w2) as [[r2 w3] t2].
      unfold after, world_of, events_of in *. simpl in *.
      rewrite <- app_assoc in H2. auto.
  - assert (Hslot : RATE_LIMITER_wait_for_slot fuel w = (Hang, w, [])).
    { unfold RATE_LIMITER_wait_for_slot. now rewrite Hw. }
    rewrite (bind_hang _ _ _ _ _ Hslot).
    unfold world_of, events_of. simpl. now rewrite app_nil_r.
Qed.

Lemma paced_get_attempts (u : url) (params : option (list (string * Z)))
    (backoff_sec : Z) (attempts : list Z) :
  paced (_get_attempts fuel float u params backoff_sec attempts).
Proof.
  induction attempts as [|attempt rest IH]; cbn [_get_attempts].
  - apply paced_raise.
  - apply paced_slot_then_request. intros resp.
    destruct (status_code resp =? 429).
    + apply paced_bind; [apply paced_lift|intros d].
      apply paced_bind; [apply paced_time_sleep|intros _; exact IH].
    + destruct ((500 <=? status_code resp) && (status_code resp <? 600)).
      * apply paced_bind; [apply paced_time_sleep|intros _; exact IH].
      * destruct (resp_ok resp); [apply paced_ret|apply paced_raise].
Qed.

Lemma paced_get (self : RiotClient) (u : url)
    (params : option (list (string * Z))) :
  paced (get fuel float self u params).
Proof. apply paced_get_attempts. Qed.

Ltac pace_step :=
  first
    [ apply paced_get
    | apply paced_ret
    | apply paced_raise
    | apply paced_lift
    | apply paced_print
    | apply paced_print_err
    | apply paced_time_sleep
    | apply paced_bind; [|intros ?]
    | apply paced_try; [|intros ?]
    | progress cbv zeta
    | match goal with
      | |- paced (if ?b then _ else _) => destruct b
      | |- paced (match ?o with Some _ => _ | None => _ end) => destruct o
      | |- paced (match ?p with (_, _) => _ end) => destruct p
      end ].

Ltac pace := repeat pace_step.

Lemma paced_ensure_puuid (client : RiotClient) (participant : json) :
  paced (ensure_puuid fuel float client participant).
Proof. unfold ensure_puuid, summoner_by_id. pace. Qed.

Lemma paced_count_matches (client : RiotClient) (puuid : json)
    (match_ids : list json) :
  forall exhaust_count total,
    paced (count_matches fuel float client puuid match_ids exhaust_count
             total).
Proof.
  induction match_ids as [|mid rest IH]; intros c t; cbn [count_matches].
  - apply paced_ret.
  - unfold match_by_id.
    repeat (first [ apply IH | progress pace ]).
Qed.

Lemma paced_count_exhaust_for_player (client : RiotClient) (puuid : json)
    (max_matches : Z) :
  paced (count_exhaust_for_player fuel float client puuid max_matches).
Proof.
  unfold count_exhaust_for_player, match_ids_by_puuid.
  repeat (first [ apply paced_count_matches | progress pace ]).
Qed.

Lemma paced_get_live_participants (client : RiotClient)
    (riot_name tag : string) :
  paced (get_live_participants_via_puuid_only fuel float client riot_name
           tag).
Proof.
  unfold get_live_participants_via_puuid_only, account_by_riot_id,
    active_game_by_summoner_id. pace.
Qed.

Lemma paced_print_rows (name_w : Z) (rows : list row) :
  paced (print_rows repr percent combining east_asian_width name_w rows).
Proof.
  induction rows as [|[[name c] t] rows IH]; cbn [print_rows]; pace.
  exact IH.
Qed.

Lemma paced_scan_players (cfg : Settings) (client : RiotClient)
    (participants : list json) :
  forall i rows, paced (scan_players fuel float cfg client participants i
                          rows).
Proof.
  induction participants as [|p rest IH]; intros i rows;
    cbn [scan_players].
  - apply paced_ret.
  - repeat (first
      [ apply IH
      | apply paced_ensure_puuid
      | apply paced_count_exhaust_for_player
      | pace_step ]).
Qed.

Lemma paced_run (cfg : Settings) :
  paced (run fuel float repr percent combining east_asian_width cfg).
Proof.
  unfold run, scan_and_report, report, print_leaderboard, sys_exit.
  repeat (first
    [ apply paced_get_live_participants
    | apply paced_scan_players
    | apply paced_print_rows
    | pace_step
    | match goal with
      | |- paced (match ?l with [] => _ | _ :: _ => _ end) => destruct l
      end ]).
Qed.

(** X19.  Whatever the service answers, however long each request takes
    and by however much each sleep oversleeps, in a whole [run] started with
    a fresh limiter every request is sent on a slot taken from the limiter
    just before it, and the instants of these slots respect both quotas of
    the module: no second holds more than 20 of them and no 120 seconds more
    than 100. *)
Theorem run_requests_respect_the_quotas (cfg : Settings) (w : World) :
  RATE_LIMITER w = Limiter.init ->
  paired (events_of (run fuel float repr percent combining east_asian_width
                       cfg w)) = true /\
  Limiter.rolling 1000 20
    (slot_times (events_of (run fuel float repr percent combining
                              east_asian_width cfg w))) /\
  Limiter.rolling 120000 100
    (slot_times (events_of (run fuel float repr percent combining
                              east_asian_width cfg w))).
Proof.
  intros Hfresh.
  assert (Hacc : accounts_for w []).
  { unfold accounts_for. rewrite Hfresh.
    apply LimiterFacts.tracks_init; simpl; lia. }
  destruct (paced_run cfg w [] Hacc) as [(_ & _ & R1 & R2) Hp].
  simpl in R1, R2. auto.
Qed.

End Pacing.

Lemma run_requests_respect_the_quotas_witness :
  paired (events_of (run 3 float_of_integer example_repr example_percent
                       example_combining example_east_asian_width
                       module_settings (slow_world live_service))) = true /\
  Limiter.rolling 1000 20
    (slot_times (events_of (run 3 float_of_integer example_repr
                              example_percent example_combining
                              example_east_asian_width module_settings
                              (slow_world live_service)))) /\
  Limiter.rolling 120000 100
    (slot_times (events_of (run 3 float_of_integer example_repr
                              example_percent example_combining
                              example_east_asian_width module_settings
                              (slow_world live_service)))).
Proof.
  apply (run_requests_respect_the_quotas 3 float_of_integer example_repr
           example_percent example_combining example_east_asian_width
           module_settings (slow_world live_service)).
  reflexivity.
Defined.

(** ** The properties on the examples *)

Lemma ensure_puuid_resolution_witness :
  ensure_puuid 3 float_of_integer example_client (JObj alpha)
    (fresh_world example_service)
  = (Ok (JStr "p1", JStr "Alpha#1"), fresh_world example_service, []) /\
  (exists w1 evs,
     ensure_puuid 3 float_of_integer example_client (JObj delta)
       (fresh_world example_service)
     = (Ok (JStr "p2", JStr "Nine"), w1, evs)) /\
  (result_of (ensure_puuid 3 float_of_integer example_client (JObj nobody)
                (fresh_world example_service))
   = Raise (RuntimeError ParticipantMissingIds)).
Proof.
  split; [|split].
  - apply (ensure_puuid_resolution 3 float_of_integer (le_n 3)
             example_client alpha (fresh_world example_service)
             (fresh_world_ok _)).
    reflexivity.
  - destruct (ensure_puuid_resolution 3 float_of_integer (le_n 3)
                example_client delta (fresh_world example_service)
                (fresh_world_ok _)) as (_ & H & _).
    destruct (H eq_refl (JStr "s9") eq_refl) as [Hok _].
    do 2 eexists.
    apply (Hok [("puuid"%string, JStr "p2"); ("name"%string, JStr "Nine")]).
    + vm_compute. reflexivity.
    + reflexivity.
  - apply (ensure_puuid_resolution 3 float_of_integer (le_n 3)
             example_client nobody (fresh_world example_service)
             (fresh_world_ok _)).
    split; reflexivity.
Defined.

Lemma falsy_fields_are_as_absent_witness :
  ensure_puuid 3 float_of_integer example_client (JObj delta)
    (fresh_world example_service)
  = ensure_puuid 3 float_of_integer example_client
      (JObj (without "puuid" delta)) (fresh_world example_service) /\
  record_name delta = JStr "Unknown" /\
  (exists w1 evs,
     ensure_puuid 3 float_of_integer example_client (JObj delta)
       (fresh_world example_service)
     = (Ok (JStr "p2", JStr "Nine"), w1, evs)).
Proof.
  destruct (falsy_fields_are_as_absent 3 float_of_integer example_client
              delta (fresh_world example_service)) as [H1 H2].
  destruct (H2 eq_refl eq_refl) as (Hn & _ & H3).
  split; [|split].
  - apply (H1 (JStr "")); reflexivity.
  - exact Hn.
  - do 2 eexists.
    apply (H3 eq_refl (JStr "s9")
             [("puuid"%string, JStr "p2"); ("name"%string, JStr "Nine")]).
    + reflexivity.
    + vm_compute. reflexivity.
    + reflexivity.
Defined.




(** The two participants of that run: both tallies are written, then the
    [TypeError] of the renderer ends the report before its first line. *)
Example two_participants_no_report :
  result_of (scan_and_report 3 float_of_integer example_repr example_percent
               example_combining example_east_asian_width module_settings
               example_client
               [JObj alpha;
                JObj [("puuid"%string, JStr "p2"); ("riotId"%string, JNum 7)]]
               (fresh_world example_service))
  = Raise TypeError /\
  outs_of (events_of (scan_and_report 3 float_of_integer example_repr
                        example_percent example_combining
                        example_east_asian_width module_settings
                        example_client
                        [JObj alpha;
                         JObj [("puuid"%string, JStr "p2");
                               ("riotId"%string, JNum 7)]]
                        (fresh_world example_service)))
  = [PlayerTally 1 (JStr "Alpha#1") 1 2; PlayerTally 2 (JNum 7) 0 0].
Proof. split; vm_compute; reflexivity. Qed.

(** The five participants: Alpha, Beta and the summoner Nine are tallied;
    Gamma's count fails and the last record cannot be resolved, each leaving
    its line on standard error; the leaderboard lists the three tallies. *)
Example five_participants_report :
  errs_of (events_of (scan_and_report 3 float_of_integer example_repr
                        example_percent example_combining
                        example_east_asian_width module_settings
                        example_client five_participants
                        (fresh_world example_service)))
  = [CountingError 3 (JStr "Gamma#3")
       (RuntimeError
          (GetFailed (MatchIdsByPuuid "americas" (JStr "p3")) 404
             (JObj [("status"%string, JObj [("message"%string, JStr "")])])));
     SkippingParticipant 5 (RuntimeError ParticipantMissingIds)] /\
  outs_of (events_of (scan_and_report 3 float_of_integer example_repr
                        example_percent example_combining
                        example_east_asian_width module_settings
                        example_client five_participants
                        (fresh_world example_service)))
  = [PlayerTally 1 (JStr "Alpha#1") 1 2;
     PlayerTally 2 (JStr "Beta") 0 0;
     PlayerTally 4 (JStr "Nine") 0 0;
     TableTitle; TableRule; TableHeader; TableRule;
     TableRow "WINNER: Alpha#1" 1 "n/d%" 2;
     TableRow "Beta" 0 "—" 0;
     TableRow "Nine" 0 "—" 0;
     TableRule].
Proof. split; vm_compute; reflexivity. Qed.

Lemma leaderboard_ranked_and_marked_witness :
  exists sorted : list (string * Z * Z),
    Permutation sorted
      [("a"%string, 2, 4); ("b"%string, 0, 0); ("c"%string, 2, 3)] /\
    StronglySorted (fun a b => ranks_before (named a) (named b)) sorted /\
    print_leaderboard example_repr example_percent example_combining
      example_east_asian_width
      (map named [("a"%string, 2, 4); ("b"%string, 0, 0); ("c"%string, 2, 3)])
      (fresh_world example_service)
    = (Ok tt, fresh_world example_service,
       map EvOut ([TableTitle; TableRule; TableHeader; TableRule]
                  ++ shown_rows example_percent sorted ++ [TableRule])) /\
    (forall name,
       In (name, 0, 0)
         [("a"%string, 2, 4); ("b"%string, 0, 0); ("c"%string, 2, 3)] ->
       In (TableRow name 0 "—" 0) (shown_rows example_percent sorted) \/
       In (TableRow ("WINNER: " ++ name) 0 "—" 0)
         (shown_rows example_percent sorted)).
Proof.
  apply (leaderboard_ranked_and_marked example_repr example_percent
           example_combining example_east_asian_width
           [("a"%string, 2, 4); ("b"%string, 0, 0); ("c"%string, 2, 3)]
           (fresh_world example_service)).
  repeat constructor; vm_compute; first [discriminate | reflexivity].
Defined.

(** The leaderboard of three rows: the higher ratio first among the equal
    counts, the winner marked, the dash for the row without games. *)
Example leaderboard_of_three :
  outs_of (events_of (print_leaderboard example_repr example_percent
                        example_combining example_east_asian_width
                        (map named [("a"%string, 2, 4); ("b"%string, 0, 0);
                                    ("c"%string, 2, 3)])
                        (fresh_world example_service)))
  = [TableTitle; TableRule; TableHeader; TableRule;
     TableRow "WINNER: c" 2 "n/d%" 3;
     TableRow "a" 2 "n/d%" 4;
     TableRow "b" 0 "—" 0;
     TableRule].
Proof. vm_compute. reflexivity. Qed.

(** The rows listed are not in rank order whatever the rows: of two rows
    with one Exhaust each, in [3 * 2^60 + 1] games and in [3 * 2^60] games,
    the two quotients are the same float, the sort leaves the rows as they
    came, and the lower ratio is listed first. *)
Lemma equal_floats_keep_the_lower_ratio_first :
  ~ listed_in_rank_order example_repr example_percent example_combining
      example_east_asian_width.
Proof.
  intros H.
  specialize (H [("a"%string, 1, 3 * 2 ^ 60 + 1); ("b"%string, 1, 3 * 2 ^ 60)]
                [("a"%string, 1, 3 * 2 ^ 60 + 1); ("b"%string, 1, 3 * 2 ^ 60)]
                (fresh_world example_service)).
  assert (S : StronglySorted
                (fun a b => ranks_before (named a) (named b))
                [("a"%string, 1, 3 * 2 ^ 60 + 1);
                 ("b"%string, 1, 3 * 2 ^ 60)])
    by (apply H; vm_compute; reflexivity).
  inversion S as [|x l _ F]; subst.
  inversion F as [|y l' R _]; subst.
  destruct R as [R|[_ R]]; [lia|].
  apply Qle_bool_iff in R. vm_compute in R. discriminate R.
Qed.

(** ** The further properties on the examples *)

Lemma live_game_needs_the_account_puuid_witness :
  exists t waits w1,
    get_live_participants_via_puuid_only 3 float_of_integer example_client
      "name" "tag" (fresh_world always_undecodable)
    = (Raise (RuntimeError (NoPuuidInAccount (JObj []))), w1,
       [EvSlot t waits; EvGet example_request]) /\
    sent w1 = 1%nat.
Proof.
  apply (live_game_needs_the_account_puuid 3 float_of_integer (le_n 3)
           example_client "name" "tag" (fresh_world always_undecodable)
           {| status_code := 200; retry_after := None; json_body := None;
              text := "" |} []);
    [apply fresh_world_ok|reflexivity|reflexivity|reflexivity|reflexivity].
Defined.

Lemma live_game_is_asked_by_puuid_witness :
  exists t waits t2 waits2 w2,
    get_live_participants_via_puuid_only 3 float_of_integer example_client
      "name" "tag" (fresh_world live_service)
    = (Ok (JList five_participants), w2,
       [EvSlot t waits; EvGet example_request;
        EvSlot t2 waits2;
        EvGet {| req_url := ActiveGameBySummoner "na1" (JStr "p0");
                 req_params := None |}]) /\
    sent w2 = 2%nat.
Proof.
  apply (live_game_is_asked_by_puuid 3 float_of_integer (le_n 3)
           example_client "name" "tag" (fresh_world live_service)
           {| status_code := 200; retry_after := None;
              json_body := Some (JObj [("puuid"%string, JStr "p0")]);
              text := "" |}
           {| status_code := 200; retry_after := None;
              json_body :=
                Some (JObj [("gameId"%string, JNum 1);
                            ("participants"%string,
                             JList five_participants)]);
              text := "" |}
           [("puuid"%string, JStr "p0")]
           [("gameId"%string, JNum 1);
            ("participants"%string, JList five_participants)]);
    try reflexivity.
  apply fresh_world_ok.
Defined.

Lemma ensure_puuid_edge_cases_witness :
  ensure_puuid 3 float_of_integer example_client (JStr "p1")
    (fresh_world always_nameless)
  = (Raise AttributeError, fresh_world always_nameless, []) /\
  (exists t waits w1,
     ensure_puuid 3 float_of_integer example_client (JObj delta)
       (fresh_world always_nameless)
     = (Raise (KeyError "puuid"), w1,
        [EvSlot t waits;
         EvGet {| req_url := SummonerById "na1" (JStr "s9");
                  req_params := None |}])).
Proof.
  destruct (ensure_puuid_edge_cases 3 float_of_integer (le_n 3)
              example_client (fresh_world always_nameless)
              (fresh_world_ok _)) as [Ha Hb].
  split.
  - apply Ha. discriminate.
  - apply (Hb delta (JStr "s9")
             {| status_code := 200; retry_after := None;
                json_body := Some (JObj [("name"%string, JStr "x")]);
                text := "" |} [("name"%string, JStr "x")]);
      reflexivity.
Defined.

Lemma examined_at_most_the_ids_witness :
  exists match_ids w1 ev1 mids,
    match_ids_by_puuid 3 float_of_integer example_client (JStr "p1") 20
      (Some ARAM_QUEUE_ID) 0 (fresh_world example_service)
    = (Ok match_ids, w1, ev1) /\
    (if truthy match_ids then py_iter match_ids else Val []) = Val mids /\
    1 <= 2 <= Z.of_nat (List.length mids).
Proof.
  apply (examined_at_most_the_ids 3 float_of_integer example_client "p1" 20
           (fresh_world example_service) 1 2
           (world_of (count_exhaust_for_player 3 float_of_integer
                        example_client (JStr "p1") 20
                        (fresh_world example_service)))
           (events_of (count_exhaust_for_player 3 float_of_integer
                         example_client (JStr "p1") 20
                         (fresh_world example_service)))).
  vm_compute. reflexivity.
Defined.

Lemma malformed_match_records_witness :
  count_matches 3 float_of_integer example_client (JStr "p1")
    [JStr "m1"; JStr "m2"] 0 0 (fresh_world always_empty_dict)
  = after (events_of (match_by_id 3 float_of_integer example_client
                        (JStr "m1") (fresh_world always_empty_dict)))
      (count_matches 3 float_of_integer example_client (JStr "p1")
         [JStr "m2"] 0 0
         (world_of (match_by_id 3 float_of_integer example_client
                      (JStr "m1") (fresh_world always_empty_dict)))) /\
  count_matches 3 float_of_integer example_client (JStr "p1")
    [JStr "m1"; JStr "m2"] 0 0 (fresh_world always_empty_list)
  = (Raise AttributeError,
     world_of (match_by_id 3 float_of_integer example_client (JStr "m1")
                 (fresh_world always_empty_list)),
     events_of (match_by_id 3 float_of_integer example_client (JStr "m1")
                  (fresh_world always_empty_list))).
Proof.
  split.
  - destruct (malformed_match_records 3 float_of_integer example_client
                (JStr "p1") (JStr "m1") (JObj []) [JStr "m2"] 0 0
                (fresh_world always_empty_dict)
                (world_of (match_by_id 3 float_of_integer example_client
                             (JStr "m1") (fresh_world always_empty_dict)))
                (events_of (match_by_id 3 float_of_integer example_client
                              (JStr "m1") (fresh_world always_empty_dict))))
      as [H _]; [vm_compute; reflexivity|].
    apply (H []); [reflexivity|now left].
  - destruct (malformed_match_records 3 float_of_integer example_client
                (JStr "p1") (JStr "m1") (JList []) [JStr "m2"] 0 0
                (fresh_world always_empty_list)
                (world_of (match_by_id 3 float_of_integer example_client
                             (JStr "m1") (fresh_world always_empty_list)))
                (events_of (match_by_id 3 float_of_integer example_client
                              (JStr "m1") (fresh_world always_empty_list))))
      as [_ H]; [vm_compute; reflexivity|].
    apply H. discriminate.
Defined.

Lemma run_exit_codes_witness :
  run 3 float_of_integer example_repr example_percent example_combining
    example_east_asian_width settings_without_key (fresh_world live_service)
  = (Raise (SystemExit 1), fresh_world live_service, [EvErr ConfigMissing]) /\
  (exists w1 ev e,
     run 3 float_of_integer example_repr example_percent example_combining
       example_east_asian_width module_settings (fresh_world always_404)
     = (Raise (SystemExit 2), w1, ev ++ [EvErr (FailedToLoad e)])) /\
  (exists w1 ev,
     run 3 float_of_integer example_repr example_percent example_combining
       example_east_asian_width module_settings
       (fresh_world account_without_game)
     = (Raise (SystemExit 3), w1, ev ++ [EvErr NoParticipants])).
Proof.
  split; [|split].
  - apply (run_exit_codes 3 float_of_integer example_repr example_percent
             example_combining example_east_asian_width (le_n 3)
             settings_without_key (fresh_world live_service)
             (fresh_world_ok _)).
    reflexivity.
  - destruct (run_exit_codes 3 float_of_integer example_repr example_percent
                example_combining example_east_asian_width (le_n 3)
                module_settings (fresh_world always_404)
                (fresh_world_ok _)) as (_ & H & _).
    do 3 eexists. apply H; [reflexivity|]. vm_compute. reflexivity.
  - destruct (run_exit_codes 3 float_of_integer example_repr example_percent
                example_combining example_east_asian_width (le_n 3)
                module_settings (fresh_world account_without_game)
                (fresh_world_ok _)) as (_ & _ & H).
    do 2 eexists. apply (H (JList [])); [reflexivity| |reflexivity].
    vm_compute. reflexivity.
Defined.

Lemma run_ends_in_report_or_exit_witness :
  match result_of (run 3 float_of_integer example_repr example_percent
                     example_combining example_east_asian_width
                     module_settings (fresh_world live_service)) with
  | Ok _ => True
  | Raise (SystemExit code) => code = 1 \/ code = 2 \/ code = 3
  | Raise TypeError => True
  | Raise OverflowError => SLEEP_MAX < SLEEP_BETWEEN_PLAYERS module_settings
  | _ => False
  end.
Proof.
  apply (run_ends_in_report_or_exit 3 float_of_integer example_repr
           example_percent example_combining example_east_asian_width
           (le_n 3) module_settings (fresh_world live_service)).
  - apply fresh_world_ok.
  - vm_compute. discriminate.
Defined.

(** The whole run on the live game of the examples: the two failures on
    standard error, the count of participants, the three tallies and the
    leaderboard on standard output. *)
Example run_on_the_live_game :
  result_of (run 3 float_of_integer example_repr example_percent
               example_combining example_east_asian_width module_settings
               (fresh_world live_service)) = Ok tt /\
  errs_of (events_of (run 3 float_of_integer example_repr example_percent
                        example_combining example_east_asian_width
                        module_settings (fresh_world live_service)))
  = [CountingError 3 (JStr "Gamma#3")
       (RuntimeError
          (GetFailed (MatchIdsByPuuid "americas" (JStr "p3")) 404
             (JObj [("status"%string, JObj [("message"%string, JStr "")])])));
     SkippingParticipant 5 (RuntimeError ParticipantMissingIds)] /\
  outs_of (events_of (run 3 float_of_integer example_repr example_percent
                        example_combining example_east_asian_width
                        module_settings (fresh_world live_service)))
  = [FoundParticipants 5 20;
     PlayerTally 1 (JStr "Alpha#1") 1 2;
     PlayerTally 2 (JStr "Beta") 0 0;
     PlayerTally 4 (JStr "Nine") 0 0;
     TableTitle; TableRule; TableHeader; TableRule;
     TableRow "WINNER: Alpha#1" 1 "n/d%" 2;
     TableRow "Beta" 0 "—" 0;
     TableRow "Nine" 0 "—" 0;
     TableRule].
Proof. repeat split; vm_compute; reflexivity. Qed.
